(** * Cloudflare bypass and session lifecycle: a shallow embedding

    The definitions below follow [cloudflare_utils.py] (session store and
    challenge detector) and [cloudflareSolver.py] (sitekey extractor and
    solver client).  Python [str] values are modelled as [string], read as
    sequences of code points below 256; on that range the character classes
    and the case mapping below are those of CPython. *)

From Stdlib Require Import Ascii String List Arith Lia Bool.
From stdpp Require Import gmap strings list.

Set Default Proof Using "Type".

(** ** Text primitives *)

Module Text.

Definition code (c : ascii) : nat := nat_of_ascii c.

Definition between (lo hi : nat) (c : ascii) : bool :=
  (lo <=? code c) && (code c <=? hi).

Definition is_digit (c : ascii) : bool := between 48 57 c.
Definition is_upper_az (c : ascii) : bool := between 65 90 c.
Definition is_lower_az (c : ascii) : bool := between 97 122 c.

(** The regular-expression class [[0-9A-Za-z]]. *)
Definition is_ascii_alnum (c : ascii) : bool :=
  is_digit c || is_upper_az c || is_lower_az c.

(** [str.isalnum] on one code point: letters and numeric characters. *)
Definition isalnum (c : ascii) : bool :=
  is_ascii_alnum c
  || (code c =? 170) || (code c =? 178) || (code c =? 179)
  || (code c =? 181) || (code c =? 185) || (code c =? 186)
  || between 188 190 c || between 192 214 c
  || between 216 246 c || between 248 255 c.

(** [str.lower] on one code point. *)
Definition lower_char (c : ascii) : ascii :=
  if is_upper_az c || (between 192 222 c && negb (code c =? 215))
  then ascii_of_nat (code c + 32)
  else c.

Fixpoint lower (s : string) : string :=
  match s with
  | EmptyString => EmptyString
  | String c r => String (lower_char c) (lower r)
  end.

(** [s.startswith(p)] *)
Fixpoint startswith (s p : string) {struct p} : bool :=
  match p, s with
  | EmptyString, _ => true
  | String a p', String b s' => if Ascii.eqb a b then startswith s' p' else false
  | String _ _, EmptyString => false
  end.

(** [needle in hay] *)
Fixpoint contains (needle hay : string) : bool :=
  startswith hay needle ||
  match hay with
  | EmptyString => false
  | String _ r => contains needle r
  end.

(** [s[n:]] *)
Fixpoint drop (n : nat) (s : string) : string :=
  match n, s with
  | O, _ => s
  | S _, EmptyString => EmptyString
  | S k, String _ r => drop k r
  end.

(** [s[:n]] *)
Fixpoint take (n : nat) (s : string) : string :=
  match n, s with
  | O, _ => EmptyString
  | S _, EmptyString => EmptyString
  | S k, String c r => String c (take k r)
  end.

(** [all(p(c) for c in s)] *)
Fixpoint all (p : ascii -> bool) (s : string) : bool :=
  match s with
  | EmptyString => true
  | String c r => p c && all p r
  end.

(** [s.replace(a, b)] for one-character [a] and [b]. *)
Fixpoint replace_char (a b : ascii) (s : string) : string :=
  match s with
  | EmptyString => EmptyString
  | String c r => String (if Ascii.eqb c a then b else c) (replace_char a b r)
  end.

(** No character of [s] is [c]. *)
Definition lacks (c : ascii) (s : string) : bool :=
  all (fun a => negb (Ascii.eqb a c)) s.

(** Truthiness of a [str]. *)
Definition truthy (s : string) : bool :=
  match s with EmptyString => false | String _ _ => true end.

Definition repeat (c : ascii) (n : nat) : string :=
  string_of_list_ascii (List.repeat c n).

End Text.

(** ** Sitekey validator ([CloudflareTurnstileExtractor._is_valid_turnstile_sitekey]) *)

Definition _is_valid_turnstile_sitekey (sitekey : string) : bool :=
  let n := String.length sitekey in
  if negb (Text.truthy sitekey) || (n <? 22) || (35 <? n) then false
  else if negb (Text.startswith (Text.lower sitekey) "0x") then false
  else if (22 <=? n) && (n <=? 30) then
    if Text.all Text.isalnum (Text.drop 2 sitekey) then true else false
  else false.

(** The validity rule in the words of the data model: total length within
    [lo, hi], prefix [0x] up to case, alphanumeric characters after it.
    [alnum] is the reading of alphanumeric: [Text.is_ascii_alnum] is the
    class [[0-9A-Za-z]] of the regular expressions, [Text.isalnum] is
    [str.isalnum], which the validator calls. *)
Definition sitekey_rule (alnum : ascii -> bool) (lo hi : nat) (s : string) : Prop :=
  lo <= String.length s <= hi /\
  exists x rest,
    s = String "0" (String x rest) /\
    (x = "x"%char \/ x = "X"%char) /\
    Text.all alnum rest = true.

Definition known_sitekey : string := "0x4AAAAAAADnPIDROrmt1Wwj".

(** A key of 35 characters, 33 of them after the prefix: it meets the rule
    with bounds 22 and 35 under either reading of alphanumeric, and it is
    longer than the 20 to 30 characters after the prefix that the docstring
    of the validator speaks of. *)
Definition long_sitekey : string := "0x" +:+ Text.repeat "A" 33.

(** A key of 22 characters whose characters after the prefix are the
    fraction sign of code point 188. *)
Definition fraction_sitekey : string := "0x" +:+ Text.repeat (ascii_of_nat 188) 20.

(** ** Exceptions

    Fallible Python code is embedded in an error monad.  Every exception the
    modelled code can meet derives from [Exception]; the handlers tell
    [json.JSONDecodeError] from the rest.  [RecursionError] is what
    [json.load] raises on a text nested deeper than the interpreter's
    recursion limit; it is no [JSONDecodeError]. *)

Inductive exn : Type :=
| JSONDecodeError
| RecursionError
| AttributeError
| TypeError
| OSError
| HTTPError
| PageError
| Exception (msg : string).

Inductive result (A : Type) : Type :=
| Ok (a : A)
| Raised (e : exn).
Arguments Ok {A} a.
Arguments Raised {A} e.

Definition rbind {A B : Type} (r : result A) (k : A -> result B) : result B :=
  match r with
  | Ok a => k a
  | Raised e => Raised e
  end.

Notation "x <- r ;; k" := (rbind r (fun x => k))
  (at level 100, r at next level, right associativity).

Definition raised {A : Type} (r : result A) : bool :=
  match r with Ok _ => false | Raised _ => true end.

(** ** JSON values, as [json.load] builds them

    A [float] is kept by its exact value: every finite double is
    [m * 2^e] for integers [m] and [e]. *)

Inductive fval : Type :=
| Finite (m e : Z)
| Infinite (negative : bool)
| NaN.

#[warnings="-register-all"]
Inductive json : Type :=
| JNull
| JBool (b : bool)
| JInt (n : Z)
| JFloat (f : fval)
| JStr (s : string)
| JArr (items : list json)
| JObj (fields : list (string * json)).

Module Py.

(** Numbers: [bool] is a subtype of [int], and an [int] equals a [float]
    when their exact values agree. *)
Inductive num : Type :=
| Dyadic (m e : Z)
| Inf (negative : bool)
| NotANumber.

Definition as_num (x : json) : option num :=
  match x with
  | JBool b => Some (Dyadic (if b then 1 else 0) 0)
  | JInt n => Some (Dyadic n 0)
  | JFloat (Finite m e) => Some (Dyadic m e)
  | JFloat (Infinite s) => Some (Inf s)
  | JFloat NaN => Some NotANumber
  | _ => None
  end.

Definition num_eq (a b : num) : bool :=
  match a, b with
  | Dyadic m1 e1, Dyadic m2 e2 =>
      let e := Z.min e1 e2 in
      (m1 * 2 ^ (e1 - e) =? m2 * 2 ^ (e2 - e))%Z
  | Inf s1, Inf s2 => Bool.eqb s1 s2
  | _, _ => false
  end.

(** [x == 0] *)
Definition eq_zero (x : json) : bool :=
  match as_num x with
  | Some n => num_eq n (Dyadic 0 0)
  | None => false
  end.

(** [bool(x)] *)
Definition truthy (x : json) : bool :=
  match x with
  | JNull => false
  | JBool b => b
  | JInt _ | JFloat _ =>
      match x with
      | JFloat NaN | JFloat (Infinite _) => true
      | _ => negb (eq_zero x)
      end
  | JStr s => Text.truthy s
  | JArr items => match items with [] => false | _ => true end
  | JObj fields => match fields with [] => false | _ => true end
  end.

(** The items of a [dict], whose keys are distinct, in insertion order. *)
Fixpoint assoc (key : string) (fields : list (string * json)) : option json :=
  match fields with
  | [] => None
  | (k, v) :: rest => if String.eqb k key then Some v else assoc key rest
  end.

(** [d.get(key, default)]: only a [dict] has the method. *)
Definition get (d : json) (key : string) (default : json) : result json :=
  match d with
  | JObj fields => Ok (match assoc key fields with Some v => v | None => default end)
  | _ => Raised AttributeError
  end.

(** [iter(x)] for the values [json.load] can return. *)
Definition iter (x : json) : result (list json) :=
  match x with
  | JArr items => Ok items
  | JObj fields => Ok (map (fun kv => JStr (fst kv)) fields)
  | JStr s => Ok (map (fun c => JStr (String c EmptyString)) (list_ascii_of_string s))
  | _ => Raised TypeError
  end.

(** [x == 'literal'] *)
Definition eq_str (x : json) (lit : string) : bool :=
  match x with
  | JStr s => String.eqb s lit
  | _ => false
  end.

(** [any(f(c) for c in items)]: stops at the first true element, and at
    the first element on which [f] raises. *)
Fixpoint any (f : json -> result bool) (items : list json) : result bool :=
  match items with
  | [] => Ok false
  | c :: rest =>
      b <- f c ;;
      if b then Ok true else any f rest
  end.

(** [a == b] on the values [json.load] and [page.evaluate] return. *)
Fixpoint eq (a b : json) {struct a} : bool :=
  match a, b with
  | JNull, JNull => true
  | JStr s, JStr t => String.eqb s t
  | JArr xs, JArr ys =>
      (fix eq_items (xs ys : list json) {struct xs} : bool :=
         match xs, ys with
         | [], [] => true
         | x :: xs', y :: ys' => eq x y && eq_items xs' ys'
         | _, _ => false
         end) xs ys
  | JObj fa, JObj fb =>
      (length fa =? length fb)
      && (fix included (fa : list (string * json)) {struct fa} : bool :=
            match fa with
            | [] => true
            | (k, v) :: rest =>
                match assoc k fb with
                | Some v' => eq v v'
                | None => false
                end && included rest
            end) fa
  | _, _ =>
      match as_num a, as_num b with
      | Some x, Some y => num_eq x y
      | _, _ => false
      end
  end.

End Py.

(** ** Paths ([pathlib], POSIX flavour)

    A relative path is the list of its components: [/] separates them, empty
    components and [.] are dropped.  Joining a relative path to a base
    appends its components. *)

Module Path.

(** [s.split('/')] *)
Fixpoint split_slash (s : string) : list string :=
  match s with
  | EmptyString => [EmptyString]
  | String c r =>
      if Ascii.eqb c "/" then EmptyString :: split_slash r
      else match split_slash r with
           | h :: t => String c h :: t
           | [] => [String c EmptyString]
           end
  end.

Definition kept (part : string) : bool :=
  negb (String.eqb part "" || String.eqb part ".").

Definition parts (s : string) : list string :=
  List.filter kept (split_slash s).

Definition join (base : list string) (s : string) : list string :=
  base ++ parts s.

End Path.

(** ** Session store ([cloudflare_utils.py]) *)

Definition SESSION_DIR : list string := Path.parts ".sessions".

Definition get_session_path (domain : string) : list string :=
  let safe_domain := Text.replace_char "." "_" domain in
  Path.join SESSION_DIR ("cloudflare_" +:+ safe_domain +:+ ".json").

(** [any(c.get('name') == 'cf_clearance' for c in cookies)] with
    [cookies = session_data.get('cookies', [])] *)
Definition names_cf_clearance (c : json) : result bool :=
  name <- Py.get c "name" JNull ;;
  Ok (Py.eq_str name "cf_clearance").

Definition has_cf_clearance (session_data : json) : result bool :=
  cookies <- Py.get session_data "cookies" (JArr []) ;;
  items <- Py.iter cookies ;;
  Py.any names_cf_clearance items.

(** The elements the scan of [load_cloudflare_session] ranges over. *)
Definition cookie_list (session_data : json) : list json :=
  match Py.get session_data "cookies" (JArr []) with
  | Ok cookies => match Py.iter cookies with Ok items => items | Raised _ => [] end
  | Raised _ => []
  end.

(** A cookie named [cf_clearance]. *)
Definition is_cf_clearance_cookie (c : json) : Prop :=
  exists fields, c = JObj fields /\ Py.assoc "name" fields = Some (JStr "cf_clearance").

Section SessionStore.

(** The durable storage maps the path of each session file to its text.
    [json_load] is [json.load] on that text and [new_context] is the
    browser's [new_context(storage_state=...)] on it; removing a file
    that exists succeeds. *)
Context {BrowserContext : Type}.
Variable json_load : string -> result json.
Variable new_context : string -> result BrowserContext.

(** [storage_state] is what [context.storage_state(path=...)] writes,
    or the exception it raises. *)
Definition save_cloudflare_session (storage_state : result string)
    (fs : gmap (list string) string) (domain : string)
  : bool * gmap (list string) string :=
  let session_path := get_session_path domain in
  match storage_state with
  | Ok text => (true, <[session_path := text]> fs)
  | Raised _ => (false, fs)
  end.

Definition load_cloudflare_session
    (fs : gmap (list string) string) (domain : string)
  : option BrowserContext * gmap (list string) string :=
  let session_path := get_session_path domain in
  match fs !! session_path with
  | None => (None, fs)
  | Some text =>
      match json_load text with
      | Raised JSONDecodeError => (None, delete session_path fs)
      | Raised _ => (None, fs)
      | Ok session_data =>
          match has_cf_clearance session_data with
          | Raised _ => (None, fs)
          | Ok false => (None, fs)
          | Ok true =>
              match new_context text with
              | Ok context => (Some context, fs)
              | Raised _ => (None, fs)
              end
          end
      end
  end.

Definition clear_session
    (fs : gmap (list string) string) (domain : string)
  : bool * gmap (list string) string :=
  let session_path := get_session_path domain in
  match fs !! session_path with
  | Some _ => (true, delete session_path fs)
  | None => (false, fs)
  end.

End SessionStore.

(** ** Challenge detector ([is_session_valid])

    A [Page] records what one run of the detector observes of the browser
    page, in program order: the URL on entry, the settle delay, the markup,
    the value of [document.body.innerText], and the URL after the delay. *)

Record Page : Type := {
  url_before : result string;
  wait_for_timeout : result unit;
  content : result string;
  inner_text : result json;
  url_after : result string;
}.

Definition challenge_indicators : list string :=
  [ "checking your browser"; "just a moment"; "cf-challenge";
    "cf-browser-verification"; "turnstile" ].

(** [x.lower()] on a value that came back from [page.evaluate]. *)
Definition lower_method (x : json) : result string :=
  match x with
  | JStr s => Ok (Text.lower s)
  | _ => Raised AttributeError
  end.

(** The body of the inner [try]: [Ok true] when an indicator is found. *)
Definition indicator_found (page : Page) : result bool :=
  _ <- wait_for_timeout page ;;
  page_content <- content page ;;
  raw_text <- inner_text page ;;
  page_text <- lower_method raw_text ;;
  Ok (existsb
        (fun indicator =>
           Text.contains indicator (Text.lower page_text)
           || Text.contains indicator (Text.lower page_content))
        challenge_indicators).

(** The check of the URL after the delay, which ends the outer [try]. *)
Definition final_url_check (page : Page) (challenge_url_pattern : string) : bool :=
  match url_after page with
  | Raised _ => false
  | Ok final_url => negb (Text.contains challenge_url_pattern final_url)
  end.

Definition is_session_valid (page : Page) (challenge_url_pattern : string) : bool :=
  match url_before page with
  | Raised _ => false
  | Ok current_url =>
      if Text.contains challenge_url_pattern current_url then false
      else
        match indicator_found page with
        | Ok true => false
        | Ok false | Raised _ => final_url_check page challenge_url_pattern
        end
  end.

Definition default_challenge_url_pattern : string := "challenges.cloudflare.com".

(** ** Regular expressions ([re.search])

    A backtracking matcher for the operators the patterns of the extractor
    use.  Alternatives are tried left to right and repetitions are greedy;
    [search] tries the start positions from left to right.  Flag
    [re.IGNORECASE] is folded into the character predicates. *)

Module Re.

Inductive re : Type :=
| One (p : ascii -> bool)               (* a character of a class *)
| Many (p : ascii -> bool) (min : nat)  (* [p{min,}], greedy *)
| Opt (p : ascii -> bool)               (* [p?], greedy *)
| Seq (a b : re)
| Alt (a b : re)
| Group (a : re)                        (* the capturing group *)
| Eol.                                  (* [$] *)

Record Match : Type := { group0 : string; group1 : option string }.

Definition consumed (s rest : string) : string :=
  Text.take (String.length s - String.length rest) s.

Definition at_end (s : string) : bool :=
  match s with
  | EmptyString => true
  | String c EmptyString => Ascii.eqb c (ascii_of_nat 10)
  | _ => false
  end.

Definition orelse {R : Type} (a b : option R) : option R :=
  match a with Some x => Some x | None => b end.

Fixpoint many {R : Type} (p : ascii -> bool) (min : nat)
    (k : string -> option R) (n : nat) (s : string) {struct s} : option R :=
  let stop := if min <=? n then k s else None in
  match s with
  | String c s' => if p c then orelse (many p min k (S n) s') stop else stop
  | EmptyString => stop
  end.

Fixpoint run {R : Type} (r : re) (s : string) (cap : option string)
    (k : string -> option string -> option R) {struct r} : option R :=
  match r with
  | One p =>
      match s with
      | String c s' => if p c then k s' cap else None
      | EmptyString => None
      end
  | Many p min => many p min (fun s' => k s' cap) 0 s
  | Opt p =>
      match s with
      | String c s' => if p c then orelse (k s' cap) (k s cap) else k s cap
      | EmptyString => k s cap
      end
  | Seq a b => run a s cap (fun s' cap' => run b s' cap' k)
  | Alt a b => orelse (run a s cap k) (run b s cap k)
  | Group a => run a s cap (fun s' _ => k s' (Some (consumed s s')))
  | Eol => if at_end s then k s cap else None
  end.

(** A match that starts at the first character of [s]. *)
Definition match_here (r : re) (s : string) : option Match :=
  run r s None (fun s' cap => Some {| group0 := consumed s s'; group1 := cap |}).

(** [re.search(r, s)] *)
Fixpoint search (r : re) (s : string) : option Match :=
  orelse (match_here r s)
    match s with
    | EmptyString => None
    | String _ s' => search r s'
    end.

(** Character predicates. *)
Definition chr (c : ascii) : ascii -> bool := fun a => Ascii.eqb a c.
Definition chr_i (c : ascii) : ascii -> bool := fun a => Ascii.eqb (Text.lower_char a) c.
Definition quote : ascii -> bool :=
  fun a => (Text.code a =? 34) || (Text.code a =? 39).
Definition space : ascii -> bool :=
  fun a => Text.between 9 13 a || Text.between 28 32 a
           || (Text.code a =? 133) || (Text.code a =? 160).

(** A literal word, case-insensitive. *)
Fixpoint word_i (w : string) (tail : re) : re :=
  match w with
  | EmptyString => tail
  | String c w' => Seq (One (chr_i c)) (word_i w' tail)
  end.

End Re.

(** ** Sitekey extractor ([CloudflareTurnstileExtractor]) *)

(** [0x[0-9A-Za-z]{20,}] *)
Definition re_key : Re.re :=
  Re.Seq (Re.One (Re.chr "0"))
    (Re.Seq (Re.One (Re.chr_i "x")) (Re.Many Text.is_ascii_alnum 20)).

(** [/(0x[0-9A-Za-z]{20,})/] *)
Definition pattern : Re.re :=
  Re.Seq (Re.One (Re.chr "/")) (Re.Seq (Re.Group re_key) (Re.One (Re.chr "/"))).

(** [/(0x[0-9A-Za-z]{20,})(?:/|$)] *)
Definition pattern2 : Re.re :=
  Re.Seq (Re.One (Re.chr "/"))
    (Re.Seq (Re.Group re_key) (Re.Alt (Re.One (Re.chr "/")) Re.Eol)).

(** [sitekey=([^&]+)] *)
Definition pattern3 : Re.re :=
  Re.word_i "sitekey"
    (Re.Seq (Re.One (Re.chr "="))
       (Re.Group (Re.Many (fun a => negb (Re.chr "&" a)) 1))).

(** The parameter pattern: the word sitekey, an optional quote character
    (double or single), white space, a colon or an equals sign, white space,
    an optional quote character, then the group: one or more characters
    that are neither quote characters nor white space. *)
Definition pattern_param : Re.re :=
  Re.word_i "sitekey"
    (Re.Seq (Re.Opt Re.quote)
       (Re.Seq (Re.Many Re.space 0)
          (Re.Seq (Re.One (fun a => Re.chr ":" a || Re.chr "=" a))
             (Re.Seq (Re.Many Re.space 0)
                (Re.Seq (Re.Opt Re.quote)
                   (Re.Group (Re.Many (fun a => negb (Re.quote a || Re.space a)) 1))))))).

(** [match.group(1)] of a pattern with one group that takes part in every
    match. *)
Definition group (m : Re.Match) : string :=
  match Re.group1 m with Some g => g | None => EmptyString end.

(** [if match: c = match.group(..); if self._is_valid_turnstile_sitekey(c): return c] *)
Definition validated (m : option Re.Match) (pick : Re.Match -> string) : option string :=
  match m with
  | Some found =>
      if _is_valid_turnstile_sitekey (pick found) then Some (pick found) else None
  | None => None
  end.

Definition _extract_sitekey_from_url (url : string) : option string :=
  if negb (Text.truthy url) then None
  else if negb (Text.contains "turnstile" (Text.lower url)) then None
  else
    Re.orelse (validated (Re.search pattern url) group)
      (Re.orelse (validated (Re.search pattern2 url) group)
         (validated (Re.search pattern3 url) group)).

(** *** Path segments, in the words of the extraction precedence

    A key candidate is [0x] (up to case) followed by at least 20 characters
    of [[0-9A-Za-z]]; a path segment is a candidate between two slashes. *)

Definition key_shape (k : string) : Prop :=
  exists x rest,
    k = String "0" (String x rest)
    /\ (x = "x"%char \/ x = "X"%char)
    /\ Text.all Text.is_ascii_alnum rest = true
    /\ 20 <= String.length rest.

(** [u] has the segment [/k/] with its first slash at offset [i]. *)
Definition path_segment_at (u : string) (i : nat) (k : string) : Prop :=
  exists pre post,
    u = pre +:+ "/" +:+ k +:+ "/" +:+ post
    /\ String.length pre = i
    /\ key_shape k.

(** [u] has the parameter [sitekey=k], ended by [&] or by the end of [u]. *)
Definition query_parameter (u k : string) : Prop :=
  exists pre post,
    u = pre +:+ "sitekey=" +:+ k +:+ post
    /\ Text.lacks "&" k = true
    /\ (post = EmptyString \/ Text.startswith post "&" = true).

(** The length of the longest prefix of [s] made of characters of [p]. *)
Fixpoint span_len (p : ascii -> bool) (s : string) : nat :=
  match s with
  | String c r => if p c then S (span_len p r) else 0
  | EmptyString => 0
  end.

(** The candidate a match of [pattern] at the start of [s] captures. *)
Definition path_key_here (s : string) : option string :=
  match s with
  | String a (String b (String c r)) =>
      if Re.chr "/" a && Re.chr "0" b && Re.chr_i "x" c then
        let n := span_len Text.is_ascii_alnum r in
        if (20 <=? n) && Text.startswith (Text.drop n r) "/"
        then Some (String b (String c (Text.take n r)))
        else None
      else None
  | _ => None
  end.

(** The first suffix of [s], from the left, on which [f] answers. *)
Fixpoint first_here {A : Type} (f : string -> option A) (s : string) : option A :=
  Re.orelse (f s)
    match s with
    | EmptyString => None
    | String _ r => first_here f r
    end.

(** The offset of that suffix. *)
Fixpoint first_index {A : Type} (f : string -> option A) (s : string) : option nat :=
  match f s with
  | Some _ => Some 0
  | None =>
      match s with
      | EmptyString => None
      | String _ r => option_map S (first_index f r)
      end
  end.

(** The dictionaries built by the network handlers: [request_info] has
    keys [url], [method], [headers], [post_data]; [response_info] has keys
    [url], [status], [headers], [body].  A key that is missing, or bound to
    [None], is [None] here. *)
Record NetworkData : Type := {
  url : string;
  method : option string;
  status : option nat;
  headers : list (string * string);
  post_data : option string;
  body : option string;
}.

#[global] Instance NetworkData_eq_dec : EqDecision NetworkData.
Proof. solve_decision. Defined.

Definition is_turnstile_url (u : string) : bool :=
  Text.contains "turnstile" (Text.lower u).

(** [if sitekey and self._is_valid_turnstile_sitekey(sitekey): return sitekey] *)
Definition checked (sitekey : option string) : option string :=
  match sitekey with
  | Some k => if Text.truthy k && _is_valid_turnstile_sitekey k then Some k else None
  | None => None
  end.

(** The two searches made in a request payload or a response body. *)
Definition scan_text (text : option string) (tagged : bool) : option string :=
  match text with
  | Some t =>
      if Text.truthy t && tagged then
        Re.orelse (validated (Re.search re_key t) Re.group0)
          (validated (Re.search pattern_param t) group)
      else None
  | None => None
  end.

(** The loop over [headers.items()]. *)
Fixpoint scan_headers (items : list (string * string)) : option string :=
  match items with
  | [] => None
  | (key, value) :: rest =>
      Re.orelse
        (if Text.contains "sitekey" (Text.lower key) then
           if _is_valid_turnstile_sitekey value then Some value else None
         else None)
        (Re.orelse (validated (Re.search re_key value) Re.group0)
           (scan_headers rest))
  end.

Definition _extract_sitekey_from_network_data (data : NetworkData) : option string :=
  let tagged := is_turnstile_url (url data) in
  Re.orelse
    (if tagged && Text.contains "0x" (Text.lower (url data))
     then checked (_extract_sitekey_from_url (url data)) else None)
    (Re.orelse (checked (_extract_sitekey_from_url (url data)))
       (Re.orelse (scan_text (post_data data) tagged)
          (Re.orelse (scan_text (body data) tagged)
             (scan_headers (headers data))))).

(** The state of one extractor object. *)
Record Extractor : Type := {
  captured_requests : list NetworkData;
  sitekey_from_network : option string;
  monitoring_setup : bool;
}.

(** [CloudflareTurnstileExtractor()] *)
Definition new_extractor : Extractor :=
  {| captured_requests := []; sitekey_from_network := None; monitoring_setup := false |}.

Definition set_sitekey (ext : Extractor) (k : string) : Extractor :=
  {| captured_requests := captured_requests ext;
     sitekey_from_network := Some k;
     monitoring_setup := monitoring_setup ext |}.

Definition capture (ext : Extractor) (info : NetworkData) : Extractor :=
  {| captured_requests := captured_requests ext ++ [info];
     sitekey_from_network := sitekey_from_network ext;
     monitoring_setup := monitoring_setup ext |}.

(** What the browser hands to the handlers. *)
Inductive NetworkEvent : Type :=
| Request (u m : string) (hs : list (string * string)) (payload : option string)
| Response (u : string) (code : nat) (hs : list (string * string)) (text : result string).

Definition is_watched (u : string) : bool :=
  Text.contains "challenges.cloudflare.com" u || is_turnstile_url u.

(** [if sitekey: self.sitekey_from_network = sitekey] *)
Definition remember (ext : Extractor) (sitekey : option string) : Extractor :=
  match sitekey with
  | Some k => if Text.truthy k then set_sitekey ext k else ext
  | None => ext
  end.

Definition handle_request (ext : Extractor) (u m : string)
    (hs : list (string * string)) (payload : option string) : Extractor :=
  if is_watched u then
    let request_info :=
      {| url := u; method := Some m; status := None; headers := hs;
         post_data := payload; body := None |} in
    remember (capture ext request_info)
      (_extract_sitekey_from_network_data request_info)
  else ext.

Definition handle_response (ext : Extractor) (u : string) (code : nat)
    (hs : list (string * string)) (text : result string) : Extractor :=
  if is_watched u then
    let fetched := match text with Ok t => Some t | Raised _ => None end in
    let response_info :=
      {| url := u; method := None; status := Some code; headers := hs;
         post_data := None;
         body := match fetched with
                 | Some t => if Text.truthy t then Some (Text.take 1000 t) else None
                 | None => None
                 end |} in
    remember ext (_extract_sitekey_from_network_data response_info)
  else ext.

Definition setup_network_monitoring (ext : Extractor) : Extractor :=
  if monitoring_setup ext then ext
  else {| captured_requests := captured_requests ext;
          sitekey_from_network := sitekey_from_network ext;
          monitoring_setup := true |}.

Definition handle (ext : Extractor) (ev : NetworkEvent) : Extractor :=
  match ev with
  | Request u m hs payload => handle_request ext u m hs payload
  | Response u code hs text => handle_response ext u code hs text
  end.

(** The events that reach the handlers while the caller is suspended. *)
Definition deliver (ext : Extractor) (arrivals : list NetworkEvent) : Extractor :=
  fold_left handle arrivals ext.

(** [if self.sitekey_from_network: return self.sitekey_from_network] *)
Definition cached (ext : Extractor) : option string :=
  match sitekey_from_network ext with
  | Some k => if Text.truthy k then Some k else None
  | None => None
  end.

(** A loop that returns the first validated extraction. *)
Fixpoint first_valid (requests : list NetworkData) : option string :=
  match requests with
  | [] => None
  | req :: rest =>
      Re.orelse (checked (_extract_sitekey_from_network_data req)) (first_valid rest)
  end.

Definition tagged_request (req : NetworkData) : bool := is_turnstile_url (url req).

(** [get_sitekey]: [arrivals] are the events of the wait of [wait_time]
    milliseconds. *)
Definition get_sitekey (ext : Extractor) (arrivals : list NetworkEvent)
  : option string * Extractor :=
  match cached ext with
  | Some k => (Some k, ext)
  | None =>
      let buffered :=
        match captured_requests ext with
        | [] => None
        | _ :: _ =>
            let turnstile_requests := List.filter tagged_request (captured_requests ext) in
            let other_requests :=
              List.filter (fun r => negb (tagged_request r)) (captured_requests ext) in
            Re.orelse (first_valid turnstile_requests) (first_valid other_requests)
        end in
      match buffered with
      | Some k => (Some k, set_sitekey ext k)
      | None =>
          let ext := deliver (setup_network_monitoring ext) arrivals in
          match cached ext with
          | Some k => (Some k, ext)
          | None =>
              let final :=
                match captured_requests ext with
                | [] => None
                | _ :: _ =>
                    let turnstile_requests :=
                      List.filter tagged_request (captured_requests ext) in
                    let other_requests :=
                      List.filter
                        (fun r => negb (bool_decide (r ∈ turnstile_requests)))
                        (captured_requests ext) in
                    first_valid (turnstile_requests ++ other_requests)
                end in
              match final with
              | Some k => (Some k, set_sitekey ext k)
              | None => (None, ext)
              end
          end
      end
  end.

(** The states an extractor object goes through: it is created, its
    monitoring is set up, its handlers receive events, and [get_sitekey]
    is called on it. *)
Inductive reachable : Extractor -> Prop :=
| reach_new : reachable new_extractor
| reach_setup (ext : Extractor) :
    reachable ext -> reachable (setup_network_monitoring ext)
| reach_handle (ext : Extractor) (ev : NetworkEvent) :
    reachable ext -> reachable (handle ext ev)
| reach_get_sitekey (ext : Extractor) (arrivals : list NetworkEvent) :
    reachable ext -> reachable (get_sitekey ext arrivals).2.

(** The cache holds nothing or a validated key. *)
Definition cache_ok (ext : Extractor) : Prop :=
  forall k, sitekey_from_network ext = Some k -> _is_valid_turnstile_sitekey k = true.

(** ** Solver client ([solve_cloudflare_challenge])

    The environment, the browser page and the solving service are an
    oracle: each field answers one call of the source.  The calls made in
    the polling loop are indexed by the attempt they belong to. *)

Record World : Type := {
  TWOCAPTCHA_API_KEY : option string;        (* [os.getenv] *)
  TWOCAPTCHA_AVAILABLE : bool;
  page_url : result string;                  (* [page.url], [urlparse] *)
  browser_user_agent : result json;          (* [navigator.userAgent] *)
  createTask : json -> result json;          (* POST, status check, [.json()] *)
  getTaskResult : nat -> json -> result json;
  current_ua : nat -> result json;
  override_ua : nat -> json -> result unit;
  inject_token : nat -> json -> result json;
  settle : nat -> result unit;               (* [wait_for_timeout(4000)] *)
  page_after : nat -> Page;
  storage_state : nat -> result string;
}.

(** What the solver does to the outside, in order. *)
Inductive Effect : Type :=
| PostCreateTask (payload : json)
| Sleep (seconds : nat)
| PostGetTaskResult (payload : json)
| OverrideUserAgent (ua : json)
| InjectToken (token : json)
| SaveSession (domain : string).

Record Outside : Type := {
  files : gmap (list string) string;
  trace : list Effect;
}.

(** State and exceptions: the state survives a raised exception. *)
Definition Run (A : Type) : Type := Outside -> result A * Outside.

Definition unit_run {A : Type} (a : A) : Run A := fun o => (Ok a, o).

Definition bind_run {A B : Type} (m : Run A) (k : A -> Run B) : Run B :=
  fun o =>
    match m o with
    | (Ok a, o') => k a o'
    | (Raised e, o') => (Raised e, o')
    end.

Definition lift {A : Type} (r : result A) : Run A := fun o => (r, o).

Definition raise {A : Type} (e : exn) : Run A := lift (Raised e).

Definition emit (ev : Effect) : Run unit :=
  fun o => (Ok tt, {| files := files o; trace := trace o ++ [ev] |}).

Notation "x <~ m ;; k" := (bind_run m (fun x => k))
  (at level 100, m at next level, right associativity).

(** [if v and v not in [None, 'null', '']: task_payload[key] = v] *)
Definition optional_field (key : string) (v : json) : list (string * json) :=
  if Py.truthy v
     && negb (Py.eq v JNull || Py.eq v (JStr "null") || Py.eq v (JStr ""))
  then [(key, v)] else [].

Definition optional_fields (turnstile_params : json) : result (list (string * json)) :=
  if Py.truthy turnstile_params then
    action <- Py.get turnstile_params "action" JNull ;;
    c_data <- Py.get turnstile_params "cData" JNull ;;
    chl_page_data <- Py.get turnstile_params "chlPageData" JNull ;;
    Ok (optional_field "action" action ++ optional_field "data" c_data
        ++ optional_field "pagedata" chl_page_data)
  else Ok [].

Definition poll_interval : nat := 5.
Definition max_attempts : nat := 30.

Section Solver.

Variable w : World.
Variables (domain api_key : string) (task_id : json).

(** The branch [status == 'ready'] of one attempt: [true] when the
    function returns [True] from it, [false] when the loop goes on. *)
Definition deliver_solution (attempt : nat) (result_data : json) : Run bool :=
  solution <~ lift (Py.get result_data "solution" (JObj [])) ;;
  token <~ lift (Py.get solution "token" JNull) ;;
  if Py.truthy token then
    user_agent <~ lift (Py.get solution "userAgent" JNull) ;;
    _ <~ (if Py.truthy user_agent then
            ua <~ lift (current_ua w attempt) ;;
            if negb (Py.eq ua user_agent) then
              _ <~ emit (OverrideUserAgent user_agent) ;;
              lift (override_ua w attempt user_agent)
            else unit_run tt
          else unit_run tt) ;;
    _ <~ emit (InjectToken token) ;;
    injection_result <~ lift (inject_token w attempt token) ;;
    success <~ lift (Py.get injection_result "success" JNull) ;;
    if Py.truthy success then
      _ <~ lift (settle w attempt) ;;
      if is_session_valid (page_after w attempt) default_challenge_url_pattern then
        fun o =>
          let (_, fs) := save_cloudflare_session (storage_state w attempt) (files o) domain in
          (Ok true, {| files := fs; trace := trace o ++ [SaveSession domain] |})
      else unit_run false
    else unit_run false
  else unit_run false.

(** [for attempt in range(30): ...] followed by the timeout [raise]. *)
Fixpoint poll (attempts : list nat) : Run bool :=
  match attempts with
  | [] => raise (Exception "Timeout waiting for CAPTCHA solution")
  | attempt :: rest =>
      _ <~ emit (Sleep poll_interval) ;;
      let payload := JObj [("clientKey", JStr api_key); ("taskId", task_id)] in
      _ <~ emit (PostGetTaskResult payload) ;;
      result_data <~ lift (getTaskResult w attempt payload) ;;
      status <~ lift (Py.get result_data "status" JNull) ;;
      if Py.eq status (JStr "ready") then
        done <~ deliver_solution attempt result_data ;;
        if done then unit_run true else poll rest
      else if Py.eq status (JStr "processing") then poll rest
      else raise (Exception "2captcha error")
  end.

End Solver.

(** The body of the [try] block. *)
Definition solve_body (w : World) (domain sitekey api_key : string)
    (turnstile_params : json) : Run bool :=
  website_url <~ lift (page_url w) ;;
  user_agent <~ lift (browser_user_agent w) ;;
  extra <~ lift (optional_fields turnstile_params) ;;
  let task_payload :=
    JObj ([("type", JStr "TurnstileTaskProxyless");
           ("websiteURL", JStr website_url);
           ("websiteKey", JStr sitekey)]
          ++ (if Py.truthy user_agent then [("userAgent", user_agent)] else [])
          ++ extra) in
  let request_payload := JObj [("clientKey", JStr api_key); ("task", task_payload)] in
  _ <~ emit (PostCreateTask request_payload) ;;
  create_result <~ lift (createTask w request_payload) ;;
  error_id <~ lift (Py.get create_result "errorId" JNull) ;;
  if negb (Py.eq error_id (JInt 0)) then raise (Exception "2captcha createTask failed")
  else
    task_id <~ lift (Py.get create_result "taskId" JNull) ;;
    poll w domain api_key task_id (seq 0 max_attempts).

Definition solve_cloudflare_challenge (w : World) (o : Outside)
    (domain sitekey : string) (turnstile_params : json) : bool * Outside :=
  match TWOCAPTCHA_API_KEY w with
  | None => (false, o)
  | Some api_key =>
      if negb (Text.truthy api_key) || negb (TWOCAPTCHA_AVAILABLE w) then (false, o)
      else
        match solve_body w domain sitekey api_key turnstile_params o with
        | (Ok b, o') => (b, o')
        | (Raised _, o') => (false, o')
        end
  end.

(** *** Measures on the effects *)

Definition is_poll (ev : Effect) : bool :=
  match ev with PostGetTaskResult _ => true | _ => false end.

Definition is_contact (ev : Effect) : bool :=
  match ev with PostCreateTask _ | PostGetTaskResult _ => true | _ => false end.

Definition sleep_of (ev : Effect) : nat :=
  match ev with Sleep n => n | _ => 0 end.

(** How often the service was polled, how often it was contacted, and the
    time spent in [asyncio.sleep]. *)
Definition polls (o : Outside) : nat := List.length (List.filter is_poll (trace o)).

Definition contacts (o : Outside) : nat := List.length (List.filter is_contact (trace o)).

Definition slept (o : Outside) : nat := list_sum (map sleep_of (trace o)).

(** Every poll is answered, with status [processing]. *)
Definition always_processing (w : World) : Prop :=
  forall attempt payload,
  exists result_data,
    getTaskResult w attempt payload = Ok result_data
    /\ Py.get result_data "status" JNull = Ok (JStr "processing").

(** The effects of one attempt that ends in [continue]. *)
Definition round (api_key : string) (task_id : json) : list Effect :=
  [Sleep poll_interval;
   PostGetTaskResult (JObj [("clientKey", JStr api_key); ("taskId", task_id)])].

(** Effects that stay within the budget of the polling loop. *)
Definition within_budget (evs : list Effect) : Prop :=
  List.length (List.filter is_poll evs) <= max_attempts
  /\ list_sum (map sleep_of evs) <= poll_interval * max_attempts.

(** A run from [o] that ends in an exception, within the budget. *)
Definition fails_within_budget (o : Outside) (r : result bool * Outside) : Prop :=
  exists (e : exn) (evs : list Effect),
    r = (Raised e, {| files := files o; trace := trace o ++ evs |})
    /\ within_budget evs.

(** ** Session information ([get_session_info]) *)

Module Builtins.

(** [len(x)] for the values [json.load] can return. *)
Definition len (x : json) : result nat :=
  match x with
  | JArr items => Ok (List.length items)
  | JObj fields => Ok (List.length fields)
  | JStr s => Ok (String.length s)
  | _ => Raised TypeError
  end.

(** [next((c for c in items if f(c)), None)] *)
Fixpoint next (f : json -> result bool) (items : list json) : result (option json) :=
  match items with
  | [] => Ok None
  | c :: rest =>
      b <- f c ;;
      if b then Ok (Some c) else next f rest
  end.

End Builtins.

(** The dictionary [get_session_info] returns; key [cf_clearance_expires]
    is present only with the cookie. *)
Record SessionInfo : Type := {
  info_path : list string;
  info_exists : bool;
  cookie_count : nat;
  info_has_cf_clearance : bool;
  file_size : nat;
  modified : fval;
  cf_clearance_expires : option json;
}.

Section SessionInfoOf.

(** [stat] answers [session_path.stat()] with the size and the
    modification time of the file. *)
Variable json_load : string -> result json.
Variable stat : list string -> result (nat * fval).

Definition session_info_of (session_path : list string) (text : string)
  : result SessionInfo :=
  session_data <- json_load text ;;
  cookies <- Py.get session_data "cookies" (JArr []) ;;
  items <- Py.iter cookies ;;
  cf_cookie <- Builtins.next names_cf_clearance items ;;
  count <- Builtins.len cookies ;;
  size_stat <- stat session_path ;;
  time_stat <- stat session_path ;;
  expires <- match cf_cookie with
             | Some c =>
                 if Py.truthy c then
                   e <- Py.get c "expires" (JStr "session") ;; Ok (Some e)
                 else Ok None
             | None => Ok None
             end ;;
  Ok {| info_path := session_path;
        info_exists := true;
        cookie_count := count;
        info_has_cf_clearance := match cf_cookie with Some _ => true | None => false end;
        file_size := size_stat.1;
        modified := time_stat.2;
        cf_clearance_expires := expires |}.

Definition get_session_info (fs : gmap (list string) string) (domain : string)
  : option SessionInfo :=
  let session_path := get_session_path domain in
  match fs !! session_path with
  | None => None
  | Some text =>
      match session_info_of session_path text with
      | Ok info => Some info
      | Raised _ => None
      end
  end.

End SessionInfoOf.

(** A session as the browser writes it: an object whose [cookies] entry is
    a list of objects. *)
Definition is_object (c : json) : Prop := exists fields, c = JObj fields.

Definition well_formed_session (session_data : json) : Prop :=
  exists fields items,
    session_data = JObj fields
    /\ Py.assoc "cookies" fields = Some (JArr items)
    /\ Forall is_object items.

(** ** Parts of a text *)

(** [s'] is what is left of [s] after some prefix. *)
Definition suffix_of (s' s : string) : Prop := exists pre, s = pre +:+ s'.

(** [g in s], as a proposition. *)
Definition part_of (g s : string) : Prop := exists a b, s = a +:+ g +:+ b.

(** ** What the buffer of an extractor holds *)

(** A buffered entry is the dictionary of a request whose URL is watched. *)
Definition buffered_request (r : NetworkData) : Prop :=
  is_watched (url r) = true /\ status r = None /\ body r = None.

(** ** What a run of the solver may do to the outside *)

Definition is_create (ev : Effect) : bool :=
  match ev with PostCreateTask _ => true | _ => false end.

(** From [o] to [o']: effects are only added, among them at most [c] task
    submissions, [n] polls and [s] sleeps of the interval, and no file but
    the session file of [domain] is touched. *)
Definition grows (domain : string) (c n s : nat) (o o' : Outside) : Prop :=
  (exists evs,
     trace o' = trace o ++ evs
     /\ List.length (List.filter is_create evs) <= c
     /\ List.length (List.filter is_poll evs) <= n
     /\ list_sum (map sleep_of evs) <= poll_interval * s)
  /\ forall p, p <> get_session_path domain -> files o' !! p = files o !! p.

Definition bounded {A : Type} (domain : string) (c n s : nat) (m : Run A) : Prop :=
  forall o, grows domain c n s o (m o).2.

(** ** The steps of one solve *)

(** The request [createTask] is sent. *)
Definition request_payload (api_key website_url sitekey : string)
    (user_agent : json) (extra : list (string * json)) : json :=
  JObj [("clientKey", JStr api_key);
        ("task",
         JObj ([("type", JStr "TurnstileTaskProxyless");
                ("websiteURL", JStr website_url);
                ("websiteKey", JStr sitekey)]
               ++ (if Py.truthy user_agent then [("userAgent", user_agent)] else [])
               ++ extra))].

(** What has to be read before the request can be built. *)
Definition submitted (w : World) (sitekey api_key : string) (turnstile_params : json)
  : result json :=
  website_url <- page_url w ;;
  user_agent <- browser_user_agent w ;;
  extra <- optional_fields turnstile_params ;;
  Ok (request_payload api_key website_url sitekey user_agent extra).

(** The task id of a reply that acknowledges the task with [errorId] 0. *)
Definition acknowledgement (create_result : json) : result json :=
  error_id <- Py.get create_result "errorId" JNull ;;
  if negb (Py.eq error_id (JInt 0)) then Raised (Exception "2captcha createTask failed")
  else Py.get create_result "taskId" JNull.

(** The reply of the service to the task of a request. *)
Definition task_of (w : World) (request : json) : result json :=
  create_result <- createTask w request ;;
  acknowledgement create_result.

Definition poll_payload (api_key : string) (task_id : json) : json :=
  JObj [("clientKey", JStr api_key); ("taskId", task_id)].

(** Poll [attempt] is answered with [status]. *)
Definition poll_status (w : World) (api_key : string) (task_id : json)
    (attempt : nat) (status : json) : Prop :=
  exists result_data,
    getTaskResult w attempt (poll_payload api_key task_id) = Ok result_data
    /\ Py.get result_data "status" JNull = Ok status.

(** The page reports the recommended user agent, or takes it: nothing is
    recommended, or the page already reports it, or the override goes
    through. *)
Definition user_agent_settled (w : World) (attempt : nat) (user_agent : json) : Prop :=
  Py.truthy user_agent = false
  \/ exists ua,
       current_ua w attempt = Ok ua
       /\ (Py.eq ua user_agent = true \/ override_ua w attempt user_agent = Ok tt).

(** Poll [attempt] is answered with a solution whose token the page
    accepts: the callback takes the token, and the detector then finds the
    page valid. *)
Definition solution_accepted (w : World) (api_key : string) (task_id : json)
    (attempt : nat) (token : json) : Prop :=
  exists result_data solution user_agent injection_result success,
    getTaskResult w attempt (poll_payload api_key task_id) = Ok result_data
    /\ Py.get result_data "status" JNull = Ok (JStr "ready")
    /\ Py.get result_data "solution" (JObj []) = Ok solution
    /\ Py.get solution "token" JNull = Ok token
    /\ Py.truthy token = true
    /\ Py.get solution "userAgent" JNull = Ok user_agent
    /\ user_agent_settled w attempt user_agent
    /\ inject_token w attempt token = Ok injection_result
    /\ Py.get injection_result "success" JNull = Ok success
    /\ Py.truthy success = true
    /\ settle w attempt = Ok tt
    /\ is_session_valid (page_after w attempt) default_challenge_url_pattern = true.

(** The outside after the sleep and the poll of each of [attempts]. *)
Definition after_rounds (api_key : string) (task_id : json) (o : Outside)
    (attempts : list nat) : Outside :=
  {| files := files o;
     trace := trace o ++ List.flat_map (fun _ => round api_key task_id) attempts |}.

(** The solver is enabled with credential [api_key]. *)
Definition enabled (w : World) (api_key : string) : Prop :=
  TWOCAPTCHA_API_KEY w = Some api_key
  /\ Text.truthy api_key = true
  /\ TWOCAPTCHA_AVAILABLE w = true.

(** The three optional parameters and the keys they are sent under. *)
Definition optional_keys : list (string * string) :=
  [("action", "action"); ("cData", "data"); ("chlPageData", "pagedata")].

(** ** Callers: [check_and_solve_cloudflare] ([scrapers.py])

    The page is an oracle as before; the wait inside [get_sitekey] is taken
    to pass, as in its model.  [events_before] is what the handlers receive
    between the set-up of the monitoring and the call of [get_sitekey],
    [events_during] what they receive during its wait. *)

Record CheckWorld : Type := {
  page_on_entry : Page;
  page_netloc : result string;             (* [urlparse(page.url).netloc] *)
  existing_params : result json;           (* [window.turnstileParams] *)
  install_interceptor : result unit;
  first_wait : result unit;                (* [wait_for_timeout(5000)] *)
  trigger_render : result unit;
  second_wait : result unit;               (* [wait_for_timeout(3000)] *)
  events_before : list NetworkEvent;
  events_during : list NetworkEvent;
  late_params : result json;               (* [window.turnstileParams], again *)
  solver : World;
  load_state : result unit;                (* [wait_for_load_state("networkidle")] *)
  page_after_solve : Page;
}.

(** How the first [if] leaves the local variables: [sitekey] and
    [turnstile_params] bound from the parameters already captured,
    [existing_params] false so that the monitoring runs, or neither. *)
Inductive Captured : Type :=
| Known (sitekey : string) (turnstile_params : json)
| Monitor
| Unbound.

(** [extractor._is_valid_turnstile_sitekey(v)] on a value read from the
    page, with the value as a [str] when the answer is [True]: a false value
    is refused at once, [len] raises on a number, and [lower] is missing on
    a list or a dictionary of a length within the bounds. *)
Definition valid_value (v : json) : result (option string) :=
  if negb (Py.truthy v) then Ok None
  else
    match v with
    | JStr s => Ok (if _is_valid_turnstile_sitekey s then Some s else None)
    | JArr items =>
        let n := List.length items in
        if (n <? 22) || (35 <? n) then Ok None else Raised AttributeError
    | JObj fields =>
        let n := List.length fields in
        if (n <? 22) || (35 <? n) then Ok None else Raised AttributeError
    | JNull => Ok None
    | JBool _ | JInt _ | JFloat _ => Raised TypeError
    end.

Definition captured_of (existing : json) : result Captured :=
  if Py.truthy existing then
    existing_sitekey <- Py.get existing "sitekey" JNull ;;
    if Py.truthy existing_sitekey then
      checked_key <- valid_value existing_sitekey ;;
      match checked_key with
      | Some sitekey => Ok (Known sitekey existing)
      | None => Ok Monitor
      end
    else Ok Unbound
  else Ok Monitor.

(** The branch that watches the network: the sitekey found, if any, and
    the parameters read afterwards. *)
Definition monitored (cw : CheckWorld) : result (option string * json) :=
  _ <- install_interceptor cw ;;
  _ <- first_wait cw ;;
  _ <- trigger_render cw ;;
  _ <- second_wait cw ;;
  let extractor :=
    deliver (setup_network_monitoring new_extractor) (events_before cw) in
  let sitekey := (get_sitekey extractor (events_during cw)).1 in
  turnstile_params <- late_params cw ;;
  Ok (sitekey, turnstile_params).

(** The local variables before [if not sitekey]: [None] is an unbound
    [sitekey], whose use raises. *)
Definition locals (cw : CheckWorld) : result (option string * json) :=
  existing <- existing_params cw ;;
  captured <- captured_of existing ;;
  match captured with
  | Known sitekey turnstile_params => Ok (Some sitekey, turnstile_params)
  | Monitor => monitored cw
  | Unbound => Raised (Exception "UnboundLocalError")
  end.

Definition check_and_solve_cloudflare (cw : CheckWorld) (o : Outside) : bool * Outside :=
  if is_session_valid (page_on_entry cw) default_challenge_url_pattern then (true, o)
  else
    match (domain <- page_netloc cw ;; found <- locals cw ;; Ok (domain, found)) with
    | Raised _ => (false, o)
    | Ok (domain, (sitekey, turnstile_params)) =>
        match sitekey with
        | None => (false, o)
        | Some k =>
            if negb (Text.truthy k) then (false, o)
            else
              let (success, o') :=
                solve_cloudflare_challenge (solver cw) o domain k turnstile_params in
              if success then
                match load_state cw with
                | Raised _ => (false, o')
                | Ok _ =>
                    (is_session_valid (page_after_solve cw) default_challenge_url_pattern, o')
                end
              else (false, o')
        end
    end.

(** ** Callers: [get_bypassed_page] ([cloudflareSolver.py])

    Consecutive calls into the browser that return nothing and leave no
    trace here are answered by one oracle field each. *)

Record BypassWorld (BrowserContext : Type) : Type := {
  launch : result unit;                    (* [async_playwright().start()], [launch] *)
  target_netloc : result string;           (* [urlparse(target_url).netloc] *)
  session_json_load : string -> result json;
  browser_new_context : string -> result BrowserContext;
  saved_page_opens : result unit;          (* [new_page], [goto], load state *)
  saved_page : Page;
  close_context : result unit;
  fresh_page_opens : result unit;          (* [new_context()], [new_page] *)
  fresh_navigation : result unit;          (* [goto], load state, interceptor, wait *)
  traffic_before : list NetworkEvent;
  traffic_during : list NetworkEvent;
  captured_params : result json;
  solver_world : World;
}.
Arguments launch {BrowserContext} _.
Arguments target_netloc {BrowserContext} _.
Arguments session_json_load {BrowserContext} _ _.
Arguments browser_new_context {BrowserContext} _ _.
Arguments saved_page_opens {BrowserContext} _.
Arguments saved_page {BrowserContext} _.
Arguments close_context {BrowserContext} _.
Arguments fresh_page_opens {BrowserContext} _.
Arguments fresh_navigation {BrowserContext} _.
Arguments traffic_before {BrowserContext} _.
Arguments traffic_during {BrowserContext} _.
Arguments captured_params {BrowserContext} _.
Arguments solver_world {BrowserContext} _.

(** The context of the tuple returned: the one made of the session file,
    or a new one. *)
Inductive ContextUsed (BrowserContext : Type) : Type :=
| Saved (context : BrowserContext)
| Fresh.
Arguments Saved {BrowserContext} context.
Arguments Fresh {BrowserContext}.

Section Bypass.

Context {BrowserContext : Type}.
Variable bw : BypassWorld BrowserContext.

(** [if not context: ...] *)
Definition fresh_session (domain : string) (o : Outside)
  : result (ContextUsed BrowserContext) * Outside :=
  match (_ <- fresh_page_opens bw ;;
         _ <- fresh_navigation bw ;;
         let extractor :=
           deliver (setup_network_monitoring new_extractor) (traffic_before bw) in
         let sitekey := (get_sitekey extractor (traffic_during bw)).1 in
         turnstile_params <- captured_params bw ;;
         Ok (sitekey, turnstile_params)) with
  | Raised e => (Raised e, o)
  | Ok (sitekey, turnstile_params) =>
      match sitekey with
      | Some k =>
          if Text.truthy k then
            (Ok Fresh, (solve_cloudflare_challenge (solver_world bw) o domain k
                          turnstile_params).2)
          else (Ok Fresh, o)
      | None => (Ok Fresh, o)
      end
  end.

Definition get_bypassed_page (o : Outside)
  : result (ContextUsed BrowserContext) * Outside :=
  match (_ <- launch bw ;; target_netloc bw) with
  | Raised e => (Raised e, o)
  | Ok domain =>
      let (context, fs) :=
        load_cloudflare_session (session_json_load bw) (browser_new_context bw)
          (files o) domain in
      let o1 := {| files := fs; trace := trace o |} in
      match context with
      | Some ctx =>
          match saved_page_opens bw with
          | Raised e => (Raised e, o1)
          | Ok _ =>
              if is_session_valid (saved_page bw) default_challenge_url_pattern
              then (Ok (Saved ctx), o1)
              else
                match close_context bw with
                | Raised e => (Raised e, o1)
                | Ok _ => fresh_session domain o1
                end
          end
      | None => fresh_session domain o1
      end
  end.

End Bypass.

(** The outside after [get_bypassed_page] looked at the session file of
    the target. *)
Definition after_load {BrowserContext : Type} (bw : BypassWorld BrowserContext)
    (o : Outside) : Outside :=
  match target_netloc bw with
  | Ok domain =>
      {| files := (load_cloudflare_session (session_json_load bw)
                     (browser_new_context bw) (files o) domain).2;
         trace := trace o |}
  | Raised _ => o
  end.

(** ** What the handlers remember

    [event_key] is the value of [sitekey] in [handle_request] and
    [handle_response]: the key extracted from [request_info] or
    [response_info]; an event whose URL is not watched gives none. *)
Definition event_key (ev : NetworkEvent) : option string :=
  match ev with
  | Request u m hs payload =>
      if is_watched u then
        _extract_sitekey_from_network_data
          {| url := u; method := Some m; status := None; headers := hs;
             post_data := payload; body := None |}
      else None
  | Response u code hs text =>
      if is_watched u then
        _extract_sitekey_from_network_data
          {| url := u; method := None; status := Some code; headers := hs;
             post_data := None;
             body := match text with
                     | Ok t => if Text.truthy t then Some (Text.take 1000 t) else None
                     | Raised _ => None
                     end |}
      else None
  end.

(** The key remembered once the handlers have run on [evs], from [k]: the
    key of the last event that gives one, and [k] when none does. *)
Definition latest_key (evs : list NetworkEvent) (k : option string) : option string :=
  fold_left (fun acc ev => match event_key ev with Some k' => Some k' | None => acc end)
    evs k.

(** With nothing remembered, no buffered request gives a key. *)
Definition buffer_seen (ext : Extractor) : Prop :=
  cached ext = None ->
  Forall (fun r => _extract_sitekey_from_network_data r = None) (captured_requests ext).

(** ** Sample data

    Session files used in the examples, with [json.load] on them: a session
    without the clearance cookie, a session with it, and texts that are not
    JSON (here, every other text). *)

Module Sample.

Definition q (s : string) : string :=
  String (ascii_of_nat 34) s +:+ String (ascii_of_nat 34) EmptyString.

Definition corrupt_text : string := "{cookies: [".

Definition anonymous_text : string :=
  "{" +:+ q "cookies" +:+ ": [{" +:+ q "name" +:+ ": " +:+ q "session_id" +:+ "}], "
      +:+ q "origins" +:+ ": []}".

Definition anonymous_session : json :=
  JObj [("cookies", JArr [JObj [("name", JStr "session_id")]]);
        ("origins", JArr [])].

Definition cleared_text : string :=
  "{" +:+ q "cookies" +:+ ": [{" +:+ q "name" +:+ ": " +:+ q "cf_clearance" +:+ "}], "
      +:+ q "origins" +:+ ": []}".

Definition cleared_session : json :=
  JObj [("cookies", JArr [JObj [("name", JStr "cf_clearance")]]);
        ("origins", JArr [])].

Definition json_load (text : string) : result json :=
  if String.eqb text anonymous_text then Ok anonymous_session
  else if String.eqb text cleared_text then Ok cleared_session
  else Raised JSONDecodeError.

(** A text of 3000 opening brackets: no JSON document, and nested deeper
    than the recursion limit of the parser. *)
Definition nested_text : string := Text.repeat "[" 3000.

(** [json.load] as above, with the answer of the parser on [nested_text]. *)
Definition deep_json_load (text : string) : result json :=
  if String.eqb text nested_text then Raised RecursionError else json_load text.

(** A browser whose contexts are the storage states they were made of. *)
Definition new_context (text : string) : result string := Ok text.

Definition domain : string := "example.test".

Definition store_with (text : string) : gmap (list string) string :=
  {[ get_session_path domain := text ]}.

(** A page away from the challenge host whose markup cannot be read. *)
Definition unreadable_page : Page :=
  {| url_before := Ok "https://example.test/search";
     wait_for_timeout := Ok tt;
     content := Raised PageError;
     inner_text := Ok (JStr "Business search");
     url_after := Ok "https://example.test/search" |}.

(** A page whose URL cannot be read. *)
Definition closed_page : Page :=
  {| url_before := Raised PageError;
     wait_for_timeout := Raised PageError;
     content := Raised PageError;
     inner_text := Raised PageError;
     url_after := Raised PageError |}.

(** A settled page of the target site. *)
Definition plain_page : Page :=
  {| url_before := Ok "https://example.test/search";
     wait_for_timeout := Ok tt;
     content := Ok "<html><body>Business search</body></html>";
     inner_text := Ok (JStr "Business search");
     url_after := Ok "https://example.test/search" |}.

Definition nothing_done : Outside := {| files := ∅; trace := [] |}.

(** A service that accepts every task and never finishes it. *)
Definition slow_world : World :=
  {| TWOCAPTCHA_API_KEY := Some "k3y";
     TWOCAPTCHA_AVAILABLE := true;
     page_url := Ok "https://example.test/search";
     browser_user_agent := Ok (JStr "Mozilla/5.0");
     createTask := fun _ => Ok (JObj [("errorId", JInt 0); ("taskId", JInt 7)]);
     getTaskResult := fun _ _ => Ok (JObj [("errorId", JInt 0); ("status", JStr "processing")]);
     current_ua := fun _ => Ok (JStr "Mozilla/5.0");
     override_ua := fun _ _ => Ok tt;
     inject_token := fun _ _ => Ok (JObj [("success", JBool true)]);
     settle := fun _ => Ok tt;
     page_after := fun _ => plain_page;
     storage_state := fun _ => Ok cleared_text |}.

(** The same world without the credential in the environment. *)
Definition keyless_world : World :=
  {| TWOCAPTCHA_API_KEY := None;
     TWOCAPTCHA_AVAILABLE := true;
     page_url := page_url slow_world;
     browser_user_agent := browser_user_agent slow_world;
     createTask := createTask slow_world;
     getTaskResult := getTaskResult slow_world;
     current_ua := current_ua slow_world;
     override_ua := override_ua slow_world;
     inject_token := inject_token slow_world;
     settle := settle slow_world;
     page_after := page_after slow_world;
     storage_state := storage_state slow_world |}.

Definition turnstile_url : string :=
  "https://challenges.cloudflare.com/cdn-cgi/challenge-platform/h/g/turnstile/f/ov2/av0/rch/4z2pa/0x4AAAAAAADnPIDROrmt1Wwj/light/fbE/new/normal?lang=auto".

Definition arrivals : list NetworkEvent :=
  [ Request "https://example.test/search" "GET" [] None;
    Request turnstile_url "GET" [("accept", "*/*")] None ].

(** A URL with an overlong segment before the segment of the key, and
    another key in the query. *)
Definition other_sitekey : string := "0x4BBBBBBBBBBBBBBBBBBBBBBB".

Definition overlong_segment : string := "0x" +:+ Text.repeat "A" 40.

Definition crowded_prefix : string :=
  "https://challenges.cloudflare.com/turnstile/v0/" +:+ overlong_segment.

Definition crowded_url : string :=
  crowded_prefix +:+ "/" +:+ known_sitekey +:+ "/" +:+ "api.js?sitekey=" +:+ other_sitekey.

(** A URL with the key in a segment and another key in the query. *)
Definition two_key_prefix : string :=
  "https://challenges.cloudflare.com/cdn-cgi/challenge-platform/h/g/turnstile/f/ov2/av0/rch/4z2pa".

Definition two_key_url : string :=
  two_key_prefix +:+ "/" +:+ known_sitekey +:+ "/" +:+ "light/normal?sitekey=" +:+ other_sitekey.

(** The modification time and the size of every file of the examples. *)
Definition stat (p : list string) : result (nat * fval) := Ok (96, Finite 1700000000 0).

(** A page that shows the challenge. *)
Definition challenge_page : Page :=
  {| url_before := Ok "https://example.test/search";
     wait_for_timeout := Ok tt;
     content := Ok "<html><head><title>Just a moment...</title></head></html>";
     inner_text := Ok (JStr "Verifying you are human");
     url_after := Ok "https://example.test/search" |}.

(** Two buffered requests: one to the challenge host with the other key in
    a header, and the tagged one with the known key in its path. *)
Definition header_request : NetworkData :=
  {| url := "https://challenges.cloudflare.com/cdn-cgi/rum";
     method := Some "POST"; status := None;
     headers := [("x-sitekey", other_sitekey)];
     post_data := None; body := None |}.

(** A watched request that carries no key, one that carries a key in a
    header, and a wait in which nothing carries a key. *)
Definition quiet_request : NetworkEvent :=
  Request "https://challenges.cloudflare.com/cdn-cgi/rum" "POST" [] None.

Definition keyed_request : NetworkEvent :=
  Request "https://challenges.cloudflare.com/cdn-cgi/rum" "POST"
    [("x-sitekey", other_sitekey)] None.

Definition quiet_arrivals : list NetworkEvent :=
  [ Request "https://example.test/search" "GET" [] None;
    Response "https://challenges.cloudflare.com/turnstile/v0/api.js" 200
      [("content-type", "text/javascript")] (Ok "window.turnstile = {};") ].

(** Worlds that differ from [slow_world] in the answers of the service. *)
Definition world_with (create : json -> result json)
    (answer : nat -> json -> result json) : World :=
  {| TWOCAPTCHA_API_KEY := TWOCAPTCHA_API_KEY slow_world;
     TWOCAPTCHA_AVAILABLE := true;
     page_url := page_url slow_world;
     browser_user_agent := browser_user_agent slow_world;
     createTask := create;
     getTaskResult := answer;
     current_ua := current_ua slow_world;
     override_ua := override_ua slow_world;
     inject_token := inject_token slow_world;
     settle := settle slow_world;
     page_after := page_after slow_world;
     storage_state := storage_state slow_world |}.

Definition processing_reply : json :=
  JObj [("errorId", JInt 0); ("status", JStr "processing")].

Definition error_reply : json :=
  JObj [("errorId", JInt 12); ("errorCode", JStr "ERROR_CAPTCHA_UNSOLVABLE")].

Definition ready_reply : json :=
  JObj [("errorId", JInt 0); ("status", JStr "ready");
        ("solution", JObj [("token", JStr "tok_123")])].

(** The task is refused. *)
Definition rejecting_world : World :=
  world_with
    (fun _ => Ok (JObj [("errorId", JInt 1); ("errorCode", JStr "ERROR_KEY_DOES_NOT_EXIST")]))
    (getTaskResult slow_world).

(** The third poll reports an error. *)
Definition failing_world : World :=
  world_with (createTask slow_world)
    (fun attempt _ => if attempt <? 2 then Ok processing_reply else Ok error_reply).

(** The second poll brings the token. *)
Definition solving_world : World :=
  world_with (createTask slow_world)
    (fun attempt _ => if attempt <? 1 then Ok processing_reply else Ok ready_reply).

(** The request of the examples. *)
Definition request : json :=
  request_payload "k3y" "https://example.test/search" known_sitekey (JStr "Mozilla/5.0") [].

(** Parameters captured from the widget: a usable action and two unusable
    entries. *)
Definition widget_params : json :=
  JObj [("sitekey", JStr known_sitekey); ("action", JStr "managed");
        ("cData", JNull); ("chlPageData", JStr "null")].

(** Runs of [check_and_solve_cloudflare]: a valid page, a challenge with
    the key already captured in the page, and a challenge whose captured
    parameters have no sitekey. *)
Definition check_world (entry : Page) (existing : json) : CheckWorld :=
  {| page_on_entry := entry;
     page_netloc := Ok domain;
     existing_params := Ok existing;
     install_interceptor := Ok tt;
     first_wait := Ok tt;
     trigger_render := Ok tt;
     second_wait := Ok tt;
     events_before := arrivals;
     events_during := [];
     late_params := Ok JNull;
     solver := slow_world;
     load_state := Ok tt;
     page_after_solve := plain_page |}.

Definition check_plain : CheckWorld := check_world plain_page JNull.
Definition check_known : CheckWorld := check_world challenge_page widget_params.
Definition check_keyless : CheckWorld :=
  check_world challenge_page (JObj [("action", JStr "managed")]).

(** A run of [get_bypassed_page] that finds a saved session. *)
Definition bypass_saved : BypassWorld string :=
  {| launch := Ok tt;
     target_netloc := Ok domain;
     session_json_load := json_load;
     browser_new_context := new_context;
     saved_page_opens := Ok tt;
     saved_page := plain_page;
     close_context := Ok tt;
     fresh_page_opens := Ok tt;
     fresh_navigation := Ok tt;
     traffic_before := arrivals;
     traffic_during := [];
     captured_params := Ok JNull;
     solver_world := slow_world |}.

Definition saved_outside : Outside :=
  {| files := store_with cleared_text; trace := [] |}.

End Sample.

(** * Verification *)

(** ** Facts about the text primitives *)

Section TextFacts.
Import Text.

Lemma lower_char_zero (a : ascii) :
  Ascii.eqb "0" (lower_char a) = true -> a = "0"%char.
Proof.
  destruct a as [[] [] [] [] [] [] [] []]; vm_compute; intros H;
    first [discriminate H | reflexivity].
Qed.

Lemma lower_char_x (a : ascii) :
  Ascii.eqb "x" (lower_char a) = true -> a = "x"%char \/ a = "X"%char.
Proof.
  destruct a as [[] [] [] [] [] [] [] []]; vm_compute; intros H;
    first [discriminate H | left; reflexivity | right; reflexivity].
Qed.

Lemma startswith_lower_0x (s : string) :
  startswith (lower s) "0x" = true <->
  exists x rest, s = String "0" (String x rest) /\ (x = "x"%char \/ x = "X"%char).
Proof.
  split.
  - destruct s as [|a [|b r]]; cbn [startswith lower].
    + discriminate.
    + destruct (Ascii.eqb "0" (lower_char a)); discriminate.
    + destruct (Ascii.eqb "0" (lower_char a)) eqn:Ea; [|discriminate].
      destruct (Ascii.eqb "x" (lower_char b)) eqn:Eb; [|discriminate].
      intros _. apply lower_char_zero in Ea. apply lower_char_x in Eb.
      subst a. exists b, r. split; [reflexivity | exact Eb].
  - intros (x & rest & -> & [-> | ->]); vm_compute; reflexivity.
Qed.

Lemma length_repeat (c : ascii) (n : nat) : String.length (repeat c n) = n.
Proof. induction n as [|n IH]; simpl; [reflexivity | unfold repeat in IH; rewrite IH; reflexivity]. Qed.

Lemma all_repeat (p : ascii -> bool) (c : ascii) (n : nat) :
  p c = true -> all p (repeat c n) = true.
Proof.
  intros Hc. induction n as [|n IH]; simpl; [reflexivity |].
  rewrite Hc. exact IH.
Qed.

End TextFacts.

(** ** The validator and the rule of the data model *)

Lemma ascii_alnum_isalnum (c : ascii) :
  Text.is_ascii_alnum c = true -> Text.isalnum c = true.
Proof. intros H. unfold Text.isalnum. now rewrite H. Qed.

(** On ASCII characters [str.isalnum] is the class [[0-9A-Za-z]]. *)
Lemma isalnum_ascii (c : ascii) :
  Text.code c < 128 -> Text.isalnum c = Text.is_ascii_alnum c.
Proof.
  destruct c as [[] [] [] [] [] [] [] []]; vm_compute; intros H;
    first [reflexivity | lia].
Qed.

Lemma all_weaken (p q : ascii -> bool) (s : string) :
  (forall c, p c = true -> q c = true) ->
  Text.all p s = true -> Text.all q s = true.
Proof.
  intros Hpq. induction s as [|c r IH]; cbn [Text.all]; [reflexivity|].
  intros H. apply andb_true_iff in H as [Hc Hr].
  now rewrite (Hpq c Hc), (IH Hr).
Qed.

Lemma sitekey_rule_weaken (p q : ascii -> bool) (lo hi hi' : nat) (s : string) :
  (forall c, p c = true -> q c = true) -> hi <= hi' ->
  sitekey_rule p lo hi s -> sitekey_rule q lo hi' s.
Proof.
  intros Hpq Hhi [Hlen (x & rest & Hs & Hx & Ha)].
  split; [lia|]. exists x, rest. repeat split; [exact Hs | exact Hx |].
  exact (all_weaken p q rest Hpq Ha).
Qed.

(** What the code decides: bounds 22 and 30 and [str.isalnum]. *)
Lemma validator_sound (s : string) :
  _is_valid_turnstile_sitekey s = true -> sitekey_rule Text.isalnum 22 30 s.
Proof.
  unfold _is_valid_turnstile_sitekey.
  destruct (negb (Text.truthy s) || (String.length s <? 22) || (35 <? String.length s));
    [discriminate |].
  destruct (Text.startswith (Text.lower s) "0x") eqn:Hp; cbn [negb]; [|discriminate].
  destruct ((22 <=? String.length s) && (String.length s <=? 30)) eqn:Hl; [|discriminate].
  destruct (Text.all Text.isalnum (Text.drop 2 s)) eqn:Ha; [|discriminate].
  intros _. apply andb_true_iff in Hl as [H1 H2].
  apply Nat.leb_le in H1. apply Nat.leb_le in H2.
  apply startswith_lower_0x in Hp as (x & rest & -> & Hx).
  split; [lia |]. exists x, rest. simpl in Ha. auto.
Qed.

Lemma validator_complete (s : string) :
  sitekey_rule Text.isalnum 22 30 s -> _is_valid_turnstile_sitekey s = true.
Proof.
  intros [[H1 H2] (x & rest & -> & Hx & Ha)].
  unfold _is_valid_turnstile_sitekey.
  assert (Hp : Text.startswith (Text.lower (String "0" (String x rest))) "0x" = true).
  { apply startswith_lower_0x. eauto. }
  rewrite Hp.
  replace (String.length (String "0" (String x rest)) <? 22) with false
    by (symmetry; apply Nat.ltb_ge; lia).
  replace (35 <? String.length (String "0" (String x rest))) with false
    by (symmetry; apply Nat.ltb_ge; lia).
  replace (22 <=? String.length (String "0" (String x rest))) with true
    by (symmetry; apply Nat.leb_le; lia).
  replace (String.length (String "0" (String x rest)) <=? 30) with true
    by (symmetry; apply Nat.leb_le; lia).
  simpl. rewrite Ha. reflexivity.
Qed.

Lemma validator_length (s : string) :
  _is_valid_turnstile_sitekey s = true -> 22 <= String.length s <= 30.
Proof. intros H. apply validator_sound in H. apply H. Qed.

Lemma validator_truthy (s : string) :
  _is_valid_turnstile_sitekey s = true -> Text.truthy s = true.
Proof.
  intros H. apply validator_length in H. destruct s; simpl in *; [lia | reflexivity].
Qed.

Lemma validator_rejects (s : string) :
  String.length s < 22 \/ 30 < String.length s
  \/ Text.startswith (Text.lower s) "0x" = false
  \/ Text.all Text.isalnum (Text.drop 2 s) = false ->
  _is_valid_turnstile_sitekey s = false.
Proof.
  intros H. destruct (_is_valid_turnstile_sitekey s) eqn:Hv; [|reflexivity].
  exfalso. apply validator_sound in Hv as [Hlen (x & rest & -> & Hx & Ha)].
  destruct H as [H | [H | [H | H]]].
  - lia.
  - lia.
  - assert (Hp : Text.startswith (Text.lower (String "0" (String x rest))) "0x" = true)
      by (apply startswith_lower_0x; eauto).
    congruence.
  - cbn [Text.drop] in H. congruence.
Qed.

(** The two readings of alphanumeric differ on the code: a key whose
    characters after the prefix are the fraction sign of code point 188 is
    accepted, and it does not meet the rule read with [[0-9A-Za-z]]. *)
Lemma validator_accepts_fraction_sign :
  _is_valid_turnstile_sitekey fraction_sitekey = true
  /\ ~ sitekey_rule Text.is_ascii_alnum 22 30 fraction_sitekey.
Proof.
  split; [reflexivity|].
  intros [_ (x & rest & Hs & _ & Ha)].
  vm_compute in Hs. injection Hs as _ Hr. subst rest. discriminate Ha.
Qed.

(** C1, as stated, fails on the code: a key of 35 characters meets the rule
    with the bounds 22 and 35 of the claim, under either reading of
    alphanumeric, and the validator rejects it. *)
Lemma C1_bounds_22_35_refuted :
  String.length long_sitekey = 35
  /\ sitekey_rule Text.is_ascii_alnum 22 35 long_sitekey
  /\ sitekey_rule Text.isalnum 22 35 long_sitekey
  /\ _is_valid_turnstile_sitekey long_sitekey = false.
Proof.
  assert (H : sitekey_rule Text.is_ascii_alnum 22 35 long_sitekey).
  { split; [vm_compute; lia |].
    exists "x"%char, (Text.repeat "A" 33).
    split; [reflexivity |]. split; [now left | reflexivity]. }
  split; [reflexivity|]. split; [exact H|]. split; [|reflexivity].
  exact (sitekey_rule_weaken _ _ 22 35 35 _ ascii_alnum_isalnum (le_n 35) H).
Qed.

(** C1, amended: the validator accepts every string whose length is between
    22 and 30 inclusive, that starts with 0x up to case and whose characters
    after the prefix are all in [[0-9A-Za-z]], among them the known key
    0x4AAAAAAADnPIDROrmt1Wwj. Every string it accepts has a length between
    22 and 32, starts with 0x up to case and has after the prefix only
    characters for which [str.isalnum] holds, which on ASCII characters is
    the class [[0-9A-Za-z]]; so it rejects strings shorter than 22 or longer
    than 32, strings without the prefix, and strings with a character after
    the prefix for which [str.isalnum] fails. What it does with keys of 31
    or 32 characters and with alphanumeric characters outside ASCII is not
    part of the statement. *)
Theorem C1_validator_decides_rule :
  (forall s : string,
     sitekey_rule Text.is_ascii_alnum 22 30 s -> _is_valid_turnstile_sitekey s = true)
  /\ _is_valid_turnstile_sitekey known_sitekey = true
  /\ (forall s : string,
        _is_valid_turnstile_sitekey s = true -> sitekey_rule Text.isalnum 22 32 s)
  /\ (forall c : ascii, Text.code c < 128 -> Text.isalnum c = Text.is_ascii_alnum c)
  /\ (forall s : string,
        String.length s < 22 \/ 32 < String.length s
        \/ Text.startswith (Text.lower s) "0x" = false
        \/ Text.all Text.isalnum (Text.drop 2 s) = false ->
        _is_valid_turnstile_sitekey s = false).
Proof.
  split; [|split; [reflexivity|split; [|split; [exact isalnum_ascii|]]]].
  - intros s H. apply validator_complete.
    exact (sitekey_rule_weaken _ _ 22 30 30 s ascii_alnum_isalnum (le_n 30) H).
  - intros s H. apply validator_sound in H.
    refine (sitekey_rule_weaken _ _ 22 30 32 s (fun c Hc => Hc) _ H). lia.
  - intros s H. apply validator_rejects.
    destruct H as [H | [H | [H | H]]]; [left; exact H | right; left; lia | auto | auto].
Qed.

(** ** Session store *)

Section PathFacts.
Import Text.

Lemma length_app (a b : string) :
  String.length (a +:+ b) = String.length a + String.length b.
Proof. induction a as [|c a IH]; simpl; [reflexivity | now rewrite IH]. Qed.

Lemma app_inv_tail (a b t : string) : a +:+ t = b +:+ t -> a = b.
Proof.
  revert b. induction a as [|c a IH]; intros [|d b] H.
  - reflexivity.
  - apply (f_equal String.length) in H. rewrite !length_app in H. simpl in H. lia.
  - apply (f_equal String.length) in H. rewrite !length_app in H. simpl in H. lia.
  - cbn [String.append] in H. injection H as -> H. f_equal. now apply IH.
Qed.

Lemma lacks_app (c : ascii) (a b : string) :
  lacks c (a +:+ b) = lacks c a && lacks c b.
Proof.
  unfold lacks. induction a as [|x a IH]; simpl; [reflexivity |].
  rewrite IH. now rewrite andb_assoc.
Qed.

Lemma lacks_replace_char (c a b : ascii) (s : string) :
  b <> c -> lacks c s = true -> lacks c (replace_char a b s) = true.
Proof.
  intros Hb. unfold lacks. induction s as [|x s IH]; simpl; [reflexivity |].
  intros H. apply andb_true_iff in H as [Hx Hs].
  rewrite (IH Hs), andb_true_r.
  destruct (Ascii.eqb x a); [|exact Hx].
  apply negb_true_iff. now apply Ascii.eqb_neq.
Qed.

Lemma replace_char_inj (a b : ascii) (s t : string) :
  lacks b s = true -> lacks b t = true ->
  replace_char a b s = replace_char a b t -> s = t.
Proof.
  unfold lacks. revert t. induction s as [|x s IH]; intros [|y t]; simpl;
    try discriminate; [reflexivity |].
  intros Hs Ht H.
  apply andb_true_iff in Hs as [Hx Hs]. apply andb_true_iff in Ht as [Hy Ht].
  apply negb_true_iff, Ascii.eqb_neq in Hx. apply negb_true_iff, Ascii.eqb_neq in Hy.
  injection H as Hc H. f_equal; [|now apply IH].
  destruct (Ascii.eqb x a) eqn:Ex, (Ascii.eqb y a) eqn:Ey.
  - apply Ascii.eqb_eq in Ex, Ey. congruence.
  - congruence.
  - congruence.
  - exact Hc.
Qed.

Lemma split_slash_lacks (s : string) :
  lacks "/" s = true -> Path.split_slash s = [s].
Proof.
  unfold lacks. induction s as [|x s IH]; simpl; [reflexivity |].
  intros H. apply andb_true_iff in H as [Hx Hs].
  apply negb_true_iff in Hx. rewrite Hx, (IH Hs). reflexivity.
Qed.

Lemma session_path_simple (domain : string) :
  lacks "/" domain = true ->
  get_session_path domain
  = [".sessions"; "cloudflare_" +:+ replace_char "." "_" domain +:+ ".json"].
Proof.
  intros H. unfold get_session_path, Path.join, Path.parts.
  rewrite split_slash_lacks.
  - reflexivity.
  - rewrite !lacks_app, lacks_replace_char by (discriminate || assumption).
    reflexivity.
Qed.

End PathFacts.

(** C3, as stated, fails on the code: a dot and an underscore at the same
    place give the same session file. *)
Lemma C3_collision :
  "my.site.test" <> "my_site.test"
  /\ get_session_path "my.site.test" = get_session_path "my_site.test".
Proof. split; [discriminate | reflexivity]. Qed.

(** Repeated separators collapse in a path, which also merges names. *)
Example session_path_slashes :
  get_session_path "a//b" = get_session_path "a/b".
Proof. reflexivity. Qed.

(** C3, amended: two distinct domain names that contain neither an
    underscore nor a slash have distinct session file paths. *)
Theorem C3_session_path_injective (d1 d2 : string) :
  Text.lacks "_" d1 = true -> Text.lacks "_" d2 = true ->
  Text.lacks "/" d1 = true -> Text.lacks "/" d2 = true ->
  d1 <> d2 ->
  get_session_path d1 <> get_session_path d2.
Proof.
  intros U1 U2 S1 S2 Hne Heq. apply Hne.
  rewrite !session_path_simple in Heq by assumption.
  injection Heq as Heq.
  change (Text.replace_char "." "_" d1 +:+ ".json"
          = Text.replace_char "." "_" d2 +:+ ".json") in Heq.
  apply app_inv_tail in Heq. now apply (replace_char_inj "." "_").
Qed.

Lemma C3_session_path_injective_witness :
  get_session_path "example.test" <> get_session_path "example.org".
Proof.
  apply (C3_session_path_injective "example.test" "example.org");
    first [reflexivity | discriminate].
Defined.

Section SessionFacts.

Context {BrowserContext : Type}.
Variable json_load : string -> result json.
Variable new_context : string -> result BrowserContext.

Lemma load_corrupt (fs : gmap (list string) string) (domain text : string) :
  fs !! get_session_path domain = Some text ->
  json_load text = Raised JSONDecodeError ->
  load_cloudflare_session json_load new_context fs domain
  = (None, delete (get_session_path domain) fs).
Proof.
  intros Hf Hj. unfold load_cloudflare_session. now rewrite Hf, Hj.
Qed.

(** Any other exception of the read leaves the file in place. *)
Lemma load_other_exception (fs : gmap (list string) string) (domain text : string) (e : exn) :
  fs !! get_session_path domain = Some text ->
  json_load text = Raised e -> e <> JSONDecodeError ->
  load_cloudflare_session json_load new_context fs domain = (None, fs).
Proof.
  intros Hf Hj He. unfold load_cloudflare_session. rewrite Hf, Hj.
  destruct e; congruence.
Qed.

Lemma load_keeps_or_removes (fs : gmap (list string) string) (domain : string) :
  let r := load_cloudflare_session json_load new_context fs domain in
  r.2 = fs \/ (r.1 = None /\ r.2 = delete (get_session_path domain) fs).
Proof.
  unfold load_cloudflare_session.
  destruct (fs !! get_session_path domain) as [text|]; [|now left].
  destruct (json_load text) as [data|[]]; try (now left); [|now right].
  destruct (has_cf_clearance data) as [[]|]; try (now left).
  destruct (new_context text); now left.
Qed.

End SessionFacts.

Lemma names_cf_clearance_true (c : json) :
  names_cf_clearance c = Ok true -> is_cf_clearance_cookie c.
Proof.
  unfold names_cf_clearance, Py.get.
  destruct c as [| | | | |?|fields]; try discriminate.
  cbn [rbind]. intros H. exists fields. split; [reflexivity|].
  destruct (Py.assoc "name" fields) as [[| | | |s| |]|]; try discriminate.
  cbn [Py.eq_str] in H. injection H as H. apply String.eqb_eq in H. now subst s.
Qed.

Lemma any_true_elem (f : json -> result bool) (items : list json) :
  Py.any f items = Ok true -> exists c, c ∈ items /\ f c = Ok true.
Proof.
  induction items as [|c rest IH]; cbn [Py.any]; [discriminate|].
  destruct (f c) as [[]|] eqn:Hc; cbn [rbind]; try discriminate.
  - intros _. exists c. split; [left | exact Hc].
  - intros H. destruct (IH H) as (c' & Hin & Hc'). exists c'. split; [now right | exact Hc'].
Qed.

Lemma has_cf_clearance_true (data : json) :
  has_cf_clearance data = Ok true ->
  exists c, c ∈ cookie_list data /\ is_cf_clearance_cookie c.
Proof.
  unfold has_cf_clearance, cookie_list.
  destruct (Py.get data "cookies" (JArr [])) as [cookies|]; [|discriminate].
  cbn [rbind]. destruct (Py.iter cookies) as [items|]; [|discriminate].
  cbn [rbind]. intros H. apply any_true_elem in H as (c & Hin & Hc).
  exists c. split; [exact Hin | now apply names_cf_clearance_true].
Qed.

(** C6, as stated, fails on the code: the session file of the domain
    exists and holds 3000 opening brackets, which do not parse as JSON;
    the parser gives up with [RecursionError], which the handler of
    [JSONDecodeError] does not catch, and [load_cloudflare_session] returns
    [None] with the file still in the storage. *)
Lemma C6_unparsed_session_kept :
  let fs := Sample.store_with Sample.nested_text in
  let r := load_cloudflare_session Sample.deep_json_load Sample.new_context
             fs Sample.domain in
  fs !! get_session_path Sample.domain = Some Sample.nested_text
  /\ Sample.deep_json_load Sample.nested_text = Raised RecursionError
  /\ r.1 = None
  /\ r.2 !! get_session_path Sample.domain = Some Sample.nested_text.
Proof.
  assert (Hf : Sample.store_with Sample.nested_text !! get_session_path Sample.domain
               = Some Sample.nested_text) by apply lookup_singleton_eq.
  assert (Hj : Sample.deep_json_load Sample.nested_text = Raised RecursionError).
  { unfold Sample.deep_json_load. now rewrite String.eqb_refl. }
  cbv zeta.
  rewrite (load_other_exception Sample.deep_json_load Sample.new_context
             _ Sample.domain _ _ Hf Hj) by discriminate.
  cbn [fst snd]. auto.
Qed.

(** C6, amended: when the session file of a domain exists and [json.load]
    raises [JSONDecodeError] on it, [load_cloudflare_session] returns
    [None], the file is gone from the storage and every other file is as
    before. *)
Theorem C6_corrupt_session_deleted {BrowserContext : Type}
    (json_load : string -> result json)
    (new_context : string -> result BrowserContext)
    (fs : gmap (list string) string) (domain text : string) :
  fs !! get_session_path domain = Some text ->
  json_load text = Raised JSONDecodeError ->
  let r := load_cloudflare_session json_load new_context fs domain in
  r.1 = None
  /\ r.2 !! get_session_path domain = None
  /\ forall p, p <> get_session_path domain -> r.2 !! p = fs !! p.
Proof.
  intros Hf Hj r. subst r. rewrite (load_corrupt _ _ _ _ _ Hf Hj). cbn [fst snd].
  split; [reflexivity|]. split; [apply lookup_delete_eq|].
  intros p Hp. now apply lookup_delete_ne.
Qed.

Lemma C6_corrupt_session_deleted_witness :
  let r := load_cloudflare_session Sample.json_load Sample.new_context
             (Sample.store_with Sample.corrupt_text) Sample.domain in
  r.1 = None
  /\ r.2 !! get_session_path Sample.domain = None
  /\ forall p, p <> get_session_path Sample.domain ->
               r.2 !! p = Sample.store_with Sample.corrupt_text !! p.
Proof.
  apply (C6_corrupt_session_deleted Sample.json_load Sample.new_context
           (Sample.store_with Sample.corrupt_text) Sample.domain Sample.corrupt_text).
  - apply lookup_singleton_eq.
  - reflexivity.
Defined.

(** C7: when the session file of a domain parses and its cookie list has
    no cookie named [cf_clearance], [load_cloudflare_session] returns
    [None] and the storage is unchanged. *)
Theorem C7_incomplete_session_kept {BrowserContext : Type}
    (json_load : string -> result json)
    (new_context : string -> result BrowserContext)
    (fs : gmap (list string) string) (domain text : string) (session_data : json) :
  fs !! get_session_path domain = Some text ->
  json_load text = Ok session_data ->
  (forall c, c ∈ cookie_list session_data -> ~ is_cf_clearance_cookie c) ->
  load_cloudflare_session json_load new_context fs domain = (None, fs).
Proof.
  intros Hf Hj Hno. unfold load_cloudflare_session. rewrite Hf, Hj.
  destruct (has_cf_clearance session_data) as [[]|] eqn:Hc; try reflexivity.
  apply has_cf_clearance_true in Hc as (c & Hin & Hcf).
  exfalso. exact (Hno c Hin Hcf).
Qed.

Lemma C7_incomplete_session_kept_witness :
  load_cloudflare_session Sample.json_load Sample.new_context
    (Sample.store_with Sample.anonymous_text) Sample.domain
  = (None, Sample.store_with Sample.anonymous_text).
Proof.
  apply (C7_incomplete_session_kept Sample.json_load Sample.new_context
           (Sample.store_with Sample.anonymous_text) Sample.domain
           Sample.anonymous_text Sample.anonymous_session).
  - apply lookup_singleton_eq.
  - reflexivity.
  - intros c Hin (fields & -> & Hname).
    apply list_elem_of_In in Hin. cbn in Hin.
    destruct Hin as [Hin | []]. injection Hin as <-. discriminate Hname.
Defined.

(** C10: [clear_session] returns [False] when the domain has no session
    file, leaving the storage as it is; when it returns [True] the file
    existed and has been removed. *)
Theorem C10_clear_session (fs : gmap (list string) string) (domain : string) :
  (fs !! get_session_path domain = None -> clear_session fs domain = (false, fs))
  /\ ((clear_session fs domain).1 = true ->
      is_Some (fs !! get_session_path domain)
      /\ (clear_session fs domain).2 = delete (get_session_path domain) fs
      /\ (clear_session fs domain).2 !! get_session_path domain = None).
Proof.
  unfold clear_session. split.
  - intros ->. reflexivity.
  - destruct (fs !! get_session_path domain) as [text|] eqn:Hf; cbn [fst snd].
    + intros _. split; [eauto|]. split; [reflexivity | apply lookup_delete_eq].
    + discriminate.
Qed.

Lemma C10_clear_session_witness :
  clear_session ∅ Sample.domain = (false, ∅)
  /\ is_Some (Sample.store_with Sample.cleared_text !! get_session_path Sample.domain).
Proof.
  split.
  - apply (C10_clear_session ∅ Sample.domain). apply lookup_empty.
  - apply (C10_clear_session (Sample.store_with Sample.cleared_text) Sample.domain).
    unfold clear_session, Sample.store_with. now rewrite lookup_singleton_eq.
Defined.

(** ** Challenge detector *)

(** The inspection of the content raises exactly when one of its four
    steps does. *)
Lemma indicator_found_raised (page : Page) :
  raised (indicator_found page)
  = raised (wait_for_timeout page) || raised (content page)
    || raised (inner_text page)
    || match inner_text page with Ok x => raised (lower_method x) | Raised _ => false end.
Proof.
  unfold indicator_found.
  destruct (wait_for_timeout page) as [[]|]; cbn [rbind raised orb]; [|reflexivity].
  destruct (content page); cbn [rbind raised orb]; [|reflexivity].
  destruct (inner_text page) as [x|]; cbn [rbind raised orb]; [|reflexivity].
  destruct (lower_method x); reflexivity.
Qed.

(** C2, as stated, fails on the code: the markup of this page cannot be
    read, and the detector reports the session valid. *)
Lemma C2_unreadable_content_valid :
  raised (content Sample.unreadable_page) = true
  /\ is_session_valid Sample.unreadable_page default_challenge_url_pattern = true.
Proof. split; reflexivity. Qed.

(** C2, amended: a fault while reading the page URL, on entry or after the
    settle delay, makes [is_session_valid] return [False]; a fault while
    waiting or while reading the markup or the text is swallowed, and the
    answer is that of the check of the URL read after the delay. *)
Theorem C2_faults (page : Page) (challenge_url_pattern : string) :
  (raised (url_before page) = true ->
   is_session_valid page challenge_url_pattern = false)
  /\ (raised (url_after page) = true ->
      is_session_valid page challenge_url_pattern = false)
  /\ (forall current_url,
        url_before page = Ok current_url ->
        Text.contains challenge_url_pattern current_url = false ->
        raised (indicator_found page) = true ->
        is_session_valid page challenge_url_pattern
        = final_url_check page challenge_url_pattern).
Proof.
  unfold is_session_valid. repeat split.
  - destruct (url_before page); [discriminate | reflexivity].
  - intros Hr. unfold final_url_check.
    destruct (url_after page); [discriminate|].
    destruct (url_before page) as [u|]; [|reflexivity].
    destruct (Text.contains challenge_url_pattern u); [reflexivity|].
    destruct (indicator_found page) as [[]|]; reflexivity.
  - intros u -> -> Hr.
    destruct (indicator_found page) as [[]|]; try discriminate. reflexivity.
Qed.

Lemma C2_faults_witness :
  is_session_valid Sample.closed_page default_challenge_url_pattern = false
  /\ is_session_valid Sample.unreadable_page default_challenge_url_pattern
     = final_url_check Sample.unreadable_page default_challenge_url_pattern.
Proof.
  split.
  - apply (C2_faults Sample.closed_page default_challenge_url_pattern). reflexivity.
  - apply (C2_faults Sample.unreadable_page default_challenge_url_pattern)
      with (current_url := "https://example.test/search"); reflexivity.
Defined.

(** ** Solver client *)

Lemma polls_app (o : Outside) (fs : gmap (list string) string) (evs : list Effect) :
  polls {| files := fs; trace := trace o ++ evs |}
  = polls o + List.length (List.filter is_poll evs).
Proof. unfold polls. cbn [trace]. now rewrite List.filter_app, List.length_app. Qed.

Lemma slept_app (o : Outside) (fs : gmap (list string) string) (evs : list Effect) :
  slept {| files := fs; trace := trace o ++ evs |}
  = slept o + list_sum (map sleep_of evs).
Proof. unfold slept. cbn [trace]. now rewrite List.map_app, list_sum_app. Qed.

Section PollFacts.

Variable w : World.
Variables (domain api_key : string) (task_id : json).

Lemma poll_always_processing (attempts : list nat) (o : Outside) :
  always_processing w ->
  poll w domain api_key task_id attempts o
  = (Raised (Exception "Timeout waiting for CAPTCHA solution"),
     {| files := files o;
        trace := trace o ++ List.flat_map (fun _ => round api_key task_id) attempts |}).
Proof.
  intros Hp. revert o. induction attempts as [|attempt rest IH]; intros o.
  - cbn [poll List.flat_map]. unfold raise, lift. rewrite app_nil_r.
    destruct o; reflexivity.
  - cbn [poll]. unfold bind_run at 1. cbn [emit].
    unfold bind_run at 1. cbn [emit].
    destruct (Hp attempt (JObj [("clientKey", JStr api_key); ("taskId", task_id)]))
      as (data & Hd & Hs).
    unfold bind_run at 1. unfold lift at 1. rewrite Hd.
    unfold bind_run at 1. unfold lift at 1. rewrite Hs.
    change (Py.eq (JStr "processing") (JStr "ready")) with false.
    change (Py.eq (JStr "processing") (JStr "processing")) with true.
    cbv iota. rewrite IH. cbn [files trace List.flat_map].
    unfold round. now rewrite <- !app_assoc.
Qed.

Lemma round_polls (attempts : list nat) :
  List.length (List.filter is_poll (List.flat_map (fun _ => round api_key task_id) attempts))
  = List.length attempts.
Proof. induction attempts as [|a r IH]; cbn; [reflexivity | now rewrite IH]. Qed.

Lemma round_slept (attempts : list nat) :
  list_sum (map sleep_of
              (List.flat_map (fun _ => round api_key task_id) attempts))
  = poll_interval * List.length attempts.
Proof.
  induction attempts as [|a r IH]; cbn [List.flat_map List.length]; [cbn; lia|].
  unfold round at 1. cbn [app map sleep_of].
  change (list_sum ?l) with (foldr Init.Nat.add 0 l) in *. cbn [foldr].
  rewrite IH. unfold poll_interval. lia.
Qed.

End PollFacts.

Lemma polls_same (o : Outside) (fs : gmap (list string) string) :
  polls {| files := fs; trace := trace o |} = polls o.
Proof. reflexivity. Qed.

Lemma fails_at_once (o : Outside) (e : exn) :
  fails_within_budget o (Raised e, o).
Proof.
  exists e, []. rewrite app_nil_r. destruct o. split; [reflexivity|].
  split; cbn; lia.
Qed.

Lemma fails_after_create (o : Outside) (e : exn) (request : json) :
  fails_within_budget o
    (Raised e, {| files := files o; trace := trace o ++ [PostCreateTask request] |}).
Proof.
  exists e, [PostCreateTask request]. split; [reflexivity|]. split; cbn; lia.
Qed.

Lemma fails_after_polls (o : Outside) (e : exn) (request : json)
    (api_key : string) (task_id : json) (attempts : list nat) :
  List.length attempts = max_attempts ->
  fails_within_budget o
    (Raised e,
     {| files := files o;
        trace := (trace o ++ [PostCreateTask request])
                 ++ List.flat_map (fun _ => round api_key task_id) attempts |}).
Proof.
  intros Hlen.
  exists e, ([PostCreateTask request] ++ List.flat_map (fun _ => round api_key task_id) attempts).
  split; [now rewrite app_assoc|]. unfold within_budget.
  rewrite List.filter_app, List.length_app, List.map_app, list_sum_app.
  rewrite round_polls, round_slept, Hlen. cbn. split; lia.
Qed.

Lemma solve_body_always_processing (w : World) (domain sitekey api_key : string)
    (turnstile_params : json) (o : Outside) :
  always_processing w ->
  fails_within_budget o (solve_body w domain sitekey api_key turnstile_params o).
Proof.
  intros Hp. unfold solve_body.
  generalize (length_seq max_attempts 0).
  generalize (seq 0 max_attempts). intros attempts Hlen.
  unfold bind_run at 1. unfold lift at 1.
  destruct (page_url w) as [website_url|]; [|apply fails_at_once].
  unfold bind_run at 1. unfold lift at 1.
  destruct (browser_user_agent w) as [user_agent|]; [|apply fails_at_once].
  unfold bind_run at 1. unfold lift at 1.
  destruct (optional_fields turnstile_params) as [extra|]; [|apply fails_at_once].
  unfold bind_run at 1. cbn [emit].
  match goal with |- context [PostCreateTask ?r] => generalize r; intros request end.
  unfold bind_run at 1. unfold lift at 1.
  destruct (createTask w request) as [create_result|]; [|apply fails_after_create].
  unfold bind_run at 1. unfold lift at 1.
  destruct (Py.get create_result "errorId" JNull) as [error_id|];
    [|apply fails_after_create].
  destruct (negb (Py.eq error_id (JInt 0))); [apply fails_after_create|].
  unfold bind_run at 1. unfold lift at 1.
  destruct (Py.get create_result "taskId" JNull) as [task_id|];
    [|apply fails_after_create].
  rewrite (poll_always_processing w domain api_key task_id _ _ Hp). cbn [files trace].
  now apply fails_after_polls.
Qed.

(** C5: when every poll is answered with status [processing], the solve
    call returns [False]; it has polled at most 30 times and slept at most
    30 times 5 time units. *)
Theorem C5_solve_times_out (w : World) (o : Outside) (domain sitekey : string)
    (turnstile_params : json) :
  always_processing w ->
  let r := solve_cloudflare_challenge w o domain sitekey turnstile_params in
  r.1 = false
  /\ polls r.2 <= polls o + max_attempts
  /\ slept r.2 <= slept o + poll_interval * max_attempts.
Proof.
  intros Hp r. subst r. unfold solve_cloudflare_challenge.
  destruct (TWOCAPTCHA_API_KEY w) as [api_key|]; [|cbn; repeat split; lia].
  destruct (negb (Text.truthy api_key) || negb (TWOCAPTCHA_AVAILABLE w));
    [cbn; repeat split; lia|].
  destruct (solve_body_always_processing w domain sitekey api_key turnstile_params o Hp)
    as (e & evs & -> & Hpolls & Hslept).
  cbn [fst snd]. rewrite polls_app, slept_app. split; [reflexivity|]. split; lia.
Qed.

(** With the credential present and the task accepted, the budget is used
    up exactly. *)
Example slow_world_times_out :
  let r := solve_cloudflare_challenge Sample.slow_world Sample.nothing_done
             Sample.domain known_sitekey JNull in
  r.1 = false /\ polls r.2 = 30 /\ slept r.2 = 150 /\ contacts r.2 = 31.
Proof. vm_compute. repeat split. Qed.

Lemma C5_solve_times_out_witness :
  let r := solve_cloudflare_challenge Sample.slow_world Sample.nothing_done
             Sample.domain known_sitekey JNull in
  r.1 = false
  /\ polls r.2 <= polls Sample.nothing_done + max_attempts
  /\ slept r.2 <= slept Sample.nothing_done + poll_interval * max_attempts.
Proof.
  apply (C5_solve_times_out Sample.slow_world Sample.nothing_done
           Sample.domain known_sitekey JNull).
  intros attempt payload. eexists. split; reflexivity.
Defined.

(** C8: without the credential in the environment the solve call returns
    [False] and has no effect: nothing is sent to the service and no file
    is written. *)
Theorem C8_no_credential (w : World) (o : Outside) (domain sitekey : string)
    (turnstile_params : json) :
  TWOCAPTCHA_API_KEY w = None ->
  solve_cloudflare_challenge w o domain sitekey turnstile_params = (false, o)
  /\ contacts (solve_cloudflare_challenge w o domain sitekey turnstile_params).2
     = contacts o.
Proof.
  intros Hk. unfold solve_cloudflare_challenge. rewrite Hk. split; reflexivity.
Qed.

(** An empty credential is treated like a missing one. *)
Lemma solve_empty_credential (w : World) (o : Outside) (domain sitekey : string)
    (turnstile_params : json) :
  TWOCAPTCHA_API_KEY w = Some "" ->
  solve_cloudflare_challenge w o domain sitekey turnstile_params = (false, o).
Proof. intros Hk. unfold solve_cloudflare_challenge. now rewrite Hk. Qed.

Lemma C8_no_credential_witness :
  solve_cloudflare_challenge Sample.keyless_world Sample.nothing_done
    Sample.domain known_sitekey JNull = (false, Sample.nothing_done)
  /\ contacts (solve_cloudflare_challenge Sample.keyless_world Sample.nothing_done
                 Sample.domain known_sitekey JNull).2
     = contacts Sample.nothing_done.
Proof.
  apply (C8_no_credential Sample.keyless_world Sample.nothing_done
           Sample.domain known_sitekey JNull).
  reflexivity.
Defined.

(** ** Sitekey extractor: only validated keys leave it *)

Lemma orelse_some {R : Type} (a b : option R) (x : R) :
  Re.orelse a b = Some x -> a = Some x \/ b = Some x.
Proof. destruct a; cbn; [left | right]; assumption. Qed.

Lemma validated_valid (m : option Re.Match) (pick : Re.Match -> string) (k : string) :
  validated m pick = Some k -> _is_valid_turnstile_sitekey k = true.
Proof.
  unfold validated. destruct m as [found|]; [|discriminate].
  destruct (_is_valid_turnstile_sitekey (pick found)) eqn:Hv; [|discriminate].
  intros [= <-]. exact Hv.
Qed.

Lemma checked_valid (o : option string) (k : string) :
  checked o = Some k -> _is_valid_turnstile_sitekey k = true.
Proof.
  unfold checked. destruct o as [c|]; [|discriminate].
  destruct (Text.truthy c); cbn [andb]; [|discriminate].
  destruct (_is_valid_turnstile_sitekey c) eqn:Hv; [|discriminate].
  intros [= <-]. exact Hv.
Qed.

Lemma extract_url_valid (u k : string) :
  _extract_sitekey_from_url u = Some k -> _is_valid_turnstile_sitekey k = true.
Proof.
  unfold _extract_sitekey_from_url.
  destruct (negb (Text.truthy u)); [discriminate|].
  destruct (negb (Text.contains "turnstile" (Text.lower u))); [discriminate|].
  intros H.
  apply orelse_some in H as [H | H]; [now apply validated_valid in H|].
  apply orelse_some in H as [H | H]; now apply validated_valid in H.
Qed.

Lemma scan_text_valid (text : option string) (tagged : bool) (k : string) :
  scan_text text tagged = Some k -> _is_valid_turnstile_sitekey k = true.
Proof.
  unfold scan_text. destruct text as [t|]; [|discriminate].
  destruct (Text.truthy t && tagged); [|discriminate].
  intros H. apply orelse_some in H as [H | H]; now apply validated_valid in H.
Qed.

Lemma scan_headers_valid (items : list (string * string)) (k : string) :
  scan_headers items = Some k -> _is_valid_turnstile_sitekey k = true.
Proof.
  induction items as [|[key value] rest IH]; cbn [scan_headers]; [discriminate|].
  intros H. apply orelse_some in H as [H | H].
  - destruct (Text.contains "sitekey" (Text.lower key)); [|discriminate].
    destruct (_is_valid_turnstile_sitekey value) eqn:Hv; [|discriminate].
    injection H as <-. exact Hv.
  - apply orelse_some in H as [H | H]; [now apply validated_valid in H | now apply IH].
Qed.

Lemma extract_network_data_valid (data : NetworkData) (k : string) :
  _extract_sitekey_from_network_data data = Some k ->
  _is_valid_turnstile_sitekey k = true.
Proof.
  unfold _extract_sitekey_from_network_data. intros H.
  apply orelse_some in H as [H | H].
  { destruct (_ && _); [now apply checked_valid in H | discriminate]. }
  apply orelse_some in H as [H | H]; [now apply checked_valid in H|].
  apply orelse_some in H as [H | H]; [now apply scan_text_valid in H|].
  apply orelse_some in H as [H | H]; [now apply scan_text_valid in H|].
  now apply scan_headers_valid in H.
Qed.

Lemma first_valid_valid (requests : list NetworkData) (k : string) :
  first_valid requests = Some k -> _is_valid_turnstile_sitekey k = true.
Proof.
  induction requests as [|req rest IH]; cbn [first_valid]; [discriminate|].
  intros H. apply orelse_some in H as [H | H];
    [now apply checked_valid in H | now apply IH].
Qed.

Lemma cached_valid (ext : Extractor) (k : string) :
  cache_ok ext -> cached ext = Some k -> _is_valid_turnstile_sitekey k = true.
Proof.
  unfold cached. intros Hok.
  destruct (sitekey_from_network ext) as [c|] eqn:Hc; [|discriminate].
  destruct (Text.truthy c); [|discriminate].
  intros [= <-]. now apply Hok.
Qed.

Lemma set_sitekey_ok (ext : Extractor) (k : string) :
  _is_valid_turnstile_sitekey k = true -> cache_ok (set_sitekey ext k).
Proof. intros Hv c. cbn. intros [= <-]. exact Hv. Qed.

Lemma remember_ok (ext : Extractor) (sitekey : option string) :
  cache_ok ext ->
  (forall k, sitekey = Some k -> _is_valid_turnstile_sitekey k = true) ->
  cache_ok (remember ext sitekey).
Proof.
  intros Hok Hv. unfold remember. destruct sitekey as [k|]; [|exact Hok].
  destruct (Text.truthy k); [|exact Hok]. apply set_sitekey_ok. now apply Hv.
Qed.

Lemma handle_ok (ext : Extractor) (ev : NetworkEvent) :
  cache_ok ext -> cache_ok (handle ext ev).
Proof.
  intros Hok. destruct ev as [u m hs payload | u code hs text]; cbn [handle].
  - unfold handle_request. destruct (is_watched u); [|exact Hok].
    apply remember_ok; [exact Hok | apply extract_network_data_valid].
  - unfold handle_response. destruct (is_watched u); [|exact Hok].
    apply remember_ok; [exact Hok | apply extract_network_data_valid].
Qed.

Lemma deliver_ok (arrivals : list NetworkEvent) (ext : Extractor) :
  cache_ok ext -> cache_ok (deliver ext arrivals).
Proof.
  unfold deliver. revert ext.
  induction arrivals as [|ev rest IH]; intros ext Hok; cbn [fold_left]; [exact Hok|].
  apply IH. now apply handle_ok.
Qed.

Lemma setup_ok (ext : Extractor) :
  cache_ok ext -> cache_ok (setup_network_monitoring ext).
Proof.
  intros Hok. unfold setup_network_monitoring.
  destruct (monitoring_setup ext); exact Hok.
Qed.

(** One call of [get_sitekey] from a state with a sound cache: the value
    returned is validated and the cache stays sound. *)
Lemma get_sitekey_ok (ext : Extractor) (arrivals : list NetworkEvent) :
  cache_ok ext ->
  (forall k, (get_sitekey ext arrivals).1 = Some k -> _is_valid_turnstile_sitekey k = true)
  /\ cache_ok (get_sitekey ext arrivals).2.
Proof.
  intros Hok. unfold get_sitekey.
  destruct (cached ext) as [c|] eqn:Hc.
  { cbn [fst snd]. split; [|exact Hok]. intros k [= <-]. exact (cached_valid _ _ Hok Hc). }
  match goal with |- context [match ?b with Some _ => _ | None => _ end] =>
    destruct b as [c|] eqn:Hb end.
  { assert (Hv : _is_valid_turnstile_sitekey c = true).
    { destruct (captured_requests ext); [discriminate|].
      apply orelse_some in Hb as [Hb | Hb]; now apply first_valid_valid in Hb. }
    cbn [fst snd]. split; [intros k [= <-]; exact Hv | now apply set_sitekey_ok]. }
  set (ext' := deliver (setup_network_monitoring ext) arrivals).
  assert (Hok' : cache_ok ext') by (apply deliver_ok, setup_ok, Hok).
  destruct (cached ext') as [c|] eqn:Hc'.
  { cbn [fst snd]. split; [|exact Hok']. intros k [= <-]. exact (cached_valid _ _ Hok' Hc'). }
  match goal with |- context [match ?b with Some _ => _ | None => _ end] =>
    destruct b as [c|] eqn:Hf end.
  - assert (Hv : _is_valid_turnstile_sitekey c = true).
    { destruct (captured_requests ext'); [discriminate|].
      now apply first_valid_valid in Hf. }
    cbn [fst snd]. split; [intros k [= <-]; exact Hv | now apply set_sitekey_ok].
  - cbn [fst snd]. split; [discriminate | exact Hok'].
Qed.

Lemma reachable_cache_ok (ext : Extractor) : reachable ext -> cache_ok ext.
Proof.
  induction 1 as [| ext _ IH | ext ev _ IH | ext arrivals _ IH].
  - intros k. discriminate.
  - now apply setup_ok.
  - now apply handle_ok.
  - now apply get_sitekey_ok.
Qed.

(** C9: on every state an extractor object can reach, and whatever events
    arrive during the wait, a value returned by [get_sitekey] other than
    [None] passes [_is_valid_turnstile_sitekey]. *)
Theorem C9_get_sitekey_validated (ext : Extractor) (arrivals : list NetworkEvent)
    (k : string) :
  reachable ext ->
  (get_sitekey ext arrivals).1 = Some k ->
  _is_valid_turnstile_sitekey k = true.
Proof.
  intros Hr. apply get_sitekey_ok. now apply reachable_cache_ok.
Qed.

Lemma C9_get_sitekey_validated_witness :
  (get_sitekey new_extractor Sample.arrivals).1 = Some known_sitekey
  /\ _is_valid_turnstile_sitekey known_sitekey = true.
Proof.
  assert (H : (get_sitekey new_extractor Sample.arrivals).1 = Some known_sitekey)
    by (vm_compute; reflexivity).
  split; [exact H|].
  exact (C9_get_sitekey_validated new_extractor Sample.arrivals known_sitekey reach_new H).
Defined.

(** ** Extraction precedence in a URL *)

Section SliceFacts.
Import Text.

Lemma app_cons (c : ascii) (a b : string) : String c a +:+ b = String c (a +:+ b).
Proof. reflexivity. Qed.

Lemma app_empty (b : string) : EmptyString +:+ b = b.
Proof. reflexivity. Qed.

Lemma take_drop (n : nat) (s : string) : take n s +:+ drop n s = s.
Proof.
  revert s. induction n as [|n IH]; intros [|c s]; cbn [take drop];
    rewrite ?app_cons, ?app_empty; try reflexivity.
  now rewrite IH.
Qed.

Lemma length_take (n : nat) (s : string) :
  n <= String.length s -> String.length (take n s) = n.
Proof.
  revert s. induction n as [|n IH]; intros [|c s]; cbn [take String.length];
    intros H; try lia.
  rewrite IH; lia.
Qed.

Lemma length_drop (n : nat) (s : string) :
  String.length (drop n s) = String.length s - n.
Proof.
  revert s. induction n as [|n IH]; intros [|c s]; cbn [drop String.length];
    try lia. apply IH.
Qed.

Lemma take_app_length (a b : string) : take (String.length a) (a +:+ b) = a.
Proof.
  induction a as [|c a IH]; cbn [String.length]; rewrite ?app_cons, ?app_empty;
    cbn [take]; [reflexivity | now rewrite IH].
Qed.

Lemma drop_app_length (a b : string) : drop (String.length a) (a +:+ b) = b.
Proof.
  induction a as [|c a IH]; cbn [String.length]; rewrite ?app_cons, ?app_empty;
    cbn [drop]; [reflexivity | exact IH].
Qed.

Lemma span_len_le (p : ascii -> bool) (s : string) :
  span_len p s <= String.length s.
Proof.
  induction s as [|c s IH]; cbn [span_len String.length]; [lia|].
  destruct (p c); lia.
Qed.

Lemma all_take_span (p : ascii -> bool) (s : string) :
  all p (take (span_len p s) s) = true.
Proof.
  induction s as [|c s IH]; cbn [span_len]; [reflexivity|].
  destruct (p c) eqn:Hc; cbn [take all]; [now rewrite Hc, IH | reflexivity].
Qed.

(** A run of [p] that is followed by a character outside [p] is maximal. *)
Lemma span_len_app (p : ascii -> bool) (a : string) (c : ascii) (b : string) :
  all p a = true -> p c = false ->
  span_len p (a +:+ String c b) = String.length a.
Proof.
  intros Ha Hc. induction a as [|x a IH]; rewrite ?app_cons, ?app_empty;
    cbn [span_len String.length].
  - now rewrite Hc.
  - cbn [all] in Ha. apply andb_true_iff in Ha as [Hx Ha]. rewrite Hx. now rewrite IH.
Qed.

End SliceFacts.

(** A greedy repetition whose continuation refuses every string that
    starts inside the class takes the longest run or nothing. *)
Lemma many_greedy {R : Type} (p : ascii -> bool) (min : nat)
    (k : string -> option R) (n : nat) (s : string) :
  (forall c r, p c = true -> k (String c r) = None) ->
  Re.many p min k n s
  = if min <=? n + span_len p s then k (Text.drop (span_len p s) s) else None.
Proof.
  intros Hk. revert n. induction s as [|c s IH]; intros n; cbn [Re.many span_len].
  - now rewrite Nat.add_0_r.
  - destruct (p c) eqn:Hc.
    + rewrite IH, (Hk c s Hc). cbn [Text.drop].
      replace (n + S (span_len p s)) with (S n + span_len p s) by lia.
      destruct (min <=? n); destruct (min <=? S n + span_len p s);
        try reflexivity; now destruct (k _).
    + now rewrite Nat.add_0_r.
Qed.

Lemma consumed_key (b c : ascii) (r : string) (n : nat) :
  n <= String.length r ->
  Re.consumed (String b (String c r)) (Text.drop n r)
  = String b (String c (Text.take n r)).
Proof.
  intros Hn. unfold Re.consumed. rewrite length_drop. cbn [String.length].
  replace (S (S (String.length r)) - (String.length r - n)) with (S (S n)) by lia.
  reflexivity.
Qed.

Lemma slash_not_alnum (c : ascii) :
  Text.is_ascii_alnum c = true -> Re.chr "/" c = false.
Proof.
  destruct c as [[] [] [] [] [] [] [] []]; vm_compute; intros H;
    first [reflexivity | discriminate H].
Qed.

(** What a match of [pattern] at the start of [s] captures. *)
Lemma match_here_pattern (s : string) :
  option_map group (Re.match_here pattern s) = path_key_here s.
Proof.
  unfold Re.match_here, pattern, re_key, path_key_here.
  destruct s as [|a [|b [|c r]]]; cbn [Re.run].
  - reflexivity.
  - destruct (Re.chr "/" a); reflexivity.
  - destruct (Re.chr "/" a); [|reflexivity]. destruct (Re.chr "0" b); reflexivity.
  - destruct (Re.chr "/" a); [|reflexivity].
    destruct (Re.chr "0" b); [|reflexivity].
    destruct (Re.chr_i "x" c); [|reflexivity]. cbn [andb].
    rewrite many_greedy.
    + cbn [Nat.add].
      destruct (20 <=? span_len Text.is_ascii_alnum r); [|reflexivity]. cbn [andb].
      destruct (Text.drop (span_len Text.is_ascii_alnum r) r) as [|d rest] eqn:Hd;
        [reflexivity|].
      cbn [Text.startswith]. unfold Re.chr.
      rewrite (Ascii.eqb_sym d "/").
      destruct (Ascii.eqb "/" d); [|reflexivity].
      cbn [option_map group Re.group1]. rewrite <- Hd, consumed_key by apply span_len_le.
      reflexivity.
    + intros d rest Hd. now rewrite (slash_not_alnum d Hd).
Qed.

Lemma chr_true (c a : ascii) : Re.chr c a = true -> a = c.
Proof. unfold Re.chr. apply Ascii.eqb_eq. Qed.

Lemma chr_i_x (a : ascii) : Re.chr_i "x" a = true -> a = "x"%char \/ a = "X"%char.
Proof. unfold Re.chr_i. rewrite Ascii.eqb_sym. apply lower_char_x. Qed.

Lemma path_key_here_sound (s k : string) :
  path_key_here s = Some k ->
  exists post, s = "/" +:+ k +:+ "/" +:+ post /\ key_shape k.
Proof.
  unfold path_key_here. destruct s as [|a [|b [|c r]]]; try discriminate.
  destruct (Re.chr "/" a) eqn:Ha; [|discriminate].
  destruct (Re.chr "0" b) eqn:Hb; [|discriminate].
  destruct (Re.chr_i "x" c) eqn:Hc; [|discriminate]. cbn [andb].
  set (n := span_len Text.is_ascii_alnum r).
  destruct (20 <=? n) eqn:Hn; [|discriminate]. cbn [andb].
  destruct (Text.drop n r) as [|d post] eqn:Hd; [discriminate|].
  cbn [Text.startswith]. destruct (Ascii.eqb "/" d) eqn:Hs; [|discriminate].
  intros [= <-]. apply Ascii.eqb_eq in Hs. subst d.
  apply chr_true in Ha, Hb. subst a b. apply chr_i_x in Hc. apply Nat.leb_le in Hn.
  exists post. split.
  - rewrite !app_cons, app_empty. do 3 f_equal.
    rewrite app_empty, <- Hd. symmetry. apply take_drop.
  - exists c, (Text.take n r). split; [reflexivity|]. split; [exact Hc|].
    split; [apply all_take_span|]. rewrite length_take; [exact Hn | apply span_len_le].
Qed.

Lemma path_key_here_complete (k post : string) :
  key_shape k -> path_key_here ("/" +:+ k +:+ "/" +:+ post) = Some k.
Proof.
  intros (x & rest & -> & Hx & Ha & Hlen).
  rewrite !app_cons, app_empty. unfold path_key_here.
  assert (Hc : Re.chr_i "x" x = true) by (destruct Hx as [-> | ->]; reflexivity).
  change (Re.chr "/" "/") with true. change (Re.chr "0" "0") with true.
  rewrite Hc. cbn [andb].
  change ("/" +:+ post) with (String "/" post).
  rewrite span_len_app by (exact Ha || reflexivity).
  rewrite drop_app_length, take_app_length.
  replace (20 <=? String.length rest) with true by (symmetry; now apply Nat.leb_le).
  reflexivity.
Qed.

Lemma option_map_orelse {A B : Type} (f : A -> B) (a b : option A) :
  option_map f (Re.orelse a b) = Re.orelse (option_map f a) (option_map f b).
Proof. now destruct a. Qed.

(** [search] returns the match at the first position that has one. *)
Lemma search_first (r : Re.re) (s : string) :
  option_map group (Re.search r s)
  = first_here (fun t => option_map group (Re.match_here r t)) s.
Proof.
  induction s as [|c s IH]; cbn [Re.search first_here]; rewrite option_map_orelse.
  - reflexivity.
  - now rewrite IH.
Qed.

Lemma first_here_ext {A : Type} (f g : string -> option A) (s : string) :
  (forall t, f t = g t) -> first_here f s = first_here g s.
Proof.
  intros H. induction s as [|c s IH]; cbn [first_here]; rewrite H; [reflexivity|].
  now rewrite IH.
Qed.

Lemma first_here_head {A : Type} (f : string -> option A) (s : string) (x : A) :
  f s = Some x -> first_here f s = Some x.
Proof. intros H. destruct s; cbn [first_here]; now rewrite H. Qed.

Lemma first_here_skip {A : Type} (f : string -> option A) (pre s : string) :
  (forall j, j < String.length pre -> f (Text.drop j (pre +:+ s)) = None) ->
  first_here f (pre +:+ s) = first_here f s.
Proof.
  induction pre as [|c pre IH]; intros H; rewrite ?app_cons, ?app_empty; [reflexivity|].
  cbn [first_here].
  assert (H0 : f (String c (pre +:+ s)) = None).
  { apply (H 0). cbn [String.length]. lia. }
  rewrite H0. cbn [Re.orelse]. apply IH.
  intros j Hj. apply (H (S j)). cbn [String.length]. lia.
Qed.

Lemma search_pattern (u : string) :
  option_map group (Re.search pattern u) = first_here path_key_here u.
Proof. rewrite search_first. apply first_here_ext, match_here_pattern. Qed.

(** The leftmost segment is what [pattern] finds. *)
Lemma search_pattern_leftmost (u k : string) (i : nat) :
  path_segment_at u i k ->
  (forall j k', path_segment_at u j k' -> i <= j) ->
  exists found, Re.search pattern u = Some found /\ group found = k.
Proof.
  intros (pre & post & Hu & Hi & Hk) Hleft.
  assert (H : option_map group (Re.search pattern u) = Some k).
  { rewrite search_pattern, Hu, first_here_skip.
    - apply first_here_head. now apply path_key_here_complete.
    - intros j Hj. rewrite <- Hu.
      destruct (path_key_here (Text.drop j u)) as [k'|] eqn:Hj'; [|reflexivity].
      exfalso. apply path_key_here_sound in Hj' as (post' & Hd & Hk').
      assert (Hju : j <= String.length u).
      { rewrite Hu, length_app. lia. }
      enough (i <= j) by lia. apply (Hleft j k').
      exists (Text.take j u), post'. split; [|split].
      + rewrite <- Hd. symmetry. apply take_drop.
      + now apply length_take.
      + exact Hk'. }
  destruct (Re.search pattern u) as [found|]; [|discriminate].
  exists found. split; [reflexivity|]. now injection H.
Qed.

Lemma first_index_le {A : Type} (f : string -> option A) (s : string) (j : nat) (x : A) :
  f (Text.drop j s) = Some x -> j <= String.length s ->
  exists i, first_index f s = Some i /\ i <= j.
Proof.
  revert s. induction j as [|j IH]; intros s Hf Hj.
  - cbn [Text.drop] in Hf. exists 0. split; [|lia].
    destruct s; cbn [first_index]; now rewrite Hf.
  - destruct s as [|c s]; [cbn [String.length] in Hj; lia|].
    cbn [Text.drop] in Hf. cbn [String.length] in Hj.
    destruct (IH s Hf ltac:(lia)) as (i & Hi & Hle).
    cbn [first_index]. destruct (f (String c s)).
    + exists 0. split; [reflexivity | lia].
    + rewrite Hi. exists (S i). split; [reflexivity | lia].
Qed.

(** A segment at offset [j] bounds the offset of the first one. *)
Lemma path_segment_first_index (u k : string) (j : nat) :
  path_segment_at u j k ->
  exists i, first_index path_key_here u = Some i /\ i <= j.
Proof.
  intros (pre & post & Hu & Hj & Hk).
  apply (first_index_le path_key_here u j k).
  - rewrite Hu, <- Hj, drop_app_length. now apply path_key_here_complete.
  - rewrite Hu, length_app. lia.
Qed.

Lemma turnstile_url_truthy (u : string) :
  is_turnstile_url u = true -> Text.truthy u = true.
Proof. destruct u; [discriminate | reflexivity]. Qed.

(** C4, as stated, fails on the code: this URL has the valid segment
    [/0x4AAAAAAADnPIDROrmt1Wwj/] and another valid key in the query, and the
    extraction returns the key of the query, because an overlong segment
    comes first in the path. *)
Lemma C4_later_segment_loses :
  is_turnstile_url Sample.crowded_url = true
  /\ path_segment_at Sample.crowded_url (String.length Sample.crowded_prefix) known_sitekey
  /\ _is_valid_turnstile_sitekey known_sitekey = true
  /\ query_parameter Sample.crowded_url Sample.other_sitekey
  /\ _is_valid_turnstile_sitekey Sample.other_sitekey = true
  /\ known_sitekey <> Sample.other_sitekey
  /\ _extract_sitekey_from_url Sample.crowded_url = Some Sample.other_sitekey.
Proof.
  split; [reflexivity|]. split.
  { exists Sample.crowded_prefix, ("api.js?sitekey=" +:+ Sample.other_sitekey).
    split; [reflexivity|]. split; [reflexivity|].
    exists "x"%char, "4AAAAAAADnPIDROrmt1Wwj".
    split; [reflexivity|]. split; [now left|]. split; [reflexivity | vm_compute; lia]. }
  split; [reflexivity|]. split.
  { exists (Sample.crowded_prefix +:+ "/" +:+ known_sitekey +:+ "/api.js?"), EmptyString.
    split; [vm_compute; reflexivity|]. split; [reflexivity | now left]. }
  split; [reflexivity|]. split; [discriminate | vm_compute; reflexivity].
Qed.

(** C4, amended: in a Turnstile-tagged URL whose leftmost path segment of
    the form [/0x<alnum>{20,}/] is a valid sitekey, the extraction returns
    that segment, whatever [sitekey=] parameter the URL carries. *)
Theorem C4_leftmost_segment_wins (u k : string) (i : nat) :
  is_turnstile_url u = true ->
  path_segment_at u i k ->
  (forall j k', path_segment_at u j k' -> i <= j) ->
  _is_valid_turnstile_sitekey k = true ->
  _extract_sitekey_from_url u = Some k.
Proof.
  intros Htag Hseg Hleft Hvalid.
  destruct (search_pattern_leftmost u k i Hseg Hleft) as (found & Hfound & Hgroup).
  unfold _extract_sitekey_from_url.
  rewrite (turnstile_url_truthy u Htag). cbn [negb].
  unfold is_turnstile_url in Htag. rewrite Htag. cbn [negb].
  rewrite Hfound. unfold validated at 1. rewrite Hgroup, Hvalid. reflexivity.
Qed.

Lemma C4_leftmost_segment_wins_witness :
  query_parameter Sample.two_key_url Sample.other_sitekey
  /\ _is_valid_turnstile_sitekey Sample.other_sitekey = true
  /\ _extract_sitekey_from_url Sample.two_key_url = Some known_sitekey.
Proof.
  split.
  { exists (Sample.two_key_prefix +:+ "/" +:+ known_sitekey +:+ "/light/normal?"), EmptyString.
    split; [vm_compute; reflexivity|]. split; [reflexivity | now left]. }
  split; [reflexivity|].
  apply (C4_leftmost_segment_wins Sample.two_key_url known_sitekey
           (String.length Sample.two_key_prefix)).
  - reflexivity.
  - exists Sample.two_key_prefix, ("light/normal?sitekey=" +:+ Sample.other_sitekey).
    split; [reflexivity|]. split; [reflexivity|].
    exists "x"%char, "4AAAAAAADnPIDROrmt1Wwj".
    split; [reflexivity|]. split; [now left|]. split; [reflexivity | vm_compute; lia].
  - intros j k' Hj. apply path_segment_first_index in Hj as (i0 & Hi0 & Hle).
    vm_compute in Hi0. injection Hi0 as <-. vm_compute. exact Hle.
  - reflexivity.
Defined.

(** * Further properties of the modelled code *)

(** ** Session store: loading, saving and clearing together *)

Lemma names_cf_clearance_object (fields : list (string * json)) :
  names_cf_clearance (JObj fields)
  = Ok (match Py.assoc "name" fields with
        | Some name => Py.eq_str name "cf_clearance"
        | None => false
        end).
Proof.
  unfold names_cf_clearance, Py.get. cbn [rbind].
  destruct (Py.assoc "name" fields); reflexivity.
Qed.

Lemma names_cf_clearance_cookie (c : json) :
  is_cf_clearance_cookie c -> names_cf_clearance c = Ok true.
Proof.
  intros (fields & -> & Hname). rewrite names_cf_clearance_object, Hname. reflexivity.
Qed.

Lemma any_objects (items : list json) :
  Forall is_object items ->
  (exists c, c ∈ items /\ is_cf_clearance_cookie c) ->
  Py.any names_cf_clearance items = Ok true.
Proof.
  intros Hobj. induction Hobj as [|c rest [fields ->] _ IH]; intros (c' & Hin & Hc').
  - apply elem_of_nil in Hin. destruct Hin.
  - cbn [Py.any]. rewrite names_cf_clearance_object. cbn [rbind].
    destruct (match Py.assoc "name" fields with
              | Some name => Py.eq_str name "cf_clearance"
              | None => false
              end) eqn:Hhead; [reflexivity|].
    apply IH. apply elem_of_cons in Hin as [-> | Hin].
    + apply names_cf_clearance_cookie in Hc'.
      rewrite names_cf_clearance_object, Hhead in Hc'. discriminate.
    + eauto.
Qed.

Lemma well_formed_has_cf_clearance (session_data : json) :
  well_formed_session session_data ->
  (exists c, c ∈ cookie_list session_data /\ is_cf_clearance_cookie c) ->
  has_cf_clearance session_data = Ok true.
Proof.
  intros (fields & items & -> & Hcookies & Hobj).
  unfold cookie_list, has_cf_clearance, Py.get. rewrite Hcookies. cbn [rbind Py.iter].
  now apply any_objects.
Qed.

Section StoreFacts.

Context {BrowserContext : Type}.
Variable json_load : string -> result json.
Variable new_context : string -> result BrowserContext.

(** What [load_cloudflare_session] answers is decided by the session file
    of the domain alone. *)
Lemma load_fst_lookup (fs1 fs2 : gmap (list string) string) (domain : string) :
  fs1 !! get_session_path domain = fs2 !! get_session_path domain ->
  (load_cloudflare_session json_load new_context fs1 domain).1
  = (load_cloudflare_session json_load new_context fs2 domain).1.
Proof.
  intros H. unfold load_cloudflare_session. rewrite H.
  destruct (fs2 !! get_session_path domain) as [text|]; [|reflexivity].
  destruct (json_load text) as [data|[]]; try reflexivity.
  destruct (has_cf_clearance data) as [[]|]; try reflexivity.
  destruct (new_context text); reflexivity.
Qed.

Lemma load_some_inv
    (fs fs' : gmap (list string) string) (domain : string) (context : BrowserContext) :
  load_cloudflare_session json_load new_context fs domain = (Some context, fs') ->
  fs' = fs
  /\ exists text session_data,
       fs !! get_session_path domain = Some text
       /\ json_load text = Ok session_data
       /\ has_cf_clearance session_data = Ok true
       /\ new_context text = Ok context.
Proof.
  unfold load_cloudflare_session.
  destruct (fs !! get_session_path domain) as [text|]; [|discriminate].
  destruct (json_load text) as [data|[]] eqn:Hj; try discriminate.
  destruct (has_cf_clearance data) as [[]|] eqn:Hc; try discriminate.
  destruct (new_context text) as [ctx|] eqn:Hn; [|discriminate].
  intros [= <- <-]. split; [reflexivity|]. exists text, data. auto.
Qed.

(** X1: a context is only ever returned for a session file that exists,
    parses, and holds a cookie named [cf_clearance]; the storage is then
    left as it was. *)
Theorem load_returns_usable_session
    (fs fs' : gmap (list string) string) (domain : string) (context : BrowserContext) :
  load_cloudflare_session json_load new_context fs domain = (Some context, fs') ->
  fs' = fs
  /\ exists text session_data c,
       fs !! get_session_path domain = Some text
       /\ json_load text = Ok session_data
       /\ c ∈ cookie_list session_data
       /\ is_cf_clearance_cookie c
       /\ new_context text = Ok context.
Proof.
  unfold load_cloudflare_session.
  destruct (fs !! get_session_path domain) as [text|]; [|discriminate].
  destruct (json_load text) as [data|[]] eqn:Hj; try discriminate.
  destruct (has_cf_clearance data) as [[]|] eqn:Hc; try discriminate.
  destruct (new_context text) as [ctx|] eqn:Hn; [|discriminate].
  intros [= <- <-]. split; [reflexivity|].
  apply has_cf_clearance_true in Hc as (c & Hin & Hcf).
  exists text, data, c. auto.
Qed.

(** X2: a saved storage state that parses to a well-formed session with
    the clearance cookie is loaded back: saving returns [True], and loading
    returns the context the browser makes of that state and keeps the file. *)
Theorem save_then_load
    (fs : gmap (list string) string) (domain text : string)
    (session_data : json) (context : BrowserContext) :
  json_load text = Ok session_data ->
  well_formed_session session_data ->
  (exists c, c ∈ cookie_list session_data /\ is_cf_clearance_cookie c) ->
  new_context text = Ok context ->
  let saved := save_cloudflare_session (Ok text) fs domain in
  saved.1 = true
  /\ saved.2 !! get_session_path domain = Some text
  /\ load_cloudflare_session json_load new_context saved.2 domain
     = (Some context, saved.2).
Proof.
  intros Hj Hwf Hc Hn saved. subst saved. unfold save_cloudflare_session. cbn [fst snd].
  split; [reflexivity|]. split; [apply lookup_insert_eq|].
  unfold load_cloudflare_session. rewrite lookup_insert_eq, Hj.
  rewrite (well_formed_has_cf_clearance _ Hwf Hc), Hn. reflexivity.
Qed.

(** X3: loading for a domain never changes the session file of another
    path: every other file is as before. *)
Theorem load_frame (fs : gmap (list string) string) (domain : string) (p : list string) :
  p <> get_session_path domain ->
  (load_cloudflare_session json_load new_context fs domain).2 !! p = fs !! p.
Proof.
  intros Hp.
  destruct (load_keeps_or_removes json_load new_context fs domain) as [-> | [_ ->]];
    [reflexivity | now apply lookup_delete_ne].
Qed.

(** X4: after [clear_session] the domain has no usable session: loading
    returns [None] and changes nothing, and clearing again returns [False]. *)
Theorem clear_then_load (fs : gmap (list string) string) (domain : string) :
  let cleared := (clear_session fs domain).2 in
  load_cloudflare_session json_load new_context cleared domain = (None, cleared)
  /\ clear_session cleared domain = (false, cleared).
Proof.
  intros cleared.
  assert (H : cleared !! get_session_path domain = None).
  { subst cleared. unfold clear_session.
    destruct (fs !! get_session_path domain) eqn:Hf; cbn [snd];
      [apply lookup_delete_eq | exact Hf]. }
  unfold load_cloudflare_session, clear_session. now rewrite H.
Qed.

(** Saving over a session replaces it; clearing a saved session of a
    domain that had none gives the storage back. *)
Lemma save_then_clear (fs : gmap (list string) string) (domain text : string) :
  fs !! get_session_path domain = None ->
  clear_session (save_cloudflare_session (Ok text) fs domain).2 domain = (true, fs).
Proof.
  intros H. unfold save_cloudflare_session, clear_session. cbn [snd].
  rewrite lookup_insert_eq. f_equal. now apply delete_insert_id.
Qed.

End StoreFacts.

Lemma session_paths_differ (d1 d2 : string) :
  Text.lacks "_" d1 = true -> Text.lacks "_" d2 = true ->
  Text.lacks "/" d1 = true -> Text.lacks "/" d2 = true ->
  d1 <> d2 -> get_session_path d1 <> get_session_path d2.
Proof.
  intros U1 U2 S1 S2 Hne Heq. apply Hne.
  rewrite !session_path_simple in Heq by assumption.
  injection Heq as Heq.
  change (Text.replace_char "." "_" d1 +:+ ".json"
          = Text.replace_char "." "_" d2 +:+ ".json") in Heq.
  apply app_inv_tail in Heq. now apply (replace_char_inj "." "_").
Qed.

(** X5: sessions of different domains do not interfere: for two distinct
    domain names without underscore or slash, saving or clearing the
    session of one leaves what loading answers for the other unchanged. *)
Theorem other_domain_untouched {BrowserContext : Type}
    (json_load : string -> result json)
    (new_context : string -> result BrowserContext)
    (fs : gmap (list string) string) (d1 d2 : string) (state : result string) :
  Text.lacks "_" d1 = true -> Text.lacks "_" d2 = true ->
  Text.lacks "/" d1 = true -> Text.lacks "/" d2 = true ->
  d1 <> d2 ->
  (load_cloudflare_session json_load new_context
     (save_cloudflare_session state fs d1).2 d2).1
  = (load_cloudflare_session json_load new_context fs d2).1
  /\ (load_cloudflare_session json_load new_context (clear_session fs d1).2 d2).1
     = (load_cloudflare_session json_load new_context fs d2).1.
Proof.
  intros U1 U2 S1 S2 Hne.
  pose proof (session_paths_differ d1 d2 U1 U2 S1 S2 Hne) as Hp.
  split; apply load_fst_lookup.
  - unfold save_cloudflare_session. destruct state; cbn [snd]; [|reflexivity].
    now apply lookup_insert_ne.
  - unfold clear_session. destruct (fs !! get_session_path d1); cbn [snd]; [|reflexivity].
    now apply lookup_delete_ne.
Qed.

(** ** Session information *)

Lemma any_of_next (f : json -> result bool) (items : list json) :
  Py.any f items
  = (found <- Builtins.next f items ;;
     Ok (match found with Some _ => true | None => false end)).
Proof.
  induction items as [|c rest IH]; cbn [Py.any Builtins.next rbind]; [reflexivity|].
  destruct (f c) as [[]|]; cbn [rbind]; [reflexivity | exact IH | reflexivity].
Qed.

Lemma next_found (f : json -> result bool) (items : list json) (c : json) :
  Builtins.next f items = Ok (Some c) -> c ∈ items /\ f c = Ok true.
Proof.
  induction items as [|x rest IH]; cbn [Builtins.next]; [discriminate|].
  destruct (f x) as [[]|] eqn:Hx; cbn [rbind]; try discriminate.
  - intros [= <-]. split; [left | exact Hx].
  - intros H. destruct (IH H) as [Hin Hc]. split; [now right | exact Hc].
Qed.

Lemma len_cookie_list (session_data cookies : json) (n : nat) :
  Py.get session_data "cookies" (JArr []) = Ok cookies ->
  Builtins.len cookies = Ok n ->
  n = List.length (cookie_list session_data).
Proof.
  intros Hc Hn. unfold cookie_list. rewrite Hc.
  destruct cookies; try discriminate; cbn in Hn |- *; injection Hn as <-.
  - rewrite List.length_map. clear Hc. induction s as [|a s IH]; cbn; [reflexivity | now rewrite IH].
  - reflexivity.
  - now rewrite List.length_map.
Qed.

Section InfoFacts.

Context {BrowserContext : Type}.
Variable json_load : string -> result json.
Variable new_context : string -> result BrowserContext.
Variable stat : list string -> result (nat * fval).

(** What a report of [get_session_info] rests on. *)
Lemma session_info_sound (fs : gmap (list string) string) (domain : string)
    (info : SessionInfo) :
  get_session_info json_load stat fs domain = Some info ->
  exists text session_data,
    fs !! get_session_path domain = Some text
    /\ json_load text = Ok session_data
    /\ has_cf_clearance session_data = Ok (info_has_cf_clearance info)
    /\ cookie_count info = List.length (cookie_list session_data)
    /\ (info_has_cf_clearance info = true <-> is_Some (cf_clearance_expires info)).
Proof.
  unfold get_session_info.
  destruct (fs !! get_session_path domain) as [text|]; [|discriminate].
  unfold session_info_of.
  destruct (json_load text) as [data|] eqn:Hj; [|discriminate]. cbn [rbind].
  destruct (Py.get data "cookies" (JArr [])) as [cookies|] eqn:Hc; [|discriminate].
  cbn [rbind].
  destruct (Py.iter cookies) as [items|] eqn:Hi; [|discriminate]. cbn [rbind].
  destruct (Builtins.next names_cf_clearance items) as [found|] eqn:Hn; [|discriminate].
  cbn [rbind].
  destruct (Builtins.len cookies) as [count|] eqn:Hl; [|discriminate]. cbn [rbind].
  destruct (stat (get_session_path domain)) as [st|]; [|discriminate]. cbn [rbind].
  assert (Hhas : has_cf_clearance data
                 = Ok (match found with Some _ => true | None => false end)).
  { unfold has_cf_clearance. rewrite Hc. cbn [rbind]. rewrite Hi. cbn [rbind].
    now rewrite any_of_next, Hn. }
  destruct found as [c|].
  - apply next_found in Hn as [_ Hname].
    apply names_cf_clearance_true in Hname as (fields & -> & Hname).
    assert (Ht : Py.truthy (JObj fields) = true)
      by (destruct fields; [discriminate Hname | reflexivity]).
    rewrite Ht. cbn [Py.get rbind]. intros [= <-]. cbn.
    exists text, data. repeat split; eauto using len_cookie_list.
  - cbn [rbind]. intros [= <-]. cbn.
    exists text, data. repeat split; eauto using len_cookie_list; try discriminate.
    intros [? ?]. discriminate.
Qed.

(** X6: the report and the loader agree. When [get_session_info] reports
    a session without the clearance cookie, [load_cloudflare_session]
    returns [None]; when it reports one with the cookie, the loader hands
    the file to the browser and returns the context it makes. *)
Theorem session_info_agrees_with_load (fs : gmap (list string) string)
    (domain : string) (info : SessionInfo) :
  get_session_info json_load stat fs domain = Some info ->
  exists text,
    fs !! get_session_path domain = Some text
    /\ load_cloudflare_session json_load new_context fs domain
       = (if info_has_cf_clearance info
          then match new_context text with
               | Ok context => Some context
               | Raised _ => None
               end
          else None, fs).
Proof.
  intros H. apply session_info_sound in H as (text & data & Hf & Hj & Hc & _).
  exists text. split; [exact Hf|].
  unfold load_cloudflare_session. rewrite Hf, Hj, Hc.
  destruct (info_has_cf_clearance info); [|reflexivity].
  destruct (new_context text); reflexivity.
Qed.

(** In a report, [cookie_count] is the number of entries of the cookie
    list of the file, and key [cf_clearance_expires] is present exactly
    when [has_cf_clearance] is true. *)
Theorem session_info_fields (fs : gmap (list string) string)
    (domain : string) (info : SessionInfo) :
  get_session_info json_load stat fs domain = Some info ->
  info_exists info = true
  /\ info_path info = get_session_path domain
  /\ (exists text session_data,
        fs !! get_session_path domain = Some text
        /\ json_load text = Ok session_data
        /\ cookie_count info = List.length (cookie_list session_data))
  /\ (info_has_cf_clearance info = true <-> is_Some (cf_clearance_expires info)).
Proof.
  intros H.
  pose proof (session_info_sound fs domain info H)
    as (text & data & Hf & Hj & _ & Hcount & Hexp).
  assert (Hshape : info_exists info = true /\ info_path info = get_session_path domain).
  { unfold get_session_info in H. rewrite Hf in H.
    destruct (session_info_of json_load stat (get_session_path domain) text)
      as [i|] eqn:Hi; [|discriminate].
    injection H as ->. unfold session_info_of in Hi.
    repeat match type of Hi with
           | (rbind ?r _ = _) => destruct r; cbn [rbind] in Hi; [|discriminate Hi]
           end.
    injection Hi as <-. split; reflexivity. }
  destruct Hshape as [He Hp]. split; [exact He|]. split; [exact Hp|].
  split; [|exact Hexp]. exists text, data. auto.
Qed.

End InfoFacts.

(** ** Challenge detector: when a page counts as valid *)

Section LowerFacts.
Import Text.

Lemma lower_char_idem (c : ascii) : lower_char (lower_char c) = lower_char c.
Proof. destruct c as [[] [] [] [] [] [] [] []]; vm_compute; reflexivity. Qed.

Lemma lower_idem (s : string) : lower (lower s) = lower s.
Proof.
  induction s as [|c s IH]; cbn [lower]; [reflexivity|].
  now rewrite lower_char_idem, IH.
Qed.

Lemma startswith_lower (s p : string) :
  startswith s p = true -> startswith (lower s) (lower p) = true.
Proof.
  revert s. induction p as [|a p IH]; intros s; cbn [lower startswith]; [reflexivity|].
  destruct s as [|b s]; cbn [lower]; [discriminate|].
  destruct (Ascii.eqb a b) eqn:Hab; [|discriminate].
  apply Ascii.eqb_eq in Hab. subst b. rewrite Ascii.eqb_refl. apply IH.
Qed.

Lemma contains_lower (needle hay : string) :
  contains needle hay = true -> contains (lower needle) (lower hay) = true.
Proof.
  induction hay as [|c hay IH]; cbn [contains lower]; intros H.
  - apply orb_true_iff in H as [H | H]; [|discriminate].
    apply startswith_lower in H. cbn [lower] in H. now rewrite H.
  - apply orb_true_iff in H as [H | H].
    + apply startswith_lower in H. cbn [lower] in H. now rewrite H.
    + rewrite (IH H). apply orb_true_r.
Qed.

End LowerFacts.

Lemma existsb_indicator (f : string -> bool) (indicator : string) :
  indicator ∈ challenge_indicators -> f indicator = true ->
  existsb f challenge_indicators = true.
Proof.
  intros Hin Hf. apply existsb_exists. exists indicator.
  split; [now apply list_elem_of_In | exact Hf].
Qed.

(** X7: the detector answers [True] exactly when the URL read on entry and
    the URL read after the delay are both free of the challenge pattern
    and the inspection of the content did not find an indicator. *)
Theorem is_session_valid_true_iff (page : Page) (challenge_url_pattern : string) :
  is_session_valid page challenge_url_pattern = true
  <-> (exists current_url final_url,
         url_before page = Ok current_url
         /\ Text.contains challenge_url_pattern current_url = false
         /\ indicator_found page <> Ok true
         /\ url_after page = Ok final_url
         /\ Text.contains challenge_url_pattern final_url = false).
Proof.
  unfold is_session_valid, final_url_check. split.
  - destruct (url_before page) as [u|]; [|discriminate].
    destruct (Text.contains challenge_url_pattern u) eqn:Hu; [discriminate|].
    destruct (indicator_found page) as [[]|] eqn:Hi; try discriminate;
      (destruct (url_after page) as [u'|]; [|discriminate]);
      (destruct (Text.contains challenge_url_pattern u') eqn:Hu'; [discriminate|]);
      intros _; exists u, u'; repeat split; auto; discriminate.
  - intros (u & u' & -> & -> & Hi & -> & ->).
    destruct (indicator_found page) as [[]|]; [congruence | reflexivity | reflexivity].
Qed.

(** X8: indicator phrases are matched in any letter case. When the delay
    passes and the markup and the text can be read, a page whose text or
    markup contains a phrase that lower-cases to one of the indicators is
    reported as not valid. *)
Theorem indicator_any_case (page : Page) (challenge_url_pattern : string)
    (markup text phrase : string) :
  wait_for_timeout page = Ok tt ->
  content page = Ok markup ->
  inner_text page = Ok (JStr text) ->
  Text.lower phrase ∈ challenge_indicators ->
  Text.contains phrase text = true \/ Text.contains phrase markup = true ->
  is_session_valid page challenge_url_pattern = false.
Proof.
  intros Hw Hc Ht Hin Hocc. unfold is_session_valid.
  destruct (url_before page) as [u|]; [|reflexivity].
  destruct (Text.contains challenge_url_pattern u); [reflexivity|].
  assert (Hfound : indicator_found page = Ok true).
  { unfold indicator_found. rewrite Hw, Hc, Ht. cbn [rbind lower_method]. f_equal.
    apply (existsb_indicator _ (Text.lower phrase) Hin). rewrite lower_idem.
    destruct Hocc as [H | H]; apply contains_lower in H; rewrite H;
      [reflexivity | apply orb_true_r]. }
  now rewrite Hfound.
Qed.

(** ** Sitekey extractor: a key is always read off the traffic *)

Lemma str_app_assoc (a b c : string) : (a +:+ b) +:+ c = a +:+ (b +:+ c).
Proof. induction a as [|x a IH]; rewrite ?app_cons, ?app_empty; [reflexivity | now rewrite IH]. Qed.

Lemma str_app_empty_r (a : string) : a +:+ EmptyString = a.
Proof. induction a as [|x a IH]; rewrite ?app_cons, ?app_empty; [reflexivity | now rewrite IH]. Qed.

Lemma suffix_refl (s : string) : suffix_of s s.
Proof. exists EmptyString. reflexivity. Qed.

Lemma suffix_tail (c : ascii) (s' s : string) : suffix_of s' s -> suffix_of s' (String c s).
Proof. intros [pre ->]. exists (String c pre). reflexivity. Qed.

Lemma suffix_trans (a b c : string) : suffix_of a b -> suffix_of b c -> suffix_of a c.
Proof. intros [p ->] [q ->]. exists (q +:+ p). now rewrite str_app_assoc. Qed.

Lemma part_of_suffix (g s' s : string) : part_of g s' -> suffix_of s' s -> part_of g s.
Proof.
  intros (a & b & ->) [pre ->]. exists (pre +:+ a), b. now rewrite str_app_assoc.
Qed.

Lemma part_of_refl (s : string) : part_of s s.
Proof. exists EmptyString, EmptyString. now rewrite app_empty, str_app_empty_r. Qed.

Lemma part_of_empty (s : string) : part_of EmptyString s.
Proof. exists EmptyString, s. reflexivity. Qed.

Lemma consumed_part (s s' : string) : suffix_of s' s -> part_of (Re.consumed s s') s.
Proof.
  intros [pre ->]. unfold Re.consumed. rewrite length_app.
  replace (String.length pre + String.length s' - String.length s')
    with (String.length pre) by lia.
  rewrite take_app_length. exists EmptyString, s'. reflexivity.
Qed.

(** The continuation of a repetition only ever sees what is left of the
    text. *)
Lemma many_calls {R : Type} (p : ascii -> bool) (min : nat)
    (k : string -> option R) (n : nat) (s : string) (x : R) :
  Re.many p min k n s = Some x ->
  exists s', suffix_of s' s /\ k s' = Some x.
Proof.
  revert n. induction s as [|c s IH]; intros n; cbn [Re.many].
  - destruct (min <=? n); [|discriminate]. intros H. exists EmptyString.
    split; [apply suffix_refl | exact H].
  - assert (Hstop : (if min <=? n then k (String c s) else None) = Some x ->
                    exists s', suffix_of s' (String c s) /\ k s' = Some x).
    { destruct (min <=? n); [|discriminate]. intros H. exists (String c s).
      split; [apply suffix_refl | exact H]. }
    destruct (p c); [|exact Hstop].
    intros H. apply orelse_some in H as [H | H]; [|now apply Hstop].
    destruct (IH _ H) as (s' & Hs & Hk). exists s'. split; [now apply suffix_tail | exact Hk].
Qed.

(** The matcher hands to its continuation a rest of the text, and as
    capture either the one it was given or a part of the text. *)
Lemma run_calls {R : Type} (r : Re.re) (s : string) (cap : option string)
    (k : string -> option string -> option R) (x : R) :
  Re.run r s cap k = Some x ->
  exists s' cap',
    suffix_of s' s
    /\ (cap' = cap \/ exists g, cap' = Some g /\ part_of g s)
    /\ k s' cap' = Some x.
Proof.
  revert s cap k. induction r as [p | p min | p | a IHa b IHb | a IHa b IHb | a IHa |];
    intros s cap k; cbn [Re.run].
  - destruct s as [|c s]; [discriminate|]. destruct (p c); [|discriminate].
    intros H. exists s, cap. split; [apply suffix_tail, suffix_refl|]. auto.
  - intros H. apply many_calls in H as (s' & Hs & Hk). exists s', cap. auto.
  - assert (Hhere : k s cap = Some x ->
                    exists s' cap', suffix_of s' s
                      /\ (cap' = cap \/ exists g, cap' = Some g /\ part_of g s)
                      /\ k s' cap' = Some x).
    { intros H. exists s, cap. split; [apply suffix_refl|]. auto. }
    destruct s as [|c s]; [exact Hhere|]. destruct (p c); [|exact Hhere].
    intros H. apply orelse_some in H as [H | H]; [|now apply Hhere].
    exists s, cap. split; [apply suffix_tail, suffix_refl|]. auto.
  - intros H. apply IHa in H as (s1 & cap1 & Hs1 & Hc1 & H).
    apply IHb in H as (s2 & cap2 & Hs2 & Hc2 & H).
    exists s2, cap2. split; [exact (suffix_trans _ _ _ Hs2 Hs1)|]. split; [|exact H].
    destruct Hc2 as [-> | (g & -> & Hg)]; [exact Hc1|].
    right. exists g. split; [reflexivity | exact (part_of_suffix _ _ _ Hg Hs1)].
  - intros H. apply orelse_some in H as [H | H]; [now apply IHa | now apply IHb].
  - intros H. apply IHa in H as (s1 & cap1 & Hs1 & _ & H).
    exists s1, (Some (Re.consumed s s1)). split; [exact Hs1|]. split; [|exact H].
    right. exists (Re.consumed s s1). split; [reflexivity | now apply consumed_part].
  - destruct (Re.at_end s); [|discriminate]. intros H. exists s, cap.
    split; [apply suffix_refl|]. auto.
Qed.

Lemma match_here_parts (r : Re.re) (s : string) (found : Re.Match) :
  Re.match_here r s = Some found ->
  part_of (Re.group0 found) s /\ part_of (group found) s.
Proof.
  unfold Re.match_here. intros H.
  apply run_calls in H as (s' & cap' & Hs & Hc & H). injection H as <-.
  unfold group. cbn [Re.group0 Re.group1]. split; [now apply consumed_part|].
  destruct Hc as [-> | (g & -> & Hg)]; [apply part_of_empty | exact Hg].
Qed.

Lemma search_parts (r : Re.re) (s : string) (found : Re.Match) :
  Re.search r s = Some found ->
  part_of (Re.group0 found) s /\ part_of (group found) s.
Proof.
  induction s as [|c s IH]; cbn [Re.search]; intros H;
    apply orelse_some in H as [H | H]; try discriminate;
    try (exact (match_here_parts r _ found H)).
  destruct (IH H) as [H0 H1].
  split; eapply part_of_suffix; eauto using suffix_tail, suffix_refl.
Qed.

Lemma validated_part (r : Re.re) (s k : string) (pick : Re.Match -> string) :
  (pick = group \/ pick = Re.group0) ->
  validated (Re.search r s) pick = Some k -> part_of k s.
Proof.
  intros Hpick. unfold validated.
  destruct (Re.search r s) as [found|] eqn:Hs; [|discriminate].
  destruct (_is_valid_turnstile_sitekey (pick found)); [|discriminate].
  intros [= <-]. apply search_parts in Hs as [H0 H1].
  destruct Hpick as [-> | ->]; assumption.
Qed.

Lemma extract_url_part (u k : string) :
  _extract_sitekey_from_url u = Some k -> part_of k u.
Proof.
  unfold _extract_sitekey_from_url.
  destruct (negb (Text.truthy u)); [discriminate|].
  destruct (negb (Text.contains "turnstile" (Text.lower u))); [discriminate|].
  intros H.
  apply orelse_some in H as [H | H]; [now apply validated_part in H; auto|].
  apply orelse_some in H as [H | H]; now apply validated_part in H; auto.
Qed.

Lemma extract_url_tagged (u k : string) :
  _extract_sitekey_from_url u = Some k -> is_turnstile_url u = true.
Proof.
  unfold _extract_sitekey_from_url, is_turnstile_url.
  destruct (negb (Text.truthy u)); [discriminate|].
  destruct (Text.contains "turnstile" (Text.lower u)); [reflexivity | discriminate].
Qed.

(** X9: a key extracted from a URL is a part of that URL, and the URL is
    tagged [turnstile]: the extractor copies, it never builds a key. *)
Theorem extract_url_copies (u k : string) :
  _extract_sitekey_from_url u = Some k ->
  part_of k u /\ is_turnstile_url u = true.
Proof.
  intros H. split.
  - exact (extract_url_part u k H).
  - exact (extract_url_tagged u k H).
Qed.

Lemma scan_text_part (text : option string) (tagged : bool) (k : string) :
  scan_text text tagged = Some k ->
  tagged = true /\ exists t, text = Some t /\ part_of k t.
Proof.
  unfold scan_text. destruct text as [t|]; [|discriminate].
  destruct (Text.truthy t); cbn [andb]; [|discriminate].
  destruct tagged; [|discriminate]. intros H. split; [reflexivity|].
  exists t. split; [reflexivity|].
  apply orelse_some in H as [H | H]; now apply validated_part in H; auto.
Qed.

Lemma scan_headers_part (items : list (string * string)) (k : string) :
  scan_headers items = Some k ->
  exists key value, (key, value) ∈ items /\ part_of k value.
Proof.
  induction items as [|[key value] rest IH]; cbn [scan_headers]; [discriminate|].
  intros H. apply orelse_some in H as [H | H].
  - destruct (Text.contains "sitekey" (Text.lower key)); [|discriminate].
    destruct (_is_valid_turnstile_sitekey value); [|discriminate].
    injection H as <-. exists key, value. split; [left | apply part_of_refl].
  - apply orelse_some in H as [H | H].
    + apply validated_part in H; auto. exists key, value. split; [left | exact H].
    + destruct (IH H) as (key' & value' & Hin & Hp).
      exists key', value'. split; [now right | exact Hp].
Qed.

(** X10: a key extracted from a captured request or response is a part of
    its URL, of its payload, of its body or of one of its header values;
    the URL, the payload and the body are only used when the URL is tagged
    [turnstile]. *)
Theorem extract_network_data_copies (data : NetworkData) (k : string) :
  _extract_sitekey_from_network_data data = Some k ->
  (is_turnstile_url (url data) = true
   /\ (part_of k (url data)
       \/ (exists t, post_data data = Some t /\ part_of k t)
       \/ (exists t, body data = Some t /\ part_of k t)))
  \/ (exists key value, (key, value) ∈ headers data /\ part_of k value).
Proof.
  unfold _extract_sitekey_from_network_data. intros H.
  assert (Hurl : forall o, checked o = Some k -> o = Some k).
  { intros [c|]; cbn [checked]; [|discriminate].
    destruct (Text.truthy c && _is_valid_turnstile_sitekey c); [|discriminate].
    now intros [= ->]. }
  apply orelse_some in H as [H | H].
  { destruct (_ && _); [|discriminate]. apply Hurl in H.
    pose proof (extract_url_part _ _ H). pose proof (extract_url_tagged _ _ H).
    left. auto. }
  apply orelse_some in H as [H | H].
  { apply Hurl in H.
    pose proof (extract_url_part _ _ H). pose proof (extract_url_tagged _ _ H).
    left. auto. }
  apply orelse_some in H as [H | H].
  { apply scan_text_part in H as (Ht & t & Hd & Hp). left. split; [exact Ht|]. eauto. }
  apply orelse_some in H as [H | H].
  { apply scan_text_part in H as (Ht & t & Hd & Hp). left. split; [exact Ht|]. eauto 6. }
  right. now apply scan_headers_part.
Qed.

(** X11: for traffic whose URL is not tagged [turnstile] only the headers
    are searched: the URL, the payload and the body are ignored. *)
Theorem untagged_data_headers_only (data : NetworkData) :
  is_turnstile_url (url data) = false ->
  _extract_sitekey_from_network_data data = scan_headers (headers data).
Proof.
  intros Ht. unfold _extract_sitekey_from_network_data. rewrite Ht. cbn [andb].
  assert (Hu : _extract_sitekey_from_url (url data) = None).
  { destruct (_extract_sitekey_from_url (url data)) as [k|] eqn:H; [|reflexivity].
    apply extract_url_tagged in H. congruence. }
  rewrite Hu. cbn [checked Re.orelse].
  unfold scan_text. destruct (post_data data) as [t|], (body data) as [t'|];
    rewrite ?andb_false_r; reflexivity.
Qed.

(** ** Sitekey extractor: the buffer and the cache *)

Lemma remember_buffer (ext : Extractor) (sitekey : option string) :
  captured_requests (remember ext sitekey) = captured_requests ext.
Proof.
  unfold remember. destruct sitekey as [k|]; [|reflexivity].
  destruct (Text.truthy k); reflexivity.
Qed.

Lemma handle_buffer (ext : Extractor) (ev : NetworkEvent) :
  captured_requests (handle ext ev) = captured_requests ext
  \/ exists r, buffered_request r
               /\ captured_requests (handle ext ev) = captured_requests ext ++ [r].
Proof.
  destruct ev as [u m hs payload | u code hs text]; cbn [handle].
  - unfold handle_request. destruct (is_watched u) eqn:Hw; [|now left].
    right. eexists. split; [|rewrite remember_buffer; reflexivity].
    repeat split. exact Hw.
  - unfold handle_response. destruct (is_watched u); [|now left].
    left. apply remember_buffer.
Qed.

Lemma deliver_buffer (arrivals : list NetworkEvent) (ext : Extractor) :
  exists added,
    captured_requests (deliver ext arrivals) = captured_requests ext ++ added
    /\ Forall buffered_request added.
Proof.
  unfold deliver. revert ext. induction arrivals as [|ev rest IH]; intros ext; cbn [fold_left].
  - exists []. split; [now rewrite app_nil_r | constructor].
  - destruct (IH (handle ext ev)) as (added & Heq & Hall).
    destruct (handle_buffer ext ev) as [H | (r & Hr & H)]; rewrite H in Heq.
    + exists added. auto.
    + exists (r :: added). rewrite Heq, <- app_assoc. split; [reflexivity | now constructor].
Qed.

Lemma setup_buffer (ext : Extractor) :
  captured_requests (setup_network_monitoring ext) = captured_requests ext.
Proof. unfold setup_network_monitoring. destruct (monitoring_setup ext); reflexivity. Qed.

Lemma get_sitekey_buffer (ext : Extractor) (arrivals : list NetworkEvent) :
  exists added,
    captured_requests (get_sitekey ext arrivals).2 = captured_requests ext ++ added
    /\ Forall buffered_request added.
Proof.
  assert (Hsame : exists added, captured_requests ext = captured_requests ext ++ added
                                /\ Forall buffered_request added).
  { exists []. split; [now rewrite app_nil_r | constructor]. }
  pose proof (deliver_buffer arrivals (setup_network_monitoring ext)) as Hd.
  rewrite setup_buffer in Hd.
  unfold get_sitekey. destruct (cached ext); [exact Hsame|].
  match goal with |- context [match ?b with Some _ => _ | None => _ end] =>
    destruct b end; [exact Hsame|].
  destruct (cached (deliver (setup_network_monitoring ext) arrivals)); [exact Hd|].
  match goal with |- context [match ?b with Some _ => _ | None => _ end] =>
    destruct b end; exact Hd.
Qed.

(** X12: the buffer is append-only and scoped. On every state an extractor
    object reaches, each buffered entry is a request whose URL contains the
    challenge host or the word turnstile; responses are never buffered, and
    no handler or call removes an entry. *)
Theorem buffer_scoped (ext : Extractor) :
  reachable ext ->
  Forall buffered_request (captured_requests ext)
  /\ (forall ev, exists added,
        captured_requests (handle ext ev) = captured_requests ext ++ added)
  /\ (forall arrivals, exists added,
        captured_requests (get_sitekey ext arrivals).2 = captured_requests ext ++ added).
Proof.
  intros Hr. split; [|split].
  - induction Hr as [| ext _ IH | ext ev _ IH | ext arrivals _ IH].
    + constructor.
    + now rewrite setup_buffer.
    + destruct (handle_buffer ext ev) as [-> | (r & Hb & ->)]; [exact IH|].
      apply Forall_app. split; [exact IH | now constructor].
    + destruct (get_sitekey_buffer ext arrivals) as (added & -> & Hall).
      apply Forall_app. now split.
  - intros ev. destruct (handle_buffer ext ev) as [-> | (r & _ & ->)];
      [exists []; now rewrite app_nil_r | now exists [r]].
  - intros arrivals. destruct (get_sitekey_buffer ext arrivals) as (added & -> & _).
    now exists added.
Qed.

Lemma cached_set_sitekey (ext : Extractor) (k : string) :
  _is_valid_turnstile_sitekey k = true -> cached (set_sitekey ext k) = Some k.
Proof. intros Hv. unfold cached. cbn. now rewrite (validator_truthy k Hv). Qed.

Lemma first_valid_none (requests : list NetworkData) :
  first_valid requests = None <->
  Forall (fun r => checked (_extract_sitekey_from_network_data r) = None) requests.
Proof.
  induction requests as [|r rest IH]; cbn [first_valid].
  - split; [constructor | reflexivity].
  - destruct (checked (_extract_sitekey_from_network_data r)) eqn:Hr; cbn [Re.orelse].
    + split; [discriminate | intros H; inversion H; congruence].
    + rewrite IH. split; [now constructor | intros H; now inversion H].
Qed.

Lemma first_valid_app (l1 l2 : list NetworkData) :
  first_valid (l1 ++ l2) = Re.orelse (first_valid l1) (first_valid l2).
Proof.
  induction l1 as [|r l1 IH]; cbn [app first_valid]; [reflexivity|].
  rewrite IH. now destruct (checked (_extract_sitekey_from_network_data r)).
Qed.

(** *** What the handlers leave in the cache *)

Lemma event_key_truthy (ev : NetworkEvent) (k : string) :
  event_key ev = Some k -> Text.truthy k = true.
Proof.
  intros H. apply validator_truthy.
  destruct ev as [u m hs payload | u code hs text]; cbn [event_key] in H;
    destruct (is_watched u); try discriminate H;
    exact (extract_network_data_valid _ _ H).
Qed.

Lemma cached_remember (ext : Extractor) (sitekey : option string) :
  (forall k, sitekey = Some k -> Text.truthy k = true) ->
  cached (remember ext sitekey)
  = match sitekey with Some k => Some k | None => cached ext end.
Proof.
  intros Ht. destruct sitekey as [k|]; cbn [remember]; [|reflexivity].
  rewrite (Ht k eq_refl). unfold cached. cbn. now rewrite (Ht k eq_refl).
Qed.

(** A handler overwrites the remembered key when its event gives one, and
    leaves it alone otherwise. *)
Lemma cached_handle (ext : Extractor) (ev : NetworkEvent) :
  cached (handle ext ev)
  = match event_key ev with Some k => Some k | None => cached ext end.
Proof.
  pose proof (event_key_truthy ev) as Ht.
  destruct ev as [u m hs payload | u code hs text]; cbn [handle event_key] in *.
  - unfold handle_request. destruct (is_watched u); [|reflexivity].
    cbv zeta. now rewrite cached_remember.
  - unfold handle_response. destruct (is_watched u); [|reflexivity].
    destruct text as [t|e]; cbv zeta; cbv beta iota zeta in Ht;
      now rewrite cached_remember.
Qed.

Lemma cached_deliver (evs : list NetworkEvent) (ext : Extractor) :
  cached (deliver ext evs) = latest_key evs (cached ext).
Proof.
  unfold deliver, latest_key. revert ext.
  induction evs as [|ev rest IH]; intros ext; cbn [fold_left]; [reflexivity|].
  now rewrite IH, cached_handle.
Qed.

Lemma cached_setup (ext : Extractor) :
  cached (setup_network_monitoring ext) = cached ext.
Proof. unfold setup_network_monitoring. now destruct (monitoring_setup ext). Qed.

Lemma latest_key_some (evs : list NetworkEvent) (k : string) :
  exists k', latest_key evs (Some k) = Some k'.
Proof.
  unfold latest_key. revert k.
  induction evs as [|ev rest IH]; intros k; cbn [fold_left]; [now exists k|].
  destruct (event_key ev); apply IH.
Qed.

Lemma latest_key_none (evs : list NetworkEvent) :
  latest_key evs None = None <-> Forall (fun ev => event_key ev = None) evs.
Proof.
  induction evs as [|ev rest IH].
  - split; [constructor | reflexivity].
  - unfold latest_key in *. cbn [fold_left].
    destruct (event_key ev) as [k|] eqn:Hk.
    + split.
      * intros H. destruct (latest_key_some rest k) as [k' Hk'].
        unfold latest_key in Hk'. congruence.
      * intros H. inversion H; congruence.
    + rewrite IH. split; [now constructor | intros H; now inversion H].
Qed.

Lemma get_sitekey_caches (ext : Extractor) (arrivals : list NetworkEvent) (k : string) :
  (get_sitekey ext arrivals).1 = Some k ->
  cached (get_sitekey ext arrivals).2 = Some k.
Proof.
  unfold get_sitekey.
  destruct (cached ext) as [c|] eqn:Hc; [cbn [fst snd]; now intros [= <-]|].
  match goal with |- context [match ?b with Some _ => _ | None => _ end] =>
    destruct b as [c|] eqn:Hb end.
  { cbn [fst snd]. intros [= <-]. apply cached_set_sitekey.
    destruct (captured_requests ext); [discriminate|].
    apply orelse_some in Hb as [Hb | Hb]; now apply first_valid_valid in Hb. }
  destruct (cached (deliver (setup_network_monitoring ext) arrivals)) as [c|] eqn:Hc';
    [cbn [fst snd]; now intros [= <-]|].
  match goal with |- context [match ?b with Some _ => _ | None => _ end] =>
    destruct b as [c|] eqn:Hf end; cbn [fst snd]; [|discriminate].
  intros [= <-]. apply cached_set_sitekey.
  destruct (captured_requests (deliver _ _)); [discriminate|].
  now apply first_valid_valid in Hf.
Qed.

(** X13: a key once found is never lost, and the latest one counts. After
    [get_sitekey] has returned a key, whatever events the handlers receive
    before the next call, that call returns a key at once, without a wait
    and without changing the extractor: the key of the last of these events
    that gives one, and the key returned before when none of them does. *)
Theorem get_sitekey_sticky (ext : Extractor) (arrivals between later : list NetworkEvent)
    (k : string) :
  (get_sitekey ext arrivals).1 = Some k ->
  let ext' := deliver (get_sitekey ext arrivals).2 between in
  (exists k', latest_key between (Some k) = Some k')
  /\ get_sitekey ext' later = (latest_key between (Some k), ext').
Proof.
  intros H ext'. split; [apply latest_key_some|].
  assert (Hc : cached ext' = latest_key between (Some k)).
  { unfold ext'. now rewrite cached_deliver, (get_sitekey_caches _ _ _ H). }
  destruct (latest_key_some between k) as [k' Hk'].
  rewrite Hk' in *. unfold get_sitekey. now rewrite Hc.
Qed.

(** *** The scans of the buffer *)

Lemma handle_seen (ext : Extractor) (ev : NetworkEvent) :
  buffer_seen ext -> buffer_seen (handle ext ev).
Proof.
  intros Hs Hc. rewrite cached_handle in Hc.
  destruct (event_key ev) eqn:Hk; [discriminate|].
  specialize (Hs Hc).
  destruct ev as [u m hs payload | u code hs text]; cbn [handle event_key] in *.
  - unfold handle_request. destruct (is_watched u); [|exact Hs].
    cbv zeta. rewrite remember_buffer. cbn [capture captured_requests].
    apply Forall_app. split; [exact Hs|]. constructor; [exact Hk | constructor].
  - unfold handle_response. destruct (is_watched u); [|exact Hs].
    cbv zeta. now rewrite remember_buffer.
Qed.

Lemma deliver_seen (evs : list NetworkEvent) (ext : Extractor) :
  buffer_seen ext -> buffer_seen (deliver ext evs).
Proof.
  unfold deliver. revert ext.
  induction evs as [|ev rest IH]; intros ext Hs; cbn [fold_left]; [exact Hs|].
  apply IH. now apply handle_seen.
Qed.

Lemma setup_seen (ext : Extractor) :
  buffer_seen ext -> buffer_seen (setup_network_monitoring ext).
Proof.
  intros Hs Hc. rewrite cached_setup in Hc. rewrite setup_buffer. now apply Hs.
Qed.

Lemma seen_first_valid (f : NetworkData -> bool) (l : list NetworkData) :
  Forall (fun r => _extract_sitekey_from_network_data r = None) l ->
  first_valid (List.filter f l) = None.
Proof.
  intros H. apply first_valid_none, Forall_forall. intros r Hr.
  apply list_elem_of_In, List.filter_In in Hr as [Hin _].
  rewrite Forall_forall in H. rewrite (H r); [reflexivity | now apply list_elem_of_In].
Qed.

(** Where the buffer holds nothing that was not seen, the scans of
    [get_sitekey] find nothing. *)
Lemma get_sitekey_by_cache (ext : Extractor) (arrivals : list NetworkEvent) :
  buffer_seen ext ->
  get_sitekey ext arrivals
  = match cached ext with
    | Some k => (Some k, ext)
    | None => (latest_key arrivals None, deliver (setup_network_monitoring ext) arrivals)
    end.
Proof.
  intros Hs. unfold get_sitekey. destruct (cached ext) as [k|] eqn:Hc; [reflexivity|].
  rewrite !(seen_first_valid _ _ (Hs Hc)). cbn [Re.orelse].
  assert (Hs' : buffer_seen (deliver (setup_network_monitoring ext) arrivals))
    by now apply deliver_seen, setup_seen.
  assert (Hc' : cached (deliver (setup_network_monitoring ext) arrivals)
                = latest_key arrivals None)
    by now rewrite cached_deliver, cached_setup, Hc.
  destruct (captured_requests ext).
  - rewrite Hc'. destruct (latest_key arrivals None) eqn:Hl; [reflexivity|].
    rewrite first_valid_app, !(seen_first_valid _ _ (Hs' Hc')).
    cbn [Re.orelse]. now destruct (captured_requests (deliver _ _)).
  - rewrite Hc'. destruct (latest_key arrivals None) eqn:Hl; [reflexivity|].
    rewrite first_valid_app, !(seen_first_valid _ _ (Hs' Hc')).
    cbn [Re.orelse]. now destruct (captured_requests (deliver _ _)).
Qed.

Lemma get_sitekey_seen (ext : Extractor) (arrivals : list NetworkEvent) :
  buffer_seen ext -> buffer_seen (get_sitekey ext arrivals).2.
Proof.
  intros Hs. rewrite (get_sitekey_by_cache _ _ Hs).
  destruct (cached ext); cbn [snd]; [exact Hs|]. now apply deliver_seen, setup_seen.
Qed.

Lemma reachable_seen (ext : Extractor) : reachable ext -> buffer_seen ext.
Proof.
  induction 1 as [| ext _ IH | ext ev _ IH | ext arrivals _ IH].
  - intros _. constructor.
  - now apply setup_seen.
  - now apply handle_seen.
  - now apply get_sitekey_seen.
Qed.

(** X14: when [get_sitekey] finds nothing. On every state an extractor
    reaches, [get_sitekey] returns [None] exactly when no key is remembered
    on entry and no event of the wait gives a key to its handler. *)
Theorem get_sitekey_none (ext : Extractor) (arrivals : list NetworkEvent) :
  reachable ext ->
  (get_sitekey ext arrivals).1 = None
  <-> cached ext = None /\ Forall (fun ev => event_key ev = None) arrivals.
Proof.
  intros Hr. rewrite (get_sitekey_by_cache _ _ (reachable_seen _ Hr)).
  destruct (cached ext) as [k|]; cbn [fst].
  - split; [discriminate | intros [H _]; discriminate H].
  - rewrite latest_key_none. split; [now split | now intros [_ H]].
Qed.

(** X15: the scans of the buffer never decide the result. On every state an
    extractor reaches with no key remembered, no buffered request gives a
    key, since each was scanned by its handler when it was captured; so
    [get_sitekey] returns the remembered key, or else handles the events of
    the wait and returns the key of the last one that gives a key. *)
Theorem buffer_scans_find_nothing (ext : Extractor) (arrivals : list NetworkEvent) :
  reachable ext ->
  (cached ext = None ->
   Forall (fun r => _extract_sitekey_from_network_data r = None) (captured_requests ext))
  /\ get_sitekey ext arrivals
     = match cached ext with
       | Some k => (Some k, ext)
       | None =>
           (latest_key arrivals None, deliver (setup_network_monitoring ext) arrivals)
       end.
Proof.
  intros Hr. pose proof (reachable_seen _ Hr) as Hs.
  split; [exact Hs | now apply get_sitekey_by_cache].
Qed.

Lemma deliver_app (ext : Extractor) (evs : list NetworkEvent) (ev : NetworkEvent) :
  deliver ext (evs ++ [ev]) = handle (deliver ext evs) ev.
Proof. unfold deliver. now rewrite fold_left_app. Qed.

(** X16: the handlers keep the latest key. On a new extractor, when the
    last request of the wait is watched and gives a key, [get_sitekey]
    returns that key, whatever keys the earlier events gave. *)
Theorem latest_key_wins (evs : list NetworkEvent) (u m : string)
    (hs : list (string * string)) (payload : option string) (k : string) :
  is_watched u = true ->
  _extract_sitekey_from_network_data
    {| url := u; method := Some m; status := None; headers := hs;
       post_data := payload; body := None |} = Some k ->
  (get_sitekey new_extractor (evs ++ [Request u m hs payload])).1 = Some k.
Proof.
  intros Hw Hk.
  assert (Hv : Text.truthy k = true)
    by (apply validator_truthy; now apply extract_network_data_valid in Hk).
  assert (Hc : cached (deliver (setup_network_monitoring new_extractor)
                         (evs ++ [Request u m hs payload])) = Some k).
  { rewrite deliver_app. cbn [handle]. unfold handle_request. rewrite Hw, Hk.
    cbn [remember]. rewrite Hv. unfold cached. cbn. now rewrite Hv. }
  unfold get_sitekey. cbn [cached new_extractor sitekey_from_network captured_requests].
  fold new_extractor. now rewrite Hc.
Qed.

(** ** Solver client: what any run stays within *)

Section Budget.

Variable domain : string.

Lemma grows_refl (o : Outside) : grows domain 0 0 0 o o.
Proof.
  split; [|reflexivity]. exists []. rewrite app_nil_r. cbn. repeat split; lia.
Qed.

Lemma grows_trans (c1 n1 s1 c2 n2 s2 : nat) (o o1 o2 : Outside) :
  grows domain c1 n1 s1 o o1 -> grows domain c2 n2 s2 o1 o2 ->
  grows domain (c1 + c2) (n1 + n2) (s1 + s2) o o2.
Proof.
  intros [(e1 & T1 & C1 & P1 & S1) F1] [(e2 & T2 & C2 & P2 & S2) F2]. split.
  - exists (e1 ++ e2). rewrite T2, T1, <- app_assoc. split; [reflexivity|].
    rewrite !List.filter_app, !List.length_app, List.map_app, list_sum_app.
    repeat split; lia.
  - intros p Hp. now rewrite F2, F1.
Qed.

Lemma grows_weaken (c n s c' n' s' : nat) (o o' : Outside) :
  c <= c' -> n <= n' -> s <= s' ->
  grows domain c n s o o' -> grows domain c' n' s' o o'.
Proof.
  intros Hc Hn Hs [(e & T & C & P & S) F]. split; [|exact F].
  exists e. split; [exact T|].
  assert (poll_interval * s <= poll_interval * s') by (apply Nat.mul_le_mono_l; lia).
  repeat split; lia.
Qed.

Lemma bounded_unit {A : Type} (a : A) : bounded domain 0 0 0 (unit_run a).
Proof. intros o. apply grows_refl. Qed.

Lemma bounded_lift {A : Type} (r : result A) : bounded domain 0 0 0 (lift r).
Proof. intros o. apply grows_refl. Qed.

Lemma bounded_bind {A B : Type} (c1 n1 s1 c2 n2 s2 : nat) (m : Run A) (k : A -> Run B) :
  bounded domain c1 n1 s1 m -> (forall a, bounded domain c2 n2 s2 (k a)) ->
  bounded domain (c1 + c2) (n1 + n2) (s1 + s2) (bind_run m k).
Proof.
  intros Hm Hk o. unfold bind_run. specialize (Hm o).
  destruct (m o) as [[a|e] o1]; cbn [snd] in *.
  - eapply grows_trans; [exact Hm | apply Hk].
  - eapply grows_weaken; [| | |exact Hm]; lia.
Qed.

Lemma bounded_weaken {A : Type} (c n s c' n' s' : nat) (m : Run A) :
  c <= c' -> n <= n' -> s <= s' ->
  bounded domain c n s m -> bounded domain c' n' s' m.
Proof. intros Hc Hn Hs Hm o. eapply grows_weaken; eauto. Qed.


Lemma bounded_emit_quiet (ev : Effect) :
  is_create ev = false -> is_poll ev = false -> sleep_of ev = 0 ->
  bounded domain 0 0 0 (emit ev).
Proof.
  intros Hc Hp Hs o. cbn [emit snd]. split; [|reflexivity].
  exists [ev]. cbn. rewrite Hc, Hp, Hs. cbn. repeat split; lia.
Qed.

Lemma bounded_emit_create (payload : json) :
  bounded domain 1 0 0 (emit (PostCreateTask payload)).
Proof.
  intros o. cbn [emit snd]. split; [|reflexivity].
  exists [PostCreateTask payload]. cbn. repeat split; lia.
Qed.

Lemma bounded_emit_poll (payload : json) :
  bounded domain 0 1 0 (emit (PostGetTaskResult payload)).
Proof.
  intros o. cbn [emit snd]. split; [|reflexivity].
  exists [PostGetTaskResult payload]. cbn. repeat split; lia.
Qed.

Lemma bounded_emit_sleep : bounded domain 0 0 1 (emit (Sleep poll_interval)).
Proof.
  intros o. cbn [emit snd]. split; [|reflexivity].
  exists [Sleep poll_interval]. cbn. repeat split; lia.
Qed.

Variable w : World.

Lemma bounded_deliver_solution (attempt : nat) (result_data : json) :
  bounded domain 0 0 0 (deliver_solution w domain attempt result_data).
Proof.
  unfold deliver_solution.
  apply (bounded_bind 0 0 0 0 0 0); [apply bounded_lift | intros solution].
  apply (bounded_bind 0 0 0 0 0 0); [apply bounded_lift | intros token].
  destruct (Py.truthy token); [|apply bounded_unit].
  apply (bounded_bind 0 0 0 0 0 0); [apply bounded_lift | intros user_agent].
  apply (bounded_bind 0 0 0 0 0 0).
  { destruct (Py.truthy user_agent); [|apply bounded_unit].
    apply (bounded_bind 0 0 0 0 0 0); [apply bounded_lift | intros ua].
    destruct (negb (Py.eq ua user_agent)); [|apply bounded_unit].
    apply (bounded_bind 0 0 0 0 0 0); [now apply bounded_emit_quiet | intros _].
    apply bounded_lift. }
  intros _.
  apply (bounded_bind 0 0 0 0 0 0); [now apply bounded_emit_quiet | intros _].
  apply (bounded_bind 0 0 0 0 0 0); [apply bounded_lift | intros injection_result].
  apply (bounded_bind 0 0 0 0 0 0); [apply bounded_lift | intros success].
  destruct (Py.truthy success); [|apply bounded_unit].
  apply (bounded_bind 0 0 0 0 0 0); [apply bounded_lift | intros _].
  destruct (is_session_valid _ _); [|apply bounded_unit].
  intros o. unfold save_cloudflare_session.
  destruct (storage_state w attempt) as [text|]; cbn [snd files trace].
  - split.
    + exists [SaveSession domain]. cbn. repeat split; lia.
    + intros p Hp. cbn [files]. now apply lookup_insert_ne.
  - split; [|reflexivity]. exists [SaveSession domain]. cbn. repeat split; lia.
Qed.

Lemma bounded_poll (api_key : string) (task_id : json) (attempts : list nat) :
  bounded domain 0 (List.length attempts) (List.length attempts)
    (poll w domain api_key task_id attempts).
Proof.
  induction attempts as [|attempt rest IH]; cbn [poll List.length].
  - apply bounded_lift.
  - cbv zeta. set (budget := List.length rest) in *.
    apply (bounded_bind 0 0 1 0 (S budget) budget); [apply bounded_emit_sleep | intros _].
    apply (bounded_bind 0 1 0 0 budget budget); [apply bounded_emit_poll | intros _].
    apply (bounded_bind 0 0 0 0 budget budget); [apply bounded_lift | intros result_data].
    apply (bounded_bind 0 0 0 0 budget budget); [apply bounded_lift | intros status].
    destruct (Py.eq status (JStr "ready")).
    + apply (bounded_bind 0 0 0 0 budget budget);
        [apply bounded_deliver_solution | intros done].
      destruct done; [|exact IH].
      eapply bounded_weaken; [| | |apply bounded_unit]; lia.
    + destruct (Py.eq status (JStr "processing")); [exact IH|].
      eapply bounded_weaken; [| | |apply bounded_lift]; lia.
Qed.

Lemma bounded_solve_body (sitekey api_key : string) (turnstile_params : json) :
  bounded domain 1 max_attempts max_attempts
    (solve_body w domain sitekey api_key turnstile_params).
Proof.
  unfold solve_body. set (budget := max_attempts).
  apply (bounded_bind 0 0 0 1 budget budget); [apply bounded_lift | intros website_url].
  apply (bounded_bind 0 0 0 1 budget budget); [apply bounded_lift | intros user_agent].
  apply (bounded_bind 0 0 0 1 budget budget); [apply bounded_lift | intros extra].
  cbv zeta.
  apply (bounded_bind 1 0 0 0 budget budget); [apply bounded_emit_create | intros _].
  apply (bounded_bind 0 0 0 0 budget budget); [apply bounded_lift | intros create_result].
  apply (bounded_bind 0 0 0 0 budget budget); [apply bounded_lift | intros error_id].
  destruct (negb (Py.eq error_id (JInt 0))).
  { eapply bounded_weaken; [| | |apply bounded_lift]; lia. }
  apply (bounded_bind 0 0 0 0 budget budget); [apply bounded_lift | intros task_id].
  pose proof (bounded_poll api_key task_id (seq 0 max_attempts)) as H.
  now rewrite length_seq in H.
Qed.

Lemma solve_grows (o : Outside) (sitekey : string) (turnstile_params : json) :
  grows domain 1 max_attempts max_attempts o
    (solve_cloudflare_challenge w o domain sitekey turnstile_params).2.
Proof.
  assert (Hsame : grows domain 1 max_attempts max_attempts o o).
  { eapply grows_weaken; [| | |apply grows_refl]; lia. }
  unfold solve_cloudflare_challenge.
  destruct (TWOCAPTCHA_API_KEY w) as [api_key|]; [|exact Hsame].
  destruct (negb (Text.truthy api_key) || negb (TWOCAPTCHA_AVAILABLE w)); [exact Hsame|].
  pose proof (bounded_solve_body sitekey api_key turnstile_params o) as H.
  destruct (solve_body w domain sitekey api_key turnstile_params o) as [[b|e] o']; exact H.
Qed.

End Budget.

Lemma contacts_split (evs : list Effect) :
  List.length (List.filter is_contact evs)
  = List.length (List.filter is_create evs) + List.length (List.filter is_poll evs).
Proof.
  induction evs as [|ev evs IH]; [reflexivity|].
  destruct ev; cbn; rewrite ?IH; lia.
Qed.


(** X18: the solver writes no file but the session file of its domain. *)
Theorem solve_frame (w : World) (o : Outside) (domain sitekey : string)
    (turnstile_params : json) (p : list string) :
  p <> get_session_path domain ->
  files (solve_cloudflare_challenge w o domain sitekey turnstile_params).2 !! p
  = files o !! p.
Proof.
  intros Hp. now apply (solve_grows domain w o sitekey turnstile_params).
Qed.

(** ** Solver client: the protocol step by step *)

Lemma solve_body_steps (w : World) (domain sitekey api_key : string)
    (turnstile_params : json) (o : Outside) :
  solve_body w domain sitekey api_key turnstile_params o
  = match submitted w sitekey api_key turnstile_params with
    | Raised e => (Raised e, o)
    | Ok request =>
        let o1 := {| files := files o; trace := trace o ++ [PostCreateTask request] |} in
        match task_of w request with
        | Raised e => (Raised e, o1)
        | Ok task_id => poll w domain api_key task_id (seq 0 max_attempts) o1
        end
    end.
Proof.
  unfold solve_body, submitted, task_of, acknowledgement, request_payload.
  unfold bind_run at 1. unfold lift at 1.
  destruct (page_url w) as [website_url|]; [|reflexivity]. cbn [rbind].
  unfold bind_run at 1. unfold lift at 1.
  destruct (browser_user_agent w) as [user_agent|]; [|reflexivity]. cbn [rbind].
  unfold bind_run at 1. unfold lift at 1.
  destruct (optional_fields turnstile_params) as [extra|]; [|reflexivity]. cbn [rbind].
  cbv zeta. unfold bind_run at 1. cbn [emit].
  unfold bind_run at 1. unfold lift at 1.
  destruct (createTask w _) as [create_result|]; [|reflexivity]. cbn [rbind].
  unfold bind_run at 1. unfold lift at 1.
  destruct (Py.get create_result "errorId" JNull) as [error_id|]; [|reflexivity].
  cbn [rbind].
  destruct (negb (Py.eq error_id (JInt 0))); [reflexivity|].
  unfold bind_run at 1. unfold lift at 1.
  destruct (Py.get create_result "taskId" JNull) as [task_id|]; reflexivity.
Qed.

Section PollSteps.

Variable w : World.
Variables (domain api_key : string) (task_id : json).

Lemma poll_processing_step (attempt : nat) (rest : list nat) (o : Outside) :
  poll_status w api_key task_id attempt (JStr "processing") ->
  poll w domain api_key task_id (attempt :: rest) o
  = poll w domain api_key task_id rest (after_rounds api_key task_id o [attempt]).
Proof.
  intros (data & Hd & Hs). unfold poll_payload in Hd.
  cbn [poll]. cbv zeta. unfold bind_run at 1. cbn [emit].
  unfold bind_run at 1. cbn [emit].
  unfold bind_run at 1. unfold lift at 1. rewrite Hd.
  unfold bind_run at 1. unfold lift at 1. rewrite Hs.
  change (Py.eq (JStr "processing") (JStr "ready")) with false.
  change (Py.eq (JStr "processing") (JStr "processing")) with true.
  cbv iota. unfold after_rounds. cbn [files trace List.flat_map round app].
  now rewrite <- app_assoc.
Qed.

Lemma poll_skip (before rest : list nat) (o : Outside) :
  (forall attempt, attempt ∈ before ->
                   poll_status w api_key task_id attempt (JStr "processing")) ->
  poll w domain api_key task_id (before ++ rest) o
  = poll w domain api_key task_id rest (after_rounds api_key task_id o before).
Proof.
  revert o. induction before as [|a before IH]; intros o H.
  - unfold after_rounds. cbn [List.flat_map app]. rewrite app_nil_r. now destruct o.
  - cbn [app]. rewrite poll_processing_step by (apply H; left).
    rewrite IH by (intros b Hb; apply H; now right).
    f_equal. unfold after_rounds. cbn [files trace List.flat_map].
    now rewrite <- !app_assoc.
Qed.

Lemma poll_error_step (attempt : nat) (rest : list nat) (o : Outside) (status : json) :
  poll_status w api_key task_id attempt status ->
  Py.eq status (JStr "ready") = false ->
  Py.eq status (JStr "processing") = false ->
  poll w domain api_key task_id (attempt :: rest) o
  = (Raised (Exception "2captcha error"), after_rounds api_key task_id o [attempt]).
Proof.
  intros (data & Hd & Hs) Hr Hp. unfold poll_payload in Hd.
  cbn [poll]. cbv zeta. unfold bind_run at 1. cbn [emit].
  unfold bind_run at 1. cbn [emit].
  unfold bind_run at 1. unfold lift at 1. rewrite Hd.
  unfold bind_run at 1. unfold lift at 1. rewrite Hs, Hr, Hp.
  unfold raise, lift, after_rounds. cbn [files trace List.flat_map round app].
  now rewrite <- app_assoc.
Qed.

Lemma deliver_solution_accept (attempt : nat) (o : Outside)
    (result_data solution user_agent injection_result success token : json) :
  Py.get result_data "solution" (JObj []) = Ok solution ->
  Py.get solution "token" JNull = Ok token ->
  Py.truthy token = true ->
  Py.get solution "userAgent" JNull = Ok user_agent ->
  user_agent_settled w attempt user_agent ->
  inject_token w attempt token = Ok injection_result ->
  Py.get injection_result "success" JNull = Ok success ->
  Py.truthy success = true ->
  settle w attempt = Ok tt ->
  is_session_valid (page_after w attempt) default_challenge_url_pattern = true ->
  exists extra,
    deliver_solution w domain attempt result_data o
    = (Ok true,
       {| files := (save_cloudflare_session (storage_state w attempt) (files o) domain).2;
          trace := trace o ++ extra |})
    /\ List.filter is_poll extra = []
    /\ InjectToken token ∈ extra
    /\ SaveSession domain ∈ extra.
Proof.
  intros Hsol Htok Htt Hua Hsettled Hinj Hsuc Hst Hset Hval.
  unfold deliver_solution. cbv [bind_run lift unit_run emit].
  rewrite Hsol. cbv beta iota. rewrite Htok. cbv beta iota. rewrite Htt, Hua.
  cbv beta iota.
  destruct Hsettled as [Hfalse | (ua & Hcur & Hok)].
  - rewrite Hfalse. cbv beta iota. rewrite Hinj. cbv beta iota. rewrite Hsuc.
    cbv beta iota. rewrite Hst, Hset. cbv beta iota. rewrite Hval. cbn [files trace].
    destruct (save_cloudflare_session (storage_state w attempt) (files o) domain) as [b fs].
    exists [InjectToken token; SaveSession domain]. cbn [snd]. rewrite <- app_assoc.
    split; [reflexivity|]. split; [reflexivity|]. split; [left | right; left].
  - destruct (Py.truthy user_agent); cbv beta iota.
    + rewrite Hcur. cbv beta iota.
      destruct (negb (Py.eq ua user_agent)) eqn:Hne; cbv beta iota.
      * destruct Hok as [Heq | Hov]; [rewrite Heq in Hne; discriminate|].
        rewrite Hov. cbv beta iota. cbn [files trace].
        rewrite Hinj. cbv beta iota. rewrite Hsuc.
        cbv beta iota. rewrite Hst, Hset. cbv beta iota. rewrite Hval. cbn [files trace].
        destruct (save_cloudflare_session (storage_state w attempt) (files o) domain)
          as [b fs].
        exists [OverrideUserAgent user_agent; InjectToken token; SaveSession domain].
        cbn [snd]. rewrite <- !app_assoc.
        split; [reflexivity|]. split; [reflexivity|].
        split; [right; left | right; right; left].
      * rewrite Hinj. cbv beta iota. rewrite Hsuc.
        cbv beta iota. rewrite Hst, Hset. cbv beta iota. rewrite Hval. cbn [files trace].
        destruct (save_cloudflare_session (storage_state w attempt) (files o) domain)
          as [b fs].
        exists [InjectToken token; SaveSession domain]. cbn [snd]. rewrite <- app_assoc.
        split; [reflexivity|]. split; [reflexivity|]. split; [left | right; left].
    + rewrite Hinj. cbv beta iota. rewrite Hsuc.
      cbv beta iota. rewrite Hst, Hset. cbv beta iota. rewrite Hval. cbn [files trace].
      destruct (save_cloudflare_session (storage_state w attempt) (files o) domain)
        as [b fs].
      exists [InjectToken token; SaveSession domain]. cbn [snd]. rewrite <- app_assoc.
      split; [reflexivity|]. split; [reflexivity|]. split; [left | right; left].
Qed.

Lemma poll_accept_step (attempt : nat) (rest : list nat) (o : Outside) (token : json) :
  solution_accepted w api_key task_id attempt token ->
  exists extra,
    poll w domain api_key task_id (attempt :: rest) o
    = (Ok true,
       {| files := (save_cloudflare_session (storage_state w attempt) (files o) domain).2;
          trace := trace (after_rounds api_key task_id o [attempt]) ++ extra |})
    /\ List.filter is_poll extra = []
    /\ InjectToken token ∈ extra
    /\ SaveSession domain ∈ extra.
Proof.
  intros (data & solution & ua & res & success
          & Hd & Hs & Hsol & Htok & Htt & Hua & Hsettled & Hinj & Hsuc & Hst & Hset & Hval).
  unfold poll_payload in Hd.
  cbn [poll]. cbv zeta. unfold bind_run at 1. cbn [emit].
  unfold bind_run at 1. cbn [emit].
  unfold bind_run at 1. unfold lift at 1. rewrite Hd.
  unfold bind_run at 1. unfold lift at 1. rewrite Hs.
  change (Py.eq (JStr "ready") (JStr "ready")) with true. cbv iota.
  unfold bind_run at 1.
  match goal with |- context [deliver_solution w domain attempt data ?o1] =>
    destruct (deliver_solution_accept attempt o1 data solution ua res success token
                Hsol Htok Htt Hua Hsettled Hinj Hsuc Hst Hset Hval)
      as (extra & -> & Hq & Hi & Hsv)
  end.
  exists extra. unfold unit_run, after_rounds.
  cbn [files trace List.flat_map round app]. rewrite <- !app_assoc.
  auto.
Qed.

End PollSteps.

Lemma seq_split (n len : nat) :
  n < len -> seq 0 len = seq 0 n ++ n :: seq (S n) (len - S n).
Proof.
  intros H. replace len with (n + S (len - S n)) at 1 by lia.
  rewrite seq_app. reflexivity.
Qed.

Lemma polls_after_rounds (api_key : string) (task_id : json) (o : Outside)
    (attempts : list nat) :
  polls (after_rounds api_key task_id o attempts) = polls o + List.length attempts
  /\ slept (after_rounds api_key task_id o attempts)
     = slept o + poll_interval * List.length attempts.
Proof.
  unfold after_rounds. rewrite polls_app, slept_app, round_polls, round_slept. auto.
Qed.

Lemma solve_enabled (w : World) (o : Outside) (domain sitekey api_key : string)
    (turnstile_params : json) :
  enabled w api_key ->
  solve_cloudflare_challenge w o domain sitekey turnstile_params
  = match solve_body w domain sitekey api_key turnstile_params o with
    | (Ok b, o') => (b, o')
    | (Raised _, o') => (false, o')
    end.
Proof.
  intros (Hk & Ht & Ha). unfold solve_cloudflare_challenge. now rewrite Hk, Ht, Ha.
Qed.


(** X20: a status other than [ready] and [processing] ends the polling.
    When the task is acknowledged, the first [n] polls are answered with
    [processing] and the next one with another status, the solver returns
    [False] after exactly [n + 1] polls. *)
Theorem error_status_stops_polling (w : World) (o : Outside)
    (domain sitekey api_key : string) (turnstile_params request task_id status : json)
    (n : nat) :
  enabled w api_key ->
  submitted w sitekey api_key turnstile_params = Ok request ->
  task_of w request = Ok task_id ->
  n < max_attempts ->
  (forall attempt, attempt < n ->
                   poll_status w api_key task_id attempt (JStr "processing")) ->
  poll_status w api_key task_id n status ->
  Py.eq status (JStr "ready") = false ->
  Py.eq status (JStr "processing") = false ->
  let r := solve_cloudflare_challenge w o domain sitekey turnstile_params in
  r.1 = false /\ polls r.2 = polls o + n + 1 /\ files r.2 = files o.
Proof.
  intros He Hsub Htask Hn Hbefore Hstatus Hr Hp r. subst r.
  rewrite (solve_enabled w o domain sitekey api_key turnstile_params He).
  rewrite solve_body_steps, Hsub. cbv zeta. rewrite Htask.
  rewrite (seq_split n max_attempts Hn), poll_skip.
  2:{ intros a Ha. apply Hbefore. apply elem_of_seq in Ha. lia. }
  rewrite (poll_error_step w domain api_key task_id n _ _ status Hstatus Hr Hp).
  cbn [fst snd].
  destruct (polls_after_rounds api_key task_id
              (after_rounds api_key task_id
                 {| files := files o; trace := trace o ++ [PostCreateTask request] |}
                 (seq 0 n)) [n]) as [-> _].
  destruct (polls_after_rounds api_key task_id
              {| files := files o; trace := trace o ++ [PostCreateTask request] |}
              (seq 0 n)) as [-> _].
  rewrite polls_app, length_seq. cbn. repeat split; lia.
Qed.

(** X21: a solution that the page accepts ends the call with [True]. When
    the first [n] polls are answered with [processing] and the next one
    with a solution the page accepts, the solver returns [True] after
    exactly [n + 1] polls, and the storage is what saving the session
    leaves; the result is [True] also when that saving fails. *)
Theorem accepted_solution_returns_true (w : World) (o : Outside)
    (domain sitekey api_key : string) (turnstile_params request task_id token : json)
    (n : nat) :
  enabled w api_key ->
  submitted w sitekey api_key turnstile_params = Ok request ->
  task_of w request = Ok task_id ->
  n < max_attempts ->
  (forall attempt, attempt < n ->
                   poll_status w api_key task_id attempt (JStr "processing")) ->
  solution_accepted w api_key task_id n token ->
  let r := solve_cloudflare_challenge w o domain sitekey turnstile_params in
  r.1 = true
  /\ polls r.2 = polls o + n + 1
  /\ files r.2 = (save_cloudflare_session (storage_state w n) (files o) domain).2.
Proof.
  intros He Hsub Htask Hn Hbefore Hacc r. subst r.
  rewrite (solve_enabled w o domain sitekey api_key turnstile_params He).
  rewrite solve_body_steps, Hsub. cbv zeta. rewrite Htask.
  rewrite (seq_split n max_attempts Hn), poll_skip.
  2:{ intros a Ha. apply Hbefore. apply elem_of_seq in Ha. lia. }
  destruct (poll_accept_step w domain api_key task_id n
              (seq (S n) (max_attempts - S n))
              (after_rounds api_key task_id
                 {| files := files o; trace := trace o ++ [PostCreateTask request] |}
                 (seq 0 n)) token Hacc) as (extra & -> & Hquiet & _ & _).
  cbn [fst snd files]. split; [reflexivity|]. split; [|reflexivity].
  rewrite polls_app, Hquiet. cbn [List.length]. rewrite Nat.add_0_r.
  destruct (polls_after_rounds api_key task_id
              (after_rounds api_key task_id
                 {| files := files o; trace := trace o ++ [PostCreateTask request] |}
                 (seq 0 n)) [n]) as [-> _].
  destruct (polls_after_rounds api_key task_id
              {| files := files o; trace := trace o ++ [PostCreateTask request] |}
              (seq 0 n)) as [-> _].
  rewrite polls_app, length_seq. cbn. lia.
Qed.

(** ** Solver client: what is sent *)

Lemma truthy_not_null (v : json) :
  Py.truthy v = true -> Py.eq v JNull = false /\ Py.eq v (JStr "") = false.
Proof.
  destruct v as [| b | n | f | s | items | fields]; cbn; try discriminate; auto.
  - destruct f; auto.
  - destruct s; [discriminate | auto].
Qed.

Lemma optional_field_sent (key : string) (v : json) :
  optional_field key v
  = if Py.truthy v && negb (Py.eq v (JStr "null")) then [(key, v)] else [].
Proof.
  unfold optional_field. destruct (Py.truthy v) eqn:Ht; [|reflexivity].
  destruct (truthy_not_null v Ht) as [-> ->]. cbn [orb]. now rewrite orb_false_r.
Qed.

(** X22: an optional parameter is sent exactly when it is usable. Each
    entry added to the task is the value of [action], [cData] or
    [chlPageData] in the captured parameters, sent under [action], [data]
    or [pagedata]; it is sent if and only if it is truthy and is not the
    string [null]. *)
Theorem optional_fields_sent (turnstile_params : json)
    (extra : list (string * json)) (key : string) (v : json) :
  optional_fields turnstile_params = Ok extra ->
  (key, v) ∈ extra
  <-> (Py.truthy turnstile_params = true
       /\ exists source,
            (source, key) ∈ optional_keys
            /\ Py.get turnstile_params source JNull = Ok v
            /\ Py.truthy v = true
            /\ Py.eq v (JStr "null") = false).
Proof.
  unfold optional_fields. destruct (Py.truthy turnstile_params) eqn:Ht.
  2:{ intros [= <-]. split; [intros H; apply elem_of_nil in H; destruct H|].
      intros [? _]. discriminate. }
  destruct (Py.get turnstile_params "action" JNull) as [a|] eqn:Ha; [|discriminate].
  destruct (Py.get turnstile_params "cData" JNull) as [c|] eqn:Hc; [|discriminate].
  destruct (Py.get turnstile_params "chlPageData" JNull) as [d|] eqn:Hd; [|discriminate].
  cbn [rbind]. intros [= <-]. rewrite !optional_field_sent, !elem_of_app.
  assert (Hone : forall k x, (key, v) ∈ (if Py.truthy x && negb (Py.eq x (JStr "null"))
                                         then [(k, x)] else [])
                             <-> key = k /\ v = x /\ Py.truthy x = true
                                 /\ Py.eq x (JStr "null") = false).
  { intros k x. destruct (Py.truthy x); cbn [andb].
    - destruct (Py.eq x (JStr "null")); cbn [negb].
      + split; [intros H; apply elem_of_nil in H; destruct H | intros (_ & _ & _ & H); discriminate].
      + rewrite list_elem_of_singleton. split; [intros [= -> ->]; auto | intros (-> & -> & _); reflexivity].
    - split; [intros H; apply elem_of_nil in H; destruct H | intros (_ & _ & H & _); discriminate]. }
  rewrite !Hone. unfold optional_keys. split.
  - intros [(-> & -> & H1 & H2) | [(-> & -> & H1 & H2) | (-> & -> & H1 & H2)]];
      (split; [reflexivity|]).
    + exists "action". split; [left | auto].
    + exists "cData". split; [right; left | auto].
    + exists "chlPageData". split; [right; right; left | auto].
  - intros (_ & source & Hin & Hget & H1 & H2).
    apply elem_of_cons in Hin as [[= -> ->] | Hin]; [left; split; [reflexivity|]; rewrite Ha in Hget; injection Hget as ->; auto|].
    apply elem_of_cons in Hin as [[= -> ->] | Hin]; [right; left; split; [reflexivity|]; rewrite Hc in Hget; injection Hget as ->; auto|].
    apply elem_of_cons in Hin as [[= -> ->] | Hin]; [right; right; split; [reflexivity|]; rewrite Hd in Hget; injection Hget as ->; auto|].
    apply elem_of_nil in Hin. destruct Hin.
Qed.

Lemma no_create_added (domain : string) (n s : nat) (o o' : Outside) (request : json) :
  grows domain 0 n s o o' ->
  PostCreateTask request ∈ trace o' -> PostCreateTask request ∈ trace o.
Proof.
  intros [(evs & -> & C & _) _] Hin. apply elem_of_app in Hin as [Hin | Hin]; [exact Hin|].
  exfalso. assert (Hf : PostCreateTask request ∈ List.filter is_create evs).
  { apply list_elem_of_In, List.filter_In. split; [now apply list_elem_of_In | reflexivity]. }
  destruct (List.filter is_create evs); [apply elem_of_nil in Hf; destruct Hf | cbn in C; lia].
Qed.

Lemma submission_added (w : World) (o : Outside) (domain sitekey : string)
    (turnstile_params request : json) :
  PostCreateTask request
    ∈ trace (solve_cloudflare_challenge w o domain sitekey turnstile_params).2 ->
  PostCreateTask request ∈ trace o
  \/ exists api_key,
       enabled w api_key
       /\ submitted w sitekey api_key turnstile_params = Ok request.
Proof.
  unfold solve_cloudflare_challenge.
  destruct (TWOCAPTCHA_API_KEY w) as [api_key|] eqn:Hk; [|now left].
  destruct (Text.truthy api_key) eqn:Ht; cbn [negb orb]; [|now left].
  destruct (TWOCAPTCHA_AVAILABLE w) eqn:Ha; cbn [negb]; [|now left].
  rewrite solve_body_steps.
  destruct (submitted w sitekey api_key turnstile_params) as [request0|] eqn:Hsub;
    [|now left].
  cbv zeta. intros Hin.
  assert (Hadded : PostCreateTask request
                     ∈ trace {| files := files o;
                                trace := trace o ++ [PostCreateTask request0] |}).
  { destruct (task_of w request0) as [task_id|]; [|exact Hin].
    pose proof (bounded_poll domain w api_key task_id (seq 0 max_attempts)
                  {| files := files o; trace := trace o ++ [PostCreateTask request0] |})
      as Hg.
    destruct (poll w domain api_key task_id (seq 0 max_attempts) _) as [[b|e] o'];
      cbn [snd] in Hin, Hg; exact (no_create_added _ _ _ _ _ _ Hg Hin). }
  cbn [trace] in Hadded. apply elem_of_app in Hadded as [H | H]; [now left|].
  apply list_elem_of_singleton in H. injection H as ->. right.
  exists api_key. split; [repeat split; assumption | exact Hsub].
Qed.

Lemma submitted_fields (w : World) (sitekey api_key : string)
    (turnstile_params request : json) :
  submitted w sitekey api_key turnstile_params = Ok request ->
  exists website_url task,
    page_url w = Ok website_url
    /\ Py.get request "clientKey" JNull = Ok (JStr api_key)
    /\ Py.get request "task" JNull = Ok task
    /\ Py.get task "type" JNull = Ok (JStr "TurnstileTaskProxyless")
    /\ Py.get task "websiteURL" JNull = Ok (JStr website_url)
    /\ Py.get task "websiteKey" JNull = Ok (JStr sitekey).
Proof.
  unfold submitted.
  destruct (page_url w) as [website_url|]; [|discriminate]. cbn [rbind].
  destruct (browser_user_agent w) as [user_agent|]; [|discriminate]. cbn [rbind].
  destruct (optional_fields turnstile_params) as [extra|]; [|discriminate].
  cbn [rbind]. intros [= <-].
  exists website_url. eexists. split; [reflexivity|]. repeat split; reflexivity.
Qed.

(** X23: what is submitted. A task submission that a call of the solver
    adds to the record carries the credential of the environment as
    [clientKey], and a task of type [TurnstileTaskProxyless] with the URL of
    the page as [websiteURL] and the sitekey as [websiteKey]. *)
Theorem create_task_request (w : World) (o : Outside) (domain sitekey : string)
    (turnstile_params request : json) :
  PostCreateTask request
    ∈ trace (solve_cloudflare_challenge w o domain sitekey turnstile_params).2 ->
  PostCreateTask request ∈ trace o
  \/ exists api_key website_url task,
       enabled w api_key
       /\ page_url w = Ok website_url
       /\ Py.get request "clientKey" JNull = Ok (JStr api_key)
       /\ Py.get request "task" JNull = Ok task
       /\ Py.get task "type" JNull = Ok (JStr "TurnstileTaskProxyless")
       /\ Py.get task "websiteURL" JNull = Ok (JStr website_url)
       /\ Py.get task "websiteKey" JNull = Ok (JStr sitekey).
Proof.
  intros Hin. apply submission_added in Hin as [Hin | (api_key & He & Hsub)];
    [now left|].
  right. apply submitted_fields in Hsub as (website_url & task & H).
  exists api_key, website_url, task. split; [exact He | exact H].
Qed.

(** ** Callers *)

Lemma deliver_reachable (arrivals : list NetworkEvent) (ext : Extractor) :
  reachable ext -> reachable (deliver ext arrivals).
Proof.
  unfold deliver. revert ext.
  induction arrivals as [|ev rest IH]; intros ext Hr; cbn [fold_left]; [exact Hr|].
  apply IH. now constructor.
Qed.

Lemma watched_key_valid (before during : list NetworkEvent) (k : string) :
  (get_sitekey (deliver (setup_network_monitoring new_extractor) before) during).1 = Some k ->
  _is_valid_turnstile_sitekey k = true.
Proof.
  apply get_sitekey_ok, reachable_cache_ok, deliver_reachable.
  constructor. constructor.
Qed.

Lemma valid_value_some (v : json) (k : string) :
  valid_value v = Ok (Some k) -> v = JStr k /\ _is_valid_turnstile_sitekey k = true.
Proof.
  unfold valid_value. destruct (negb (Py.truthy v)); [discriminate|].
  destruct v as [| b | n | f | s | items | fields]; try discriminate.
  - destruct (_is_valid_turnstile_sitekey s) eqn:Hv; [|discriminate].
    intros [= <-]. auto.
  - destruct (_ || _); discriminate.
  - destruct (_ || _); discriminate.
Qed.

(** The sitekey that reaches [if not sitekey], when there is one, is
    validated. *)
Lemma locals_valid (cw : CheckWorld) (k : string) (turnstile_params : json) :
  locals cw = Ok (Some k, turnstile_params) -> _is_valid_turnstile_sitekey k = true.
Proof.
  unfold locals. destruct (existing_params cw) as [existing|]; [|discriminate].
  cbn [rbind]. destruct (captured_of existing) as [[s p | |]|] eqn:Hc; try discriminate;
    cbn [rbind].
  - intros [= -> ->]. unfold captured_of in Hc.
    destruct (Py.truthy existing); [|discriminate].
    destruct (Py.get existing "sitekey" JNull) as [sk|]; [|discriminate]. cbn [rbind] in Hc.
    destruct (Py.truthy sk); [|discriminate].
    destruct (valid_value sk) as [[s'|]|] eqn:Hv; try discriminate. cbn [rbind] in Hc.
    injection Hc as -> _. now apply valid_value_some in Hv.
  - unfold monitored.
    destruct (install_interceptor cw); [|discriminate]. cbn [rbind].
    destruct (first_wait cw); [|discriminate]. cbn [rbind].
    destruct (trigger_render cw); [|discriminate]. cbn [rbind].
    destruct (second_wait cw); [|discriminate]. cbn [rbind]. cbv zeta.
    destruct (late_params cw); [|discriminate]. cbn [rbind].
    intros [= H _]. now apply watched_key_valid in H.
Qed.

(** X24: [check_and_solve_cloudflare] answers [True] only when the detector
    finds the page valid on entry, or when the solver returned [True] for a
    validated sitekey, the page then reached its load state, and the
    detector finds it valid. *)
Theorem check_true_only_if (cw : CheckWorld) (o : Outside) :
  (check_and_solve_cloudflare cw o).1 = true ->
  is_session_valid (page_on_entry cw) default_challenge_url_pattern = true
  \/ exists domain k turnstile_params,
       page_netloc cw = Ok domain
       /\ _is_valid_turnstile_sitekey k = true
       /\ (solve_cloudflare_challenge (solver cw) o domain k turnstile_params).1 = true
       /\ load_state cw = Ok tt
       /\ is_session_valid (page_after_solve cw) default_challenge_url_pattern = true.
Proof.
  unfold check_and_solve_cloudflare.
  destruct (is_session_valid (page_on_entry cw) default_challenge_url_pattern);
    [now left|].
  destruct (page_netloc cw) as [domain|]; [|discriminate]. cbn [rbind].
  destruct (locals cw) as [[[k|] params]|] eqn:Hl; cbn [rbind]; try discriminate.
  destruct (Text.truthy k); cbn [negb]; [|discriminate].
  destruct (solve_cloudflare_challenge (solver cw) o domain k params) as [success o'] eqn:Hs.
  destruct success; [|discriminate].
  destruct (load_state cw) as [[]|]; [|discriminate]. cbn [fst]. intros Hv.
  right. exists domain, k, params. rewrite Hs. cbn [fst].
  repeat split; try assumption; try reflexivity. now apply locals_valid in Hl.
Qed.

(** X25: parameters captured without a sitekey end the check. When the
    page is not valid on entry and [window.turnstileParams] is a non-empty
    object without a truthy [sitekey], the function returns [False]: the
    network is not watched and the solver is not called. *)
Theorem params_without_sitekey (cw : CheckWorld) (o : Outside) (existing sitekey : json) :
  is_session_valid (page_on_entry cw) default_challenge_url_pattern = false ->
  existing_params cw = Ok existing ->
  Py.truthy existing = true ->
  Py.get existing "sitekey" JNull = Ok sitekey ->
  Py.truthy sitekey = false ->
  locals cw = Raised (Exception "UnboundLocalError")
  /\ check_and_solve_cloudflare cw o = (false, o).
Proof.
  intros Hv He Ht Hg Hf.
  assert (Hl : locals cw = Raised (Exception "UnboundLocalError")).
  { unfold locals. rewrite He. cbn [rbind]. unfold captured_of. rewrite Ht, Hg.
    cbn [rbind]. now rewrite Hf. }
  split; [exact Hl|]. unfold check_and_solve_cloudflare. rewrite Hv, Hl.
  destruct (page_netloc cw); reflexivity.
Qed.

(** What a call of [check_and_solve_cloudflare] leaves outside is what it
    found, or what one call of the solver for a validated key left. *)
Lemma check_outside (cw : CheckWorld) (o : Outside) :
  (check_and_solve_cloudflare cw o).2 = o
  \/ exists domain k turnstile_params,
       page_netloc cw = Ok domain
       /\ _is_valid_turnstile_sitekey k = true
       /\ (check_and_solve_cloudflare cw o).2
          = (solve_cloudflare_challenge (solver cw) o domain k turnstile_params).2.
Proof.
  unfold check_and_solve_cloudflare.
  destruct (is_session_valid (page_on_entry cw) default_challenge_url_pattern);
    [now left|].
  destruct (page_netloc cw) as [domain|]; [|now left]. cbn [rbind].
  destruct (locals cw) as [[[k|] params]|] eqn:Hl; cbn [rbind]; try (now left).
  destruct (Text.truthy k); cbn [negb]; [|now left].
  right. exists domain, k, params. split; [reflexivity|].
  split; [now apply locals_valid in Hl|].
  destruct (solve_cloudflare_challenge (solver cw) o domain k params) as [[] o'];
    [|reflexivity].
  destruct (load_state cw); reflexivity.
Qed.

Lemma submission_sitekey (w : World) (o : Outside) (domain k : string)
    (turnstile_params request : json) :
  _is_valid_turnstile_sitekey k = true ->
  PostCreateTask request
    ∈ trace (solve_cloudflare_challenge w o domain k turnstile_params).2 ->
  PostCreateTask request ∈ trace o
  \/ exists task key,
       Py.get request "task" JNull = Ok task
       /\ Py.get task "websiteKey" JNull = Ok (JStr key)
       /\ _is_valid_turnstile_sitekey key = true.
Proof.
  intros Hv Hin. apply submission_added in Hin as [Hin | (api_key & _ & Hsub)];
    [now left|].
  right. apply submitted_fields in Hsub as (url & task & _ & _ & Ht & _ & _ & Hk).
  eauto.
Qed.

(** X26: every task that [check_and_solve_cloudflare] submits names a
    sitekey that passed the validator, whether the key came from the
    parameters already captured in the page or from the network. *)
Theorem check_submits_validated_sitekey (cw : CheckWorld) (o : Outside) (request : json) :
  PostCreateTask request ∈ trace (check_and_solve_cloudflare cw o).2 ->
  PostCreateTask request ∈ trace o
  \/ exists task key,
       Py.get request "task" JNull = Ok task
       /\ Py.get task "websiteKey" JNull = Ok (JStr key)
       /\ _is_valid_turnstile_sitekey key = true.
Proof.
  destruct (check_outside cw o) as [-> | (domain & k & params & _ & Hv & ->)];
    [now left|].
  now apply submission_sitekey.
Qed.

(** X27: one call of [check_and_solve_cloudflare] polls at most 30 times
    and contacts the service at most 31 times, and it leaves every file
    other than the session file of the domain of the page as it was. *)
Theorem check_within_budget (cw : CheckWorld) (o : Outside) :
  polls (check_and_solve_cloudflare cw o).2 <= polls o + max_attempts
  /\ contacts (check_and_solve_cloudflare cw o).2 <= contacts o + 1 + max_attempts
  /\ forall p,
       (forall domain, page_netloc cw = Ok domain -> p <> get_session_path domain) ->
       files (check_and_solve_cloudflare cw o).2 !! p = files o !! p.
Proof.
  destruct (check_outside cw o) as [-> | (domain & k & params & Hd & _ & ->)].
  - repeat split; lia.
  - destruct (solve_grows domain (solver cw) o k params) as [(evs & T & C & P & S) F].
    unfold polls, contacts. rewrite T.
    rewrite !List.filter_app, !List.length_app, (contacts_split evs).
    split; [lia|]. split; [lia|]. intros p Hp. apply F. now apply Hp.
Qed.

Section BypassFacts.

Context {BrowserContext : Type}.
Variable bw : BypassWorld BrowserContext.

Lemma fresh_session_outside (domain : string) (o : Outside) :
  (fresh_session bw domain o).2 = o
  \/ exists k turnstile_params,
       _is_valid_turnstile_sitekey k = true
       /\ (fresh_session bw domain o).2
          = (solve_cloudflare_challenge (solver_world bw) o domain k turnstile_params).2.
Proof.
  unfold fresh_session.
  destruct (fresh_page_opens bw); [|now left]. cbn [rbind].
  destruct (fresh_navigation bw); [|now left]. cbn [rbind]. cbv zeta.
  destruct (captured_params bw) as [params|]; [|now left]. cbn [rbind].
  destruct (get_sitekey _ _).1 as [k|] eqn:Hk; [|now left].
  destruct (Text.truthy k); [|now left].
  right. exists k, params. split; [now apply watched_key_valid in Hk | reflexivity].
Qed.

Lemma bypass_outside (o : Outside) :
  (get_bypassed_page bw o).2 = o
  \/ exists domain,
       target_netloc bw = Ok domain
       /\ ((get_bypassed_page bw o).2 = after_load bw o
           \/ exists k turnstile_params,
                _is_valid_turnstile_sitekey k = true
                /\ (get_bypassed_page bw o).2
                   = (solve_cloudflare_challenge (solver_world bw) (after_load bw o)
                        domain k turnstile_params).2).
Proof.
  unfold get_bypassed_page, after_load.
  destruct (launch bw); [|now left]. cbn [rbind].
  destruct (target_netloc bw) as [domain|]; [|now left].
  right. exists domain. split; [reflexivity|].
  destruct (load_cloudflare_session _ _ (files o) domain) as [context fs]. cbn [snd].
  set (o1 := {| files := fs; trace := trace o |}).
  assert (Hfresh : (fresh_session bw domain o1).2 = o1
                   \/ exists k turnstile_params,
                        _is_valid_turnstile_sitekey k = true
                        /\ (fresh_session bw domain o1).2
                           = (solve_cloudflare_challenge (solver_world bw) o1 domain k
                                turnstile_params).2)
    by apply fresh_session_outside.
  destruct context as [ctx|]; [|exact Hfresh].
  destruct (saved_page_opens bw); [|now left].
  destruct (is_session_valid (saved_page bw) default_challenge_url_pattern); [now left|].
  destruct (close_context bw); [exact Hfresh | now left].
Qed.

(** X28: a saved session is reused only when it is usable and still
    valid. When [get_bypassed_page] returns the context made of the session
    file, that file parses and holds a cookie named [cf_clearance], the
    detector finds the page valid, and nothing was sent or written. *)
Theorem saved_session_reused_only_if_valid (o o' : Outside) (context : BrowserContext) :
  get_bypassed_page bw o = (Ok (Saved context), o') ->
  o' = o
  /\ is_session_valid (saved_page bw) default_challenge_url_pattern = true
  /\ exists domain text session_data c,
       target_netloc bw = Ok domain
       /\ files o !! get_session_path domain = Some text
       /\ session_json_load bw text = Ok session_data
       /\ c ∈ cookie_list session_data
       /\ is_cf_clearance_cookie c.
Proof.
  unfold get_bypassed_page.
  destruct (launch bw); [|discriminate]. cbn [rbind].
  destruct (target_netloc bw) as [domain|]; [|discriminate].
  destruct (load_cloudflare_session _ _ (files o) domain) as [ctx fs] eqn:Hload.
  assert (Hfresh : forall o1, fresh_session bw domain o1 <> (Ok (Saved context), o')).
  { intros o1. unfold fresh_session.
    destruct (fresh_page_opens bw); [|discriminate]. cbn [rbind].
    destruct (fresh_navigation bw); [|discriminate]. cbn [rbind]. cbv zeta.
    destruct (captured_params bw); [|discriminate]. cbn [rbind].
    destruct (get_sitekey _ _).1 as [k|]; [|discriminate].
    destruct (Text.truthy k); discriminate. }
  destruct ctx as [ctx|]; [|intros H; now apply Hfresh in H].
  destruct (saved_page_opens bw); [|discriminate].
  destruct (is_session_valid (saved_page bw) default_challenge_url_pattern) eqn:Hv.
  2:{ destruct (close_context bw); [intros H; now apply Hfresh in H | discriminate]. }
  intros [= -> <-].
  apply load_some_inv in Hload as (-> & text & data & Hf & Hj & Hc & _).
  apply has_cf_clearance_true in Hc as (c & Hin & Hcf).
  split; [now destruct o|]. split; [reflexivity|].
  exists domain, text, data, c. auto.
Qed.

(** X29: every task that [get_bypassed_page] submits names a sitekey that
    passed the validator; it polls at most 30 times, and it leaves every
    file other than the session file of the target domain as it was. *)
Theorem bypass_within_bounds (o : Outside) :
  (forall request,
     PostCreateTask request ∈ trace (get_bypassed_page bw o).2 ->
     PostCreateTask request ∈ trace o
     \/ exists task key,
          Py.get request "task" JNull = Ok task
          /\ Py.get task "websiteKey" JNull = Ok (JStr key)
          /\ _is_valid_turnstile_sitekey key = true)
  /\ polls (get_bypassed_page bw o).2 <= polls o + max_attempts
  /\ forall p,
       (forall domain, target_netloc bw = Ok domain -> p <> get_session_path domain) ->
       files (get_bypassed_page bw o).2 !! p = files o !! p.
Proof.
  assert (Hload : forall domain, target_netloc bw = Ok domain ->
            trace (after_load bw o) = trace o
            /\ forall p, p <> get_session_path domain ->
                         files (after_load bw o) !! p = files o !! p).
  { intros domain Hd. unfold after_load. rewrite Hd. cbn [trace files].
    split; [reflexivity|]. intros p Hp.
    destruct (load_keeps_or_removes (session_json_load bw) (browser_new_context bw)
                (files o) domain) as [-> | [_ ->]];
      [reflexivity | now apply lookup_delete_ne]. }
  destruct (bypass_outside o)
    as [-> | (domain & Hd & [-> | (k & params & Hv & ->)])].
  - split; [now left|]. split; [lia | reflexivity].
  - destruct (Hload domain Hd) as [Ht Hf].
    split; [intros request; rewrite Ht; now left|].
    split; [unfold polls; rewrite Ht; lia|]. intros p Hp. apply Hf. now apply Hp.
  - destruct (Hload domain Hd) as [Ht Hf].
    destruct (solve_grows domain (solver_world bw) (after_load bw o) k params)
      as [(evs & T & C & P & S) F].
    split; [|split].
    + intros request Hin. apply (submission_sitekey _ _ _ _ _ _ Hv) in Hin.
      now rewrite Ht in Hin.
    + unfold polls. rewrite T, Ht, List.filter_app, List.length_app. lia.
    + intros p Hp. rewrite F by now apply Hp. apply Hf. now apply Hp.
Qed.

End BypassFacts.

(** * Instances of the further properties *)

Lemma load_returns_usable_session_witness :
  Sample.store_with Sample.cleared_text = Sample.store_with Sample.cleared_text
  /\ exists text session_data c,
       Sample.store_with Sample.cleared_text !! get_session_path Sample.domain = Some text
       /\ Sample.json_load text = Ok session_data
       /\ c ∈ cookie_list session_data
       /\ is_cf_clearance_cookie c
       /\ Sample.new_context text = Ok Sample.cleared_text.
Proof.
  apply (load_returns_usable_session Sample.json_load Sample.new_context
           (Sample.store_with Sample.cleared_text) (Sample.store_with Sample.cleared_text)
           Sample.domain Sample.cleared_text).
  unfold load_cloudflare_session, Sample.store_with. rewrite lookup_singleton_eq.
  reflexivity.
Defined.

Lemma cleared_session_well_formed : well_formed_session Sample.cleared_session.
Proof.
  eexists _, _. split; [reflexivity|]. split; [reflexivity|].
  repeat constructor. now eexists.
Qed.

Lemma cleared_session_has_cookie :
  exists c, c ∈ cookie_list Sample.cleared_session /\ is_cf_clearance_cookie c.
Proof.
  eexists. split; [left|]. eexists. split; reflexivity.
Qed.

Lemma save_then_load_witness :
  let saved := save_cloudflare_session (Ok Sample.cleared_text) ∅ Sample.domain in
  saved.1 = true
  /\ saved.2 !! get_session_path Sample.domain = Some Sample.cleared_text
  /\ load_cloudflare_session Sample.json_load Sample.new_context saved.2 Sample.domain
     = (Some Sample.cleared_text, saved.2).
Proof.
  apply (save_then_load Sample.json_load Sample.new_context ∅ Sample.domain
           Sample.cleared_text Sample.cleared_session Sample.cleared_text).
  - reflexivity.
  - exact cleared_session_well_formed.
  - exact cleared_session_has_cookie.
  - reflexivity.
Defined.

Lemma load_frame_witness :
  (load_cloudflare_session Sample.json_load Sample.new_context
     (Sample.store_with Sample.corrupt_text) Sample.domain).2
    !! get_session_path "example.org"
  = Sample.store_with Sample.corrupt_text !! get_session_path "example.org".
Proof.
  apply (load_frame Sample.json_load Sample.new_context
           (Sample.store_with Sample.corrupt_text) Sample.domain
           (get_session_path "example.org")).
  discriminate.
Defined.

Lemma other_domain_untouched_witness :
  (load_cloudflare_session Sample.json_load Sample.new_context
     (save_cloudflare_session (Ok Sample.corrupt_text)
        (Sample.store_with Sample.cleared_text) "example.org").2 Sample.domain).1
  = (load_cloudflare_session Sample.json_load Sample.new_context
       (Sample.store_with Sample.cleared_text) Sample.domain).1
  /\ (load_cloudflare_session Sample.json_load Sample.new_context
        (clear_session (Sample.store_with Sample.cleared_text) "example.org").2
        Sample.domain).1
     = (load_cloudflare_session Sample.json_load Sample.new_context
          (Sample.store_with Sample.cleared_text) Sample.domain).1.
Proof.
  apply (other_domain_untouched Sample.json_load Sample.new_context
           (Sample.store_with Sample.cleared_text) "example.org" Sample.domain
           (Ok Sample.corrupt_text));
    first [reflexivity | discriminate].
Defined.

Lemma session_info_agrees_with_load_witness :
  exists text,
    Sample.store_with Sample.anonymous_text !! get_session_path Sample.domain = Some text
    /\ load_cloudflare_session Sample.json_load Sample.new_context
         (Sample.store_with Sample.anonymous_text) Sample.domain
       = (None, Sample.store_with Sample.anonymous_text).
Proof.
  apply (session_info_agrees_with_load Sample.json_load Sample.new_context Sample.stat
           (Sample.store_with Sample.anonymous_text) Sample.domain
           {| info_path := get_session_path Sample.domain;
              info_exists := true;
              cookie_count := 1;
              info_has_cf_clearance := false;
              file_size := 96;
              modified := Finite 1700000000 0;
              cf_clearance_expires := None |}).
  unfold get_session_info, Sample.store_with. rewrite lookup_singleton_eq.
  reflexivity.
Defined.

Lemma indicator_any_case_witness :
  is_session_valid Sample.challenge_page default_challenge_url_pattern = false.
Proof.
  apply (indicator_any_case Sample.challenge_page default_challenge_url_pattern
           "<html><head><title>Just a moment...</title></head></html>"
           "Verifying you are human" "Just a moment").
  - reflexivity.
  - reflexivity.
  - reflexivity.
  - apply list_elem_of_In. vm_compute. right. left. reflexivity.
  - right. reflexivity.
Defined.

Lemma extract_url_copies_witness :
  part_of known_sitekey Sample.turnstile_url
  /\ is_turnstile_url Sample.turnstile_url = true.
Proof.
  apply (extract_url_copies Sample.turnstile_url known_sitekey). reflexivity.
Defined.

Lemma extract_network_data_copies_witness :
  (is_turnstile_url (url Sample.header_request) = true
   /\ (part_of Sample.other_sitekey (url Sample.header_request)
       \/ (exists t, post_data Sample.header_request = Some t
                     /\ part_of Sample.other_sitekey t)
       \/ (exists t, body Sample.header_request = Some t
                     /\ part_of Sample.other_sitekey t)))
  \/ (exists key value,
        (key, value) ∈ headers Sample.header_request
        /\ part_of Sample.other_sitekey value).
Proof.
  apply (extract_network_data_copies Sample.header_request Sample.other_sitekey).
  reflexivity.
Defined.

Lemma untagged_data_headers_only_witness :
  _extract_sitekey_from_network_data Sample.header_request
  = scan_headers (headers Sample.header_request).
Proof.
  apply (untagged_data_headers_only Sample.header_request). reflexivity.
Defined.

Lemma buffer_scoped_witness :
  let ext := handle new_extractor (Request Sample.turnstile_url "GET" [] None) in
  Forall buffered_request (captured_requests ext)
  /\ (forall ev, exists added,
        captured_requests (handle ext ev) = captured_requests ext ++ added)
  /\ (forall arrivals, exists added,
        captured_requests (get_sitekey ext arrivals).2 = captured_requests ext ++ added).
Proof.
  apply (buffer_scoped (handle new_extractor (Request Sample.turnstile_url "GET" [] None))).
  apply reach_handle, reach_new.
Defined.

Lemma get_sitekey_sticky_witness :
  let first := get_sitekey new_extractor Sample.arrivals in
  let ext' := deliver first.2 [Sample.quiet_request; Sample.keyed_request] in
  first.1 = Some known_sitekey
  /\ latest_key [Sample.quiet_request; Sample.keyed_request] (Some known_sitekey)
     = Some Sample.other_sitekey
  /\ (exists k', latest_key [Sample.quiet_request; Sample.keyed_request]
                   (Some known_sitekey) = Some k')
  /\ get_sitekey ext' Sample.arrivals
     = (latest_key [Sample.quiet_request; Sample.keyed_request] (Some known_sitekey),
        ext').
Proof.
  assert (H : (get_sitekey new_extractor Sample.arrivals).1 = Some known_sitekey)
    by (vm_compute; reflexivity).
  cbv zeta. split; [exact H|]. split; [vm_compute; reflexivity|].
  exact (get_sitekey_sticky new_extractor Sample.arrivals
           [Sample.quiet_request; Sample.keyed_request] Sample.arrivals known_sitekey H).
Defined.

Lemma get_sitekey_none_witness :
  let ext := handle new_extractor Sample.quiet_request in
  captured_requests ext <> []
  /\ (get_sitekey ext Sample.quiet_arrivals).1 = None.
Proof.
  cbv zeta. split; [discriminate|].
  apply (get_sitekey_none (handle new_extractor Sample.quiet_request) Sample.quiet_arrivals).
  - apply reach_handle, reach_new.
  - split; [reflexivity|]. repeat constructor.
Defined.

Lemma buffer_scans_find_nothing_witness :
  let ext := handle new_extractor Sample.quiet_request in
  (cached ext = None ->
   Forall (fun r => _extract_sitekey_from_network_data r = None) (captured_requests ext))
  /\ get_sitekey ext Sample.arrivals
     = match cached ext with
       | Some k => (Some k, ext)
       | None =>
           (latest_key Sample.arrivals None,
            deliver (setup_network_monitoring ext) Sample.arrivals)
       end.
Proof.
  apply (buffer_scans_find_nothing (handle new_extractor Sample.quiet_request)
           Sample.arrivals).
  apply reach_handle, reach_new.
Defined.

Lemma latest_key_wins_witness :
  (get_sitekey new_extractor
     ([Request "https://challenges.cloudflare.com/cdn-cgi/rum" "POST"
         [("x-sitekey", Sample.other_sitekey)] None]
      ++ [Request Sample.turnstile_url "GET" [] None])).1
  = Some known_sitekey.
Proof.
  apply (latest_key_wins
           [Request "https://challenges.cloudflare.com/cdn-cgi/rum" "POST"
              [("x-sitekey", Sample.other_sitekey)] None]
           Sample.turnstile_url "GET" [] None known_sitekey).
  - reflexivity.
  - vm_compute. reflexivity.
Defined.

Lemma solve_frame_witness :
  files (solve_cloudflare_challenge Sample.solving_world Sample.nothing_done
           Sample.domain known_sitekey JNull).2 !! get_session_path "example.org"
  = files Sample.nothing_done !! get_session_path "example.org".
Proof.
  apply (solve_frame Sample.solving_world Sample.nothing_done Sample.domain
           known_sitekey JNull (get_session_path "example.org")).
  discriminate.
Defined.


Lemma failing_world_processing (attempt : nat) :
  attempt < 2 ->
  poll_status Sample.failing_world "k3y" (JInt 7) attempt (JStr "processing").
Proof.
  intros H. destruct attempt as [|[|attempt]]; [| |lia];
    exists Sample.processing_reply; split; reflexivity.
Qed.

Lemma error_status_stops_polling_witness :
  let r := solve_cloudflare_challenge Sample.failing_world Sample.nothing_done
             Sample.domain known_sitekey JNull in
  r.1 = false /\ polls r.2 = polls Sample.nothing_done + 2 + 1
  /\ files r.2 = files Sample.nothing_done.
Proof.
  apply (error_status_stops_polling Sample.failing_world Sample.nothing_done
           Sample.domain known_sitekey "k3y" JNull Sample.request (JInt 7) JNull 2).
  - repeat split.
  - reflexivity.
  - reflexivity.
  - unfold max_attempts. lia.
  - exact failing_world_processing.
  - exists Sample.error_reply. split; reflexivity.
  - reflexivity.
  - reflexivity.
Defined.

Lemma solving_world_processing (attempt : nat) :
  attempt < 1 ->
  poll_status Sample.solving_world "k3y" (JInt 7) attempt (JStr "processing").
Proof.
  intros H. destruct attempt as [|attempt]; [|lia].
  exists Sample.processing_reply. split; reflexivity.
Qed.

Lemma solving_world_accepts :
  solution_accepted Sample.solving_world "k3y" (JInt 7) 1 (JStr "tok_123").
Proof.
  exists Sample.ready_reply, (JObj [("token", JStr "tok_123")]), JNull,
    (JObj [("success", JBool true)]), (JBool true).
  repeat split; try reflexivity. now left.
Qed.

Lemma accepted_solution_returns_true_witness :
  let r := solve_cloudflare_challenge Sample.solving_world Sample.nothing_done
             Sample.domain known_sitekey JNull in
  r.1 = true
  /\ polls r.2 = polls Sample.nothing_done + 1 + 1
  /\ files r.2
     = (save_cloudflare_session (storage_state Sample.solving_world 1)
          (files Sample.nothing_done) Sample.domain).2.
Proof.
  apply (accepted_solution_returns_true Sample.solving_world Sample.nothing_done
           Sample.domain known_sitekey "k3y" JNull Sample.request (JInt 7)
           (JStr "tok_123") 1).
  - repeat split.
  - reflexivity.
  - reflexivity.
  - unfold max_attempts. lia.
  - exact solving_world_processing.
  - exact solving_world_accepts.
Defined.

Lemma optional_fields_sent_witness :
  ("action", JStr "managed") ∈ [("action", JStr "managed")]
  <-> (Py.truthy Sample.widget_params = true
       /\ exists source,
            (source, "action") ∈ optional_keys
            /\ Py.get Sample.widget_params source JNull = Ok (JStr "managed")
            /\ Py.truthy (JStr "managed") = true
            /\ Py.eq (JStr "managed") (JStr "null") = false).
Proof.
  apply (optional_fields_sent Sample.widget_params [("action", JStr "managed")]
           "action" (JStr "managed")).
  reflexivity.
Defined.

Lemma create_task_request_witness :
  PostCreateTask Sample.request ∈ trace Sample.nothing_done
  \/ exists api_key website_url task,
       enabled Sample.rejecting_world api_key
       /\ page_url Sample.rejecting_world = Ok website_url
       /\ Py.get Sample.request "clientKey" JNull = Ok (JStr api_key)
       /\ Py.get Sample.request "task" JNull = Ok task
       /\ Py.get task "type" JNull = Ok (JStr "TurnstileTaskProxyless")
       /\ Py.get task "websiteURL" JNull = Ok (JStr website_url)
       /\ Py.get task "websiteKey" JNull = Ok (JStr known_sitekey).
Proof.
  apply (create_task_request Sample.rejecting_world Sample.nothing_done Sample.domain
           known_sitekey JNull Sample.request).
  apply list_elem_of_In. vm_compute. left. reflexivity.
Defined.

Lemma check_true_only_if_witness :
  is_session_valid (page_on_entry Sample.check_plain) default_challenge_url_pattern = true
  \/ exists domain k turnstile_params,
       page_netloc Sample.check_plain = Ok domain
       /\ _is_valid_turnstile_sitekey k = true
       /\ (solve_cloudflare_challenge (solver Sample.check_plain) Sample.nothing_done
             domain k turnstile_params).1 = true
       /\ load_state Sample.check_plain = Ok tt
       /\ is_session_valid (page_after_solve Sample.check_plain)
            default_challenge_url_pattern = true.
Proof.
  apply (check_true_only_if Sample.check_plain Sample.nothing_done). reflexivity.
Defined.

Lemma params_without_sitekey_witness :
  locals Sample.check_keyless = Raised (Exception "UnboundLocalError")
  /\ check_and_solve_cloudflare Sample.check_keyless Sample.nothing_done
     = (false, Sample.nothing_done).
Proof.
  apply (params_without_sitekey Sample.check_keyless Sample.nothing_done
           (JObj [("action", JStr "managed")]) JNull); reflexivity.
Defined.

Lemma check_submits_validated_sitekey_witness :
  PostCreateTask (request_payload "k3y" "https://example.test/search" known_sitekey
                    (JStr "Mozilla/5.0") [("action", JStr "managed")])
    ∈ trace Sample.nothing_done
  \/ exists task key,
       Py.get (request_payload "k3y" "https://example.test/search" known_sitekey
                 (JStr "Mozilla/5.0") [("action", JStr "managed")]) "task" JNull = Ok task
       /\ Py.get task "websiteKey" JNull = Ok (JStr key)
       /\ _is_valid_turnstile_sitekey key = true.
Proof.
  apply (check_submits_validated_sitekey Sample.check_known Sample.nothing_done).
  apply list_elem_of_In. vm_compute. left. reflexivity.
Defined.

Lemma saved_session_reused_only_if_valid_witness :
  Sample.saved_outside = Sample.saved_outside
  /\ is_session_valid (saved_page Sample.bypass_saved) default_challenge_url_pattern = true
  /\ exists domain text session_data c,
       target_netloc Sample.bypass_saved = Ok domain
       /\ files Sample.saved_outside !! get_session_path domain = Some text
       /\ session_json_load Sample.bypass_saved text = Ok session_data
       /\ c ∈ cookie_list session_data
       /\ is_cf_clearance_cookie c.
Proof.
  apply (saved_session_reused_only_if_valid Sample.bypass_saved Sample.saved_outside
           Sample.saved_outside Sample.cleared_text).
  unfold get_bypassed_page. cbn [Sample.bypass_saved launch target_netloc rbind].
  unfold load_cloudflare_session, Sample.saved_outside, Sample.store_with. cbn [files].
  rewrite lookup_singleton_eq. reflexivity.
Defined.
